(** * journal-recommender: normalisation and synchronisation pipeline

    A shallow embedding of the scripts under [scripts/]: the field parsers
    and the scope extractor of [clean_scope_data.py] and
    [import_asm_journals.py], the two JSON exports, and the three programs
    that write the relational store.

    Text is a [string] whose characters are read as the code points
    U+0000..U+00FF; whitespace and lower-casing are Python's on that range. *)

From Stdlib Require Import String Ascii List ZArith NArith Bool Arith Lia.
From Stdlib Require Import Permutation Sorted.
Import ListNotations.

Local Open Scope string_scope.
Local Open Scope list_scope.

(** ** The Python runtime the scripts rely on *)

Module Py.

(** [str.isspace] on one character, which is also what [\s] matches in a
    [str] pattern and what [str.strip()] removes. *)
Definition isspace (c : ascii) : bool :=
  let n := N_of_ascii c in
  (((9 <=? n) && (n <=? 13)) || ((28 <=? n) && (n <=? 32))
   || (n =? 133) || (n =? 160))%N.

(** [str.lower] on one character. *)
Definition lower_char (c : ascii) : ascii :=
  let n := N_of_ascii c in
  if (((65 <=? n) && (n <=? 90))
      || ((192 <=? n) && (n <=? 222) && negb (n =? 215)))%N
  then ascii_of_N (n + 32) else c.

Fixpoint lower (s : string) : string :=
  match s with
  | EmptyString => EmptyString
  | String c s' => String (lower_char c) (lower s')
  end.

Fixpoint lstrip (s : string) : string :=
  match s with
  | EmptyString => EmptyString
  | String c s' => if isspace c then lstrip s' else s
  end.

Fixpoint rstrip (s : string) : string :=
  match s with
  | EmptyString => EmptyString
  | String c s' =>
      match rstrip s' with
      | EmptyString => if isspace c then EmptyString else String c EmptyString
      | r => String c r
      end
  end.

(** [s.strip()] *)
Definition strip (s : string) : string := rstrip (lstrip s).

(** [s[n:]] and [s[:n]] for [0 <= n]. *)
Fixpoint drop (n : nat) (s : string) : string :=
  match n, s with
  | O, _ => s
  | S n', String _ s' => drop n' s'
  | S _, EmptyString => EmptyString
  end.

Fixpoint take (n : nat) (s : string) : string :=
  match n, s with
  | O, _ => EmptyString
  | S n', String c s' => String c (take n' s')
  | S _, EmptyString => EmptyString
  end.

(** [s.find(sub)]: the index of the first occurrence, [None] for -1.
    [sub in s] is [contains]; [s.index(sub)] is [find] where [sub in s]. *)
Fixpoint find (sub s : string) : option nat :=
  if prefix sub s then Some O
  else match s with
       | EmptyString => None
       | String _ s' => option_map S (find sub s')
       end.

Definition contains (sub s : string) : bool :=
  match find sub s with Some _ => true | None => false end.

(** [s.split(sep)] for a one-character separator. *)
Fixpoint split (sep : ascii) (s : string) : list string :=
  match s with
  | EmptyString => [EmptyString]
  | String c s' =>
      if Ascii.eqb c sep then EmptyString :: split sep s'
      else match split sep s' with
           | p :: ps => String c p :: ps
           | [] => [String c EmptyString]
           end
  end.

(** [sep.join(l)] *)
Fixpoint join (sep : string) (l : list string) : string :=
  match l with
  | [] => EmptyString
  | [x] => x
  | x :: rest => (x ++ sep ++ join sep rest)%string
  end.

(** [re.sub(r'\s+', ' ', s)]: every maximal run of whitespace becomes one
    space.  [in_run] tells that the previous character was whitespace. *)
Fixpoint collapse_ws_from (in_run : bool) (s : string) : string :=
  match s with
  | EmptyString => EmptyString
  | String c s' =>
      if isspace c
      then if in_run then collapse_ws_from true s'
           else String " " (collapse_ws_from true s')
      else String c (collapse_ws_from false s')
  end.

Definition collapse_ws (s : string) : string := collapse_ws_from false s.

Definition is_sentence_end (c : ascii) : bool :=
  Ascii.eqb c "." || Ascii.eqb c "!" || Ascii.eqb c "?".

(** [re.split(r'(?<=[.!?])\s+', s)]: the separators are the maximal runs of
    whitespace that directly follow one of [.!?].  [after_end] tells that
    the previous character was one of [.!?], [in_sep] that the scan is
    inside a separator, [cur] is the current piece, reversed. *)
Fixpoint split_sentences_from (after_end in_sep : bool) (cur : list ascii)
    (s : string) : list string :=
  match s with
  | EmptyString => [string_of_list_ascii (rev cur)]
  | String c s' =>
      if in_sep then
        if isspace c then split_sentences_from false true [] s'
        else split_sentences_from (is_sentence_end c) false [c] s'
      else if after_end && isspace c then
        string_of_list_ascii (rev cur) :: split_sentences_from false true [] s'
      else split_sentences_from (is_sentence_end c) false (c :: cur) s'
  end.

Definition split_sentences (s : string) : list string :=
  split_sentences_from false false [] s.

(** [any(w in s for w in words)] *)
Definition any_in (words : list string) (s : string) : bool :=
  existsb (fun w => contains w s) words.

(** Exceptions, and results of calls that may raise. *)
Inductive exn : Type :=
  ValueError | TypeError | OverflowError | AttributeError | KeyError | DBError.

Inductive result (A : Type) : Type :=
| Ok (a : A)
| Raise (e : exn).
Arguments Ok {A} a.
Arguments Raise {A} e.

Definition rbind {A B : Type} (r : result A) (f : A -> result B) : result B :=
  match r with
  | Ok a => f a
  | Raise e => Raise e
  end.

(** A float is kept as the decimal it was read from, [(-1)^neg * mant *
    10^exp10], and stands for the binary64 nearest to it, which
    [number_of_float] gives. *)
Inductive pyfloat : Type :=
| FNum (neg : bool) (mant : N) (exp10 : Z)
| FInf (neg : bool)
| FNan.

(** The scalars of the JSON input: [null], [true] or [false], an integer,
    a float or a string.  An array or an object in the place of a scalar
    is not part of the model. *)
Inductive pyval : Type :=
| PNone
| PBool (b : bool)
| PInt (n : Z)
| PFloat (x : pyfloat)
| PStr (s : string).

(** An integer converts to a float, and a decimal is a finite float, when
    it rounds to a finite binary64: below [2^1024 - 2^970] in magnitude,
    half a unit in the last place above the largest one. *)
Definition float_int_limit : Z := (2 ^ 1024 - 2 ^ 970)%Z.

(** The number a float is: [z * 2^k], an infinity, or not a number. *)
Inductive number : Type :=
| Dyadic (z k : Z)
| Inf (neg : bool)
| NaN.

(** [m * 10^e] as a fraction of two integers. *)
Definition fraction (m : N) (e : Z) : Z * Z :=
  if (0 <=? e)%Z then (Z.of_N m * 10 ^ e, 1)%Z
  else (Z.of_N m, 10 ^ (- e))%Z.

(** The integer nearest to [num / den], the even one of two that are
    equally near. *)
Definition round_half_even (num den : Z) : Z :=
  let q := (num / den)%Z in
  let r := (num mod den)%Z in
  if (2 * r <? den)%Z then q
  else if (den <? 2 * r)%Z then (q + 1)%Z
  else if Z.even q then q else (q + 1)%Z.

(** The power of two at or below [num / den]. *)
Definition binade (num den : Z) : Z :=
  let d := (Z.log2 num - Z.log2 den)%Z in
  if (if (0 <=? d)%Z then (den * 2 ^ d <=? num)%Z
      else (den <=? num * 2 ^ (- d))%Z)
  then d else (d - 1)%Z.

(** [num / den] in units of [2^k], rounded. *)
Definition significand (num den k : Z) : Z :=
  if (0 <=? k)%Z then round_half_even num (den * 2 ^ k)
  else round_half_even (num * 2 ^ (- k)) den.

(** The binary64 a decimal rounds to: 53 bits from its binade down, and
    no unit below [2^-1074]; an infinity from [float_int_limit] on. *)
Definition number_of_float (x : pyfloat) : number :=
  match x with
  | FNan => NaN
  | FInf neg => Inf neg
  | FNum neg m e =>
      let (num, den) := fraction m e in
      if (num =? 0)%Z then Dyadic 0 0
      else if (float_int_limit * den <=? num)%Z then Inf neg
      else
        let k := Z.max (binade num den - 52) (-1074) in
        let s := significand num den k in
        Dyadic (if neg then - s else s)%Z k
  end.

(** A float that is an infinity: [Infinity] and [-Infinity] of the
    input, and a decimal out of the range, as [1e999] is. *)
Definition is_infinite (x : pyfloat) : bool :=
  match number_of_float x with
  | Inf _ => true
  | _ => false
  end.

(** The number a scalar is; [None] for a scalar that is not a number. *)
Definition number_of (v : pyval) : option number :=
  match v with
  | PBool b => Some (Dyadic (if b then 1 else 0) 0)
  | PInt n => Some (Dyadic n 0)
  | PFloat x => Some (number_of_float x)
  | PNone | PStr _ => None
  end.

(** [a < b] on numbers: exact, and false with [nan] on either side. *)
Definition number_lt (a b : number) : bool :=
  match a, b with
  | NaN, _ | _, NaN => false
  | Dyadic z1 k1, Dyadic z2 k2 =>
      let k := Z.min k1 k2 in
      (z1 * 2 ^ (k1 - k) <? z2 * 2 ^ (k2 - k))%Z
  | Inf true, Inf true => false
  | Inf true, _ => true
  | _, Inf true => false
  | Inf false, _ => false
  | _, Inf false => true
  end.

(** [bool(v)], the test behind [if not val]. *)
Definition truthy (v : pyval) : bool :=
  match v with
  | PNone => false
  | PBool b => b
  | PInt n => negb (n =? 0)%Z
  | PFloat x =>
      match number_of_float x with
      | Dyadic z _ => negb (z =? 0)%Z
      | _ => true
      end
  | PStr s => negb (String.eqb s "")
  end.

Definition is_digit (c : ascii) : bool :=
  let n := N_of_ascii c in ((48 <=? n) && (n <=? 57))%N.

(** [all(p(c) for c in s)] *)
Fixpoint all_chars (p : ascii -> bool) (s : string) : bool :=
  match s with
  | EmptyString => true
  | String c s' => p c && all_chars p s'
  end.

(** A non-empty run of the digits 0 to 9. *)
Definition is_digits (s : string) : bool :=
  negb (String.eqb s "") && all_chars is_digit s.

(** The characters of a decimal written with a point or with a comma. *)
Definition number_char (c : ascii) : bool :=
  is_digit c || Ascii.eqb c "." || Ascii.eqb c ",".

(** The C-locale whitespace [float] and [int] skip around a number. *)
Definition is_c_space (c : ascii) : bool :=
  let n := N_of_ascii c in (((9 <=? n) && (n <=? 13)) || (n =? 32))%N.

(** What [float] and [int] do to a [str] first: a character from U+007F on
    becomes a space when it is whitespace, and otherwise (no character of
    this range is a decimal digit) a question mark that ends the text. *)
Fixpoint to_ascii_number (s : string) : string :=
  match s with
  | EmptyString => EmptyString
  | String c s' =>
      if (N_of_ascii c <? 127)%N then String c (to_ascii_number s')
      else if isspace c then String " " (to_ascii_number s')
      else "?"
  end.

(** Underscores are removed; one stands only between two digits.  [prev]
    is the previous character. *)
Fixpoint drop_underscores (prev : ascii) (s : string) : option string :=
  match s with
  | EmptyString => if Ascii.eqb prev "_" then None else Some EmptyString
  | String c s' =>
      if Ascii.eqb c "_" then
        if is_digit prev then drop_underscores c s' else None
      else if Ascii.eqb prev "_" && negb (is_digit c) then None
      else option_map (String c) (drop_underscores c s')
  end.

Fixpoint c_lstrip (s : string) : string :=
  match s with
  | EmptyString => EmptyString
  | String c s' => if is_c_space c then c_lstrip s' else s
  end.

Fixpoint c_rstrip (s : string) : string :=
  match s with
  | EmptyString => EmptyString
  | String c s' =>
      match c_rstrip s' with
      | EmptyString => if is_c_space c then EmptyString else String c EmptyString
      | r => String c r
      end
  end.

(** The longest prefix of digits, and the rest. *)
Fixpoint take_digits (s : string) : string * string :=
  match s with
  | EmptyString => (EmptyString, EmptyString)
  | String c s' =>
      if is_digit c
      then let (d, r) := take_digits s' in (String c d, r)
      else (EmptyString, s)
  end.

Fixpoint digits_value (acc : N) (d : string) : N :=
  match d with
  | EmptyString => acc
  | String c d' => digits_value (acc * 10 + (N_of_ascii c - 48))%N d'
  end.

(** An optional sign: whether it is a minus, and the rest. *)
Definition take_sign (s : string) : bool * string :=
  match s with
  | String "-" s' => (true, s')
  | String "+" s' => (false, s')
  | _ => (false, s)
  end.

(** An exponent [e], sign, digits; without digits the [e] is not part of
    the number. *)
Definition take_exponent (s : string) : Z * string :=
  match s with
  | String c s' =>
      if Ascii.eqb c "e" || Ascii.eqb c "E" then
        let (eneg, s1) := take_sign s' in
        let (ed, s2) := take_digits s1 in
        match ed with
        | EmptyString => (0%Z, s)
        | _ => let v := Z.of_N (digits_value 0 ed) in
               ((if eneg then - v else v)%Z, s2)
        end
      else (0%Z, s)
  | EmptyString => (0%Z, s)
  end.

(** The number after the sign; all of the text has to be used. *)
Definition parse_decimal (neg : bool) (s : string) : option pyfloat :=
  let (ip, r1) := take_digits s in
  let (fp, r2) := match r1 with
                  | String "." r => take_digits r
                  | _ => (EmptyString, r1)
                  end in
  match (ip ++ fp)%string with
  | EmptyString => None
  | ds =>
      let (e, r3) := take_exponent r2 in
      match r3 with
      | EmptyString =>
          Some (FNum neg (digits_value 0 ds) (e - Z.of_nat (String.length fp)))
      | _ => None
      end
  end.

Definition parse_inf_nan (neg : bool) (s : string) : option pyfloat :=
  let l := lower s in
  if String.eqb l "inf" || String.eqb l "infinity" then Some (FInf neg)
  else if String.eqb l "nan" then Some FNan
  else None.

(** [float(s)] for a [str]; [None] is [ValueError]. *)
Definition float_of_str (s : string) : option pyfloat :=
  match drop_underscores "000" (to_ascii_number s) with
  | None => None
  | Some t =>
      let (neg, body) := take_sign (c_rstrip (c_lstrip t)) in
      match parse_decimal neg body with
      | Some x => Some x
      | None => parse_inf_nan neg body
      end
  end.

(** [float(v)] *)
Definition float_ (v : pyval) : result pyfloat :=
  match v with
  | PNone => Raise TypeError
  | PBool b => Ok (FNum false (if b then 1 else 0) 0)
  | PInt n =>
      if (Z.abs n <? float_int_limit)%Z
      then Ok (FNum (n <? 0)%Z (Z.abs_N n) 0)
      else Raise OverflowError
  | PFloat x => Ok x
  | PStr s =>
      match float_of_str s with
      | Some x => Ok x
      | None => Raise ValueError
      end
  end.

(** [int(s)] for a [str], base 10; [None] is [ValueError].  A limit of the
    interpreter on the number of digits is not part of the model. *)
Definition int_of_str (s : string) : option Z :=
  match drop_underscores "000" (to_ascii_number s) with
  | None => None
  | Some t =>
      let (neg, body) := take_sign (c_rstrip (c_lstrip t)) in
      let (ds, r) := take_digits body in
      match ds, r with
      | String _ _, EmptyString =>
          let v := Z.of_N (digits_value 0 ds) in
          Some (if neg then - v else v)%Z
      | _, _ => None
      end
  end.

(** [int(v)]: a float is cut off towards zero; an infinity is an
    [OverflowError] and [nan] a [ValueError]. *)
Definition int_ (v : pyval) : result Z :=
  match v with
  | PNone => Raise TypeError
  | PBool b => Ok (if b then 1 else 0)%Z
  | PInt n => Ok n
  | PFloat x =>
      match number_of_float x with
      | Dyadic z k =>
          Ok (if (0 <=? k)%Z then z * 2 ^ k else Z.quot z (2 ^ (- k)))%Z
      | Inf _ => Raise OverflowError
      | NaN => Raise ValueError
      end
  | PStr s =>
      match int_of_str s with
      | Some n => Ok n
      | None => Raise ValueError
      end
  end.

(** [s.replace(',', '.')] *)
Fixpoint replace_comma (s : string) : string :=
  match s with
  | EmptyString => EmptyString
  | String c s' =>
      String (if Ascii.eqb c "," then "."%char else c) (replace_comma s')
  end.

(** The end of the two category patterns, [\((Q[1-4])\)], and with
    [anchored] the [$] after it: the end of the text, or a last newline. *)
Definition match_quartile_group (anchored : bool) (s : string)
    : option string :=
  match s with
  | String a (String b (String d (String e rest))) =>
      let n := N_of_ascii d in
      if Ascii.eqb a "(" && Ascii.eqb b "Q"
         && ((49 <=? n) && (n <=? 52))%N && Ascii.eqb e ")"
         && (negb anchored
             || String.eqb rest "" || String.eqb rest (String "010" ""))
      then Some (String "Q" (String d ""))
      else None
  | _ => None
  end.

(** [\s*\((Q[1-4])\)] at the start of [s]: the whitespace is skipped, as
    no shorter run of it can be followed by the parenthesis. *)
Fixpoint match_tail (anchored : bool) (s : string) : option string :=
  match s with
  | EmptyString => None
  | String c s' =>
      if isspace c then match_tail anchored s'
      else match_quartile_group anchored s
  end.

(** [(.+?)] followed by the tail: the group takes one character that is
    not a newline, and one more each time the tail does not match behind
    it.  [g1] is the group so far, reversed.  The result is the two
    groups. *)
Fixpoint match_name_quartile (anchored : bool) (g1 : list ascii)
    (s : string) : option (string * string) :=
  match s with
  | EmptyString => None
  | String c s' =>
      match (match g1 with
             | [] => None
             | _ => match_tail anchored s
             end) with
      | Some q => Some (string_of_list_ascii (rev g1), q)
      | None =>
          if Ascii.eqb c "010" then None
          else match_name_quartile anchored (c :: g1) s'
      end
  end.

End Py.

(** ** [scripts/clean_scope_data.py]: the scope extractor *)

Module clean_scope_data.
Import Py.

Definition scope_markers : list string := ["Scope"; "Aims and Scope"; "About"].

Definition end_markers : list string :=
  ["Join the conversation"; "Enter Journal"; "Related journals";
   "Homepage"; "How to publish"; "Contact"; "Quartiles"].

(** One round of the inner loop: [if end in text: text = text[:text.index(end)]]. *)
Definition cut_at (text end_ : string) : string :=
  match find end_ text with
  | Some i => take i text
  | None => text
  end.

(** The body of [if marker in raw_scope:], up to the length test: the text
    after the marker found at [idx], stripped, cut at the end markers in
    turn, with its whitespace collapsed. *)
Definition text_after (raw_scope marker : string) (idx : nat) : string :=
  let text := drop (idx + String.length marker) raw_scope in
  let text := strip text in
  let text := fold_left cut_at end_markers text in
  strip (collapse_ws text).

(** One round of the loop [for marker in scope_markers]: [Some text] is
    the [return text], [None] is going on to the next marker. *)
Definition marker_content (raw_scope marker : string) : option string :=
  match find marker raw_scope with
  | Some idx =>
      let text := text_after raw_scope marker idx in
      if (50 <? String.length text)%nat then Some text else None
  | None => None
  end.

(** The loop; [None] is falling out of it. *)
Fixpoint try_markers (markers : list string) (raw_scope : string)
    : option string :=
  match markers with
  | [] => None
  | marker :: rest =>
      match marker_content raw_scope marker with
      | Some text => Some text
      | None => try_markers rest raw_scope
      end
  end.

Definition skip_words : list string :=
  ["click"; "login"; "subscribe"; "issn"; "homepage"].

Definition descriptive_words : list string :=
  ["publishes"; "journal"; "research"; "scope"; "covers"; "dedicated";
   "focuses"].

(** The loop [for sent in sentences] building [descriptive]. *)
Fixpoint descriptive_of (sentences : list string) : list string :=
  match sentences with
  | [] => []
  | sent :: rest =>
      let sent := strip sent in
      if any_in skip_words (lower sent) then descriptive_of rest
      else if any_in descriptive_words (lower sent)
           then sent :: descriptive_of rest
           else descriptive_of rest
  end.

Definition fallback (raw_scope : string) : string :=
  let descriptive := descriptive_of (split_sentences raw_scope) in
  match descriptive with
  | [] => ""
  | _ => join " " (firstn 5 descriptive)
  end.

(** [extract_scope_description(raw_scope, title)]; [title] is not used by
    the body. *)
Definition extract_scope_description (raw_scope title : string) : string :=
  match raw_scope with
  | EmptyString => ""
  | _ =>
      match try_markers scope_markers raw_scope with
      | Some text => text
      | None => fallback raw_scope
      end
  end.

(** The loop over [categories_str.split(';')] in [clean_journal_data],
    with [re.match(r'(.+?)\s*\((Q[1-4])\)', cat)]. *)
Definition parse_category_entry (cat : string)
    : option (string * option string) :=
  let cat := strip cat in
  match match_name_quartile false [] cat with
  | Some (name, quartile) => Some (strip name, Some quartile)
  | None =>
      match cat with
      | EmptyString => None
      | _ => Some (cat, None)
      end
  end.

Fixpoint filter_some {A : Type} (l : list (option A)) : list A :=
  match l with
  | [] => []
  | Some x :: rest => x :: filter_some rest
  | None :: rest => filter_some rest
  end.

Definition categories_parsed (categories_str : string)
    : list (string * option string) :=
  filter_some (map parse_category_entry (split ";" categories_str)).

(** The loop over the numeric fields in [clean_journal_data]: a non-empty
    string becomes its float, or [None] on [ValueError]; anything else is
    left as it is. *)
Inductive cleaned : Type :=
| Unchanged (v : pyval)
| Float (x : option pyfloat).

Definition clean_numeric_field (val : pyval) : cleaned :=
  match val with
  | PStr (String _ _ as s) => Float (float_of_str s)
  | _ => Unchanged val
  end.

(** The comprehension of [clean_journal_data] behind ["areas_list"] and
    ["issn_list"]: [[a.strip() for a in s.split(sep) if a.strip()]]. *)
Definition stripped_items (sep : ascii) (s : string) : list string :=
  map strip (filter (fun a => negb (String.eqb (strip a) "")) (split sep s)).

(** [journal['areas_list']], set under [if areas_str:]; [None] is the key
    that is not set. *)
Definition areas_list (areas_str : option string) : option (list string) :=
  match areas_str with
  | None | Some EmptyString => None
  | Some s => Some (stripped_items ";" s)
  end.

(** [journal['issn_list']], set under [if issn_str:]. *)
Definition issn_list (issn_str : option string) : option (list string) :=
  match issn_str with
  | None | Some EmptyString => None
  | Some s => Some (stripped_items "," s)
  end.

End clean_scope_data.

(** ** [scripts/data-processing/scrape_bmj_scopes.py]: the CSV fields *)

Module scrape_bmj_scopes.
Import Py.

(** [row.get(key, 0)]: [None] is a column the file does not have. *)
Definition row_get_0 (cell : option pyval) : pyval :=
  match cell with
  | Some v => v
  | None => PInt 0
  end.

(** [a or b] *)
Definition py_or (a b : pyval) : pyval := if truthy a then a else b.

(** ['rank': int(row.get('Rank', 0))] *)
Definition rank_field (cell : option pyval) : result Z :=
  int_ (row_get_0 cell).

(** ['h_index': int(row.get('H index', 0) or 0)], and the other counts. *)
Definition count_field (cell : option pyval) : result Z :=
  int_ (py_or (row_get_0 cell) (PInt 0)).

(** ['sjr': row.get('SJR', '').replace(',', '.')], for a cell that is there. *)
Definition decimal_field (cell : string) : string := replace_comma cell.

End scrape_bmj_scopes.

(** ** The relational store, as the scripts reach it through psycopg2

    A table is the list of its rows.  The conflict targets of the
    [ON CONFLICT] clauses are the unique keys of the schema; its other
    checks (types, [NOT NULL], foreign keys) are not in the sources and
    enter as the parameter [db_rejects] of [execute].

    The column [updated_at] of [journals] and of [journal_metrics], which
    one script sets, is kept beside the rows: by the key of the row, the
    time the last statement gave it.  A row without an entry has what the
    schema gave it when it was inserted. *)

Module pg.
Import Py.

Record journal_values : Type := {
  title : option string;
  publisher : option string;
  country : option string;
  open_access : option bool;
  coverage : option string;
  scimago_rank : option Z
}.

Record journals_row : Type := {
  id : Z;
  source_id : string;
  vals : journal_values
}.

Record metrics_values : Type := {
  sjr : option pyfloat;
  sjr_quartile : option string;
  h_index : option Z;
  total_docs_2024 : option Z;
  total_docs_3years : option Z;
  citations_per_doc : option pyfloat;
  total_citations_3years : option Z
}.

Record tables : Type := {
  journals : list journals_row;
  journal_scopes : list (Z * string);               (* journal_id, scope_text *)
  journal_metrics : list (Z * metrics_values);      (* journal_id, ... *)
  journal_issn : list (Z * string);                 (* journal_id, issn *)
  categories : list (Z * string);                   (* id, name *)
  subject_areas : list (Z * string);                (* id, name *)
  journal_categories : list ((Z * Z) * option string);
                                     (* (journal_id, category_id), quartile *)
  journal_areas : list (Z * Z);                     (* journal_id, area_id *)
  journals_updated_at : list (Z * Z);               (* id, updated_at *)
  journal_metrics_updated_at : list (Z * Z)         (* journal_id, updated_at *)
}.

(** The last value of each [serial] sequence. *)
Record sequences : Type := {
  journals_id_seq : Z;
  categories_id_seq : Z;
  subject_areas_id_seq : Z
}.

Definition empty_tables : tables :=
  {| journals := []; journal_scopes := []; journal_metrics := [];
     journal_issn := []; categories := []; subject_areas := [];
     journal_categories := []; journal_areas := [];
     journals_updated_at := []; journal_metrics_updated_at := [] |}.

Definition set_journals (t : tables) x : tables :=
  {| journals := x; journal_scopes := journal_scopes t;
     journal_metrics := journal_metrics t; journal_issn := journal_issn t;
     categories := categories t; subject_areas := subject_areas t;
     journal_categories := journal_categories t;
     journal_areas := journal_areas t;
     journals_updated_at := journals_updated_at t;
     journal_metrics_updated_at := journal_metrics_updated_at t |}.

Definition set_journal_scopes (t : tables) x : tables :=
  {| journals := journals t; journal_scopes := x;
     journal_metrics := journal_metrics t; journal_issn := journal_issn t;
     categories := categories t; subject_areas := subject_areas t;
     journal_categories := journal_categories t;
     journal_areas := journal_areas t;
     journals_updated_at := journals_updated_at t;
     journal_metrics_updated_at := journal_metrics_updated_at t |}.

Definition set_journal_metrics (t : tables) x : tables :=
  {| journals := journals t; journal_scopes := journal_scopes t;
     journal_metrics := x; journal_issn := journal_issn t;
     categories := categories t; subject_areas := subject_areas t;
     journal_categories := journal_categories t;
     journal_areas := journal_areas t;
     journals_updated_at := journals_updated_at t;
     journal_metrics_updated_at := journal_metrics_updated_at t |}.

Definition set_journal_issn (t : tables) x : tables :=
  {| journals := journals t; journal_scopes := journal_scopes t;
     journal_metrics := journal_metrics t; journal_issn := x;
     categories := categories t; subject_areas := subject_areas t;
     journal_categories := journal_categories t;
     journal_areas := journal_areas t;
     journals_updated_at := journals_updated_at t;
     journal_metrics_updated_at := journal_metrics_updated_at t |}.

Definition set_categories (t : tables) x : tables :=
  {| journals := journals t; journal_scopes := journal_scopes t;
     journal_metrics := journal_metrics t; journal_issn := journal_issn t;
     categories := x; subject_areas := subject_areas t;
     journal_categories := journal_categories t;
     journal_areas := journal_areas t;
     journals_updated_at := journals_updated_at t;
     journal_metrics_updated_at := journal_metrics_updated_at t |}.

Definition set_subject_areas (t : tables) x : tables :=
  {| journals := journals t; journal_scopes := journal_scopes t;
     journal_metrics := journal_metrics t; journal_issn := journal_issn t;
     categories := categories t; subject_areas := x;
     journal_categories := journal_categories t;
     journal_areas := journal_areas t;
     journals_updated_at := journals_updated_at t;
     journal_metrics_updated_at := journal_metrics_updated_at t |}.

Definition set_journal_categories (t : tables) x : tables :=
  {| journals := journals t; journal_scopes := journal_scopes t;
     journal_metrics := journal_metrics t; journal_issn := journal_issn t;
     categories := categories t; subject_areas := subject_areas t;
     journal_categories := x; journal_areas := journal_areas t;
     journals_updated_at := journals_updated_at t;
     journal_metrics_updated_at := journal_metrics_updated_at t |}.

Definition set_journal_areas (t : tables) x : tables :=
  {| journals := journals t; journal_scopes := journal_scopes t;
     journal_metrics := journal_metrics t; journal_issn := journal_issn t;
     categories := categories t; subject_areas := subject_areas t;
     journal_categories := journal_categories t; journal_areas := x;
     journals_updated_at := journals_updated_at t;
     journal_metrics_updated_at := journal_metrics_updated_at t |}.

Definition set_journals_updated_at (t : tables) x : tables :=
  {| journals := journals t; journal_scopes := journal_scopes t;
     journal_metrics := journal_metrics t; journal_issn := journal_issn t;
     categories := categories t; subject_areas := subject_areas t;
     journal_categories := journal_categories t;
     journal_areas := journal_areas t; journals_updated_at := x;
     journal_metrics_updated_at := journal_metrics_updated_at t |}.

Definition set_journal_metrics_updated_at (t : tables) x : tables :=
  {| journals := journals t; journal_scopes := journal_scopes t;
     journal_metrics := journal_metrics t; journal_issn := journal_issn t;
     categories := categories t; subject_areas := subject_areas t;
     journal_categories := journal_categories t;
     journal_areas := journal_areas t;
     journals_updated_at := journals_updated_at t;
     journal_metrics_updated_at := x |}.

(** *** Rows by key *)

Section Table.
Context {R K : Type} (key : R -> K) (eqb : K -> K -> bool).

(** [SELECT ... WHERE key = k], then [fetchone()] *)
Definition select (k : K) (t : list R) : option R :=
  List.find (fun r => eqb (key r) k) t.

(** [UPDATE ... SET ... WHERE key = k] *)
Definition update (k : K) (f : R -> R) (t : list R) : list R :=
  map (fun r => if eqb (key r) k then f r else r) t.

(** [INSERT ... ON CONFLICT (key) DO UPDATE SET ...] *)
Definition insert_or_update (r : R) (f : R -> R) (t : list R) : list R :=
  match select (key r) t with
  | Some _ => update (key r) f t
  | None => t ++ [r]
  end.

(** [INSERT ... ON CONFLICT (key) DO NOTHING] *)
Definition insert_or_ignore (r : R) (t : list R) : list R :=
  match select (key r) t with
  | Some _ => t
  | None => t ++ [r]
  end.
End Table.

Definition pair_eqb (a b : Z * Z) : bool :=
  (fst a =? fst b)%Z && (snd a =? snd b)%Z.

Definition issn_eqb (a b : Z * string) : bool :=
  (fst a =? fst b)%Z && String.eqb (snd a) (snd b).

(** [COALESCE(a, b)] *)
Definition coalesce {A : Type} (a b : option A) : option A :=
  match a with
  | Some _ => a
  | None => b
  end.

(** *** What a loop of statements leaves, when none of them fails *)

Section Folds.
Context {K V : Type} (eqb : K -> K -> bool).

(** [INSERT ... VALUES (k, v) ON CONFLICT (k) DO UPDATE SET v = EXCLUDED.v] *)
Definition upsert (k : K) (v : V) (t : list (K * V)) : list (K * V) :=
  insert_or_update fst eqb (k, v) (fun _ => (k, v)) t.

Definition upsert_all (l : list (K * V)) (t : list (K * V)) : list (K * V) :=
  fold_left (fun t kv => upsert (fst kv) (snd kv) t) l t.

(** The value the last pair of [l] with the key [k] has. *)
Fixpoint last_value (k : K) (l : list (K * V)) : option V :=
  match l with
  | [] => None
  | (k', v) :: rest =>
      match last_value k rest with
      | Some v' => Some v'
      | None => if eqb k' k then Some v else None
      end
  end.

(** A row as [l] leaves it: with the last value [l] has for its key. *)
Definition overwritten (l : list (K * V)) (r : K * V) : K * V :=
  match last_value (fst r) l with
  | Some v => (fst r, v)
  | None => r
  end.
End Folds.

Definition insert_all {R : Type} (eqb : R -> R -> bool) (l t : list R)
    : list R :=
  fold_left (fun t r => insert_or_ignore (fun r => r) eqb r t) l t.

(** *** The statements of the three programs

    [now] is what [CURRENT_TIMESTAMP] is in the statement: the time at
    which its transaction began. *)

Inductive stmt : Type :=
(* import_asm_journals.py *)
| UpsertJournal (sid : string) (v : journal_values)
| UpsertScope (journal_id : Z) (scope_text : string)
| UpsertMetrics (journal_id : Z) (m : metrics_values)
| InsertIssn (journal_id : Z) (issn : string)
| UpsertCategory (name : string)
| UpsertJournalCategory (journal_id category_id : Z) (quartile : option string)
| UpsertArea (name : string)
| InsertJournalArea (journal_id area_id : Z)
(* scrape_bmj_journals.py *)
| SelectJournalId (sid : string)
| UpdateJournal (journal_id : Z) (title_ publisher_ country_ : option string)
    (open_access_ : option bool) (now : Z)
| InsertJournal (sid : string) (title_ publisher_ country_ : option string)
    (open_access_ : option bool)
| MergeMetrics (journal_id : Z) (sjr_ : option pyfloat)
    (sjr_quartile_ : option string) (h_index_ : option Z) (now : Z)
(* import_from_json.py *)
| Truncate
| InsertAreaWithId (id_ : Z) (name : string)
| SetvalAreas
| InsertCategoryWithId (id_ : Z) (name : string)
| SetvalCategories
| InsertJournalWithId (id_ : Z) (sid : string) (v : journal_values)
| SelectCategoryId (name : string)
| SelectAreaId (name : string)
| SetvalJournals.

Definition has_id {A : Type} (i : Z) (t : list (Z * A)) : bool :=
  existsb (fun r => (fst r =? i)%Z) t.

(** [SELECT MAX(id)]; [None] on an empty table. *)
Definition max_id (ids : list Z) : option Z :=
  match ids with
  | [] => None
  | i :: rest => Some (fold_left Z.max rest i)
  end.

(** [INSERT INTO <names> (name) VALUES (%s) ON CONFLICT (name) DO UPDATE
    SET name = EXCLUDED.name RETURNING id] on a table of names [d] whose
    sequence stands at [last]: the table, the sequence and the id after
    it.  The update leaves the row as it is. *)
Definition resolve_or_create (name : string) (d : list (Z * string)) (last : Z)
    : option (list (Z * string) * Z * Z) :=
  let new_id := (last + 1)%Z in
  match select snd String.eqb name d with
  | Some r => Some (d, new_id, fst r)
  | None =>
      if has_id new_id d then None
      else Some (d ++ [(new_id, name)], new_id, new_id)
  end.

(** The id a table of names has for a name. *)
Definition id_of (d : list (Z * string)) (name : string) : Z :=
  match select snd String.eqb name d with
  | Some r => fst r
  | None => 0%Z
  end.

(** The names of [names] resolved or created in turn: the table of names
    and its sequence after them. *)
Fixpoint resolve_all (names : list string) (d : list (Z * string)) (last : Z)
    : option (list (Z * string) * Z) :=
  match names with
  | [] => Some (d, last)
  | name :: rest =>
      match resolve_or_create name d last with
      | Some (d', last', _) => resolve_all rest d' last'
      | None => None
      end
  end.

(** The rows of a journal's links, for a table of names [d]. *)
Definition category_links (jid : Z) (d : list (Z * string))
    (cs : list (string * option string)) : list ((Z * Z) * option string) :=
  map (fun c => ((jid, id_of d (fst c)), snd c)) cs.

Definition area_links (jid : Z) (d : list (Z * string)) (names : list string)
    : list (Z * Z) :=
  map (fun n => (jid, id_of d n)) names.

(** [SET title = EXCLUDED.title, ...]: the values of a row replaced. *)
Definition set_vals (v : journal_values) (r : journals_row) : journals_row :=
  {| id := id r; source_id := source_id r; vals := v |}.

(** [INSERT INTO journals ... ON CONFLICT (source_id) DO UPDATE SET ...
    RETURNING id], with [new_id] from the sequence: the table after it and
    the id it returns. *)
Definition journals_after (sid : string) (v : journal_values) (new_id : Z)
    (t : list journals_row) : list journals_row :=
  match select source_id String.eqb sid t with
  | Some _ => update source_id String.eqb sid (set_vals v) t
  | None => t ++ [{| id := new_id; source_id := sid; vals := v |}]
  end.

Definition journal_id_after (sid : string) (new_id : Z)
    (t : list journals_row) : Z :=
  match select source_id String.eqb sid t with
  | Some r => id r
  | None => new_id
  end.

(** [SET ..., updated_at = CURRENT_TIMESTAMP] on the row of the key [k],
    where the statement finds one to update: [found] is the row. *)
Definition stamp {R : Type} (found : option R) (k now : Z)
    (times : list (Z * Z)) : list (Z * Z) :=
  match found with
  | Some _ => upsert Z.eqb k now times
  | None => times
  end.

(** The effect of a statement on the tables of the transaction and on the
    sequences, and the first column of the row it returns.  [None] is a
    violated primary or unique key.  A [serial] default is taken from the
    sequence before a conflict is looked for. *)
Definition apply_stmt (s : stmt) (t : tables) (q : sequences)
    : option (tables * sequences * option Z) :=
  match s with
  | UpsertJournal sid v =>
      let new_id := (journals_id_seq q + 1)%Z in
      let q' := {| journals_id_seq := new_id;
                   categories_id_seq := categories_id_seq q;
                   subject_areas_id_seq := subject_areas_id_seq q |} in
      match select source_id String.eqb sid (journals t) with
      | None =>
          if existsb (fun r => (id r =? new_id)%Z) (journals t) then None
          else Some (set_journals t (journals_after sid v new_id (journals t)),
                     q', Some new_id)
      | Some r =>
          Some (set_journals t (journals_after sid v new_id (journals t)),
                q', Some (id r))
      end
  | UpsertScope jid text =>
      Some (set_journal_scopes t (upsert Z.eqb jid text (journal_scopes t)),
            q, None)
  | UpsertMetrics jid m =>
      Some (set_journal_metrics t (upsert Z.eqb jid m (journal_metrics t)),
            q, None)
  | InsertIssn jid issn =>
      Some (set_journal_issn t
              (insert_or_ignore (fun r => r) issn_eqb (jid, issn)
                 (journal_issn t)),
            q, None)
  | UpsertCategory name =>
      match resolve_or_create name (categories t) (categories_id_seq q) with
      | Some (d, last, i) =>
          Some (set_categories t d,
                {| journals_id_seq := journals_id_seq q;
                   categories_id_seq := last;
                   subject_areas_id_seq := subject_areas_id_seq q |},
                Some i)
      | None => None
      end
  | UpsertJournalCategory jid cid quartile =>
      Some (set_journal_categories t
              (upsert pair_eqb (jid, cid) quartile (journal_categories t)),
            q, None)
  | UpsertArea name =>
      match resolve_or_create name (subject_areas t) (subject_areas_id_seq q)
      with
      | Some (d, last, i) =>
          Some (set_subject_areas t d,
                {| journals_id_seq := journals_id_seq q;
                   categories_id_seq := categories_id_seq q;
                   subject_areas_id_seq := last |},
                Some i)
      | None => None
      end
  | InsertJournalArea jid aid =>
      Some (set_journal_areas t
              (insert_or_ignore (fun r => r) pair_eqb (jid, aid)
                 (journal_areas t)),
            q, None)
  | SelectJournalId sid =>
      Some (t, q, option_map id (select source_id String.eqb sid (journals t)))
  | UpdateJournal jid title_ publisher_ country_ open_access_ now =>
      Some (set_journals_updated_at
              (set_journals t
                 (update id Z.eqb jid
                    (fun r =>
                       {| id := id r; source_id := source_id r;
                          vals := {| title := title_; publisher := publisher_;
                                     country := country_;
                                     open_access := open_access_;
                                     coverage := coverage (vals r);
                                     scimago_rank := scimago_rank (vals r) |} |})
                    (journals t)))
              (stamp (select id Z.eqb jid (journals t)) jid now
                 (journals_updated_at t)),
            q, None)
  | InsertJournal sid title_ publisher_ country_ open_access_ =>
      let new_id := (journals_id_seq q + 1)%Z in
      let q' := {| journals_id_seq := new_id;
                   categories_id_seq := categories_id_seq q;
                   subject_areas_id_seq := subject_areas_id_seq q |} in
      if existsb (fun r => (id r =? new_id)%Z || String.eqb (source_id r) sid)
           (journals t)
      then None
      else Some (set_journals t
                   (journals t
                    ++ [{| id := new_id; source_id := sid;
                           vals := {| title := title_; publisher := publisher_;
                                      country := country_;
                                      open_access := open_access_;
                                      coverage := None;
                                      scimago_rank := None |} |}]),
                 q', Some new_id)
  | MergeMetrics jid sjr_ sjr_quartile_ h_index_ now =>
      Some (set_journal_metrics_updated_at
              (set_journal_metrics t
                 (insert_or_update fst Z.eqb
                    (jid, {| sjr := sjr_; sjr_quartile := sjr_quartile_;
                             h_index := h_index_; total_docs_2024 := None;
                             total_docs_3years := None;
                             citations_per_doc := None;
                             total_citations_3years := None |})
                    (fun r =>
                       (fst r,
                        {| sjr := coalesce sjr_ (sjr (snd r));
                           sjr_quartile :=
                             coalesce sjr_quartile_ (sjr_quartile (snd r));
                           h_index := coalesce h_index_ (h_index (snd r));
                           total_docs_2024 := total_docs_2024 (snd r);
                           total_docs_3years := total_docs_3years (snd r);
                           citations_per_doc := citations_per_doc (snd r);
                           total_citations_3years :=
                             total_citations_3years (snd r) |}))
                    (journal_metrics t)))
              (stamp (select fst Z.eqb jid (journal_metrics t)) jid now
                 (journal_metrics_updated_at t)),
            q, None)
  | Truncate =>
      Some (empty_tables,
            {| journals_id_seq := 0; categories_id_seq := 0;
               subject_areas_id_seq := 0 |}, None)
  | InsertAreaWithId i name =>
      if existsb (fun r => negb (fst r =? i)%Z && String.eqb (snd r) name)
           (subject_areas t)
      then None
      else Some (set_subject_areas t
                   (upsert Z.eqb i name (subject_areas t)),
                 q, None)
  | SetvalAreas =>
      Some (t,
            match max_id (map fst (subject_areas t)) with
            | Some m => {| journals_id_seq := journals_id_seq q;
                           categories_id_seq := categories_id_seq q;
                           subject_areas_id_seq := m |}
            | None => q
            end, None)
  | InsertCategoryWithId i name =>
      if existsb (fun r => negb (fst r =? i)%Z && String.eqb (snd r) name)
           (categories t)
      then None
      else Some (set_categories t
                   (upsert Z.eqb i name (categories t)),
                 q, None)
  | SetvalCategories =>
      Some (t,
            match max_id (map fst (categories t)) with
            | Some m => {| journals_id_seq := journals_id_seq q;
                           categories_id_seq := m;
                           subject_areas_id_seq := subject_areas_id_seq q |}
            | None => q
            end, None)
  | InsertJournalWithId i sid v =>
      if existsb (fun r => negb (id r =? i)%Z && String.eqb (source_id r) sid)
           (journals t)
      then None
      else Some (set_journals t
                   (insert_or_update id Z.eqb
                      {| id := i; source_id := sid; vals := v |}
                      (fun _ => {| id := i; source_id := sid; vals := v |})
                      (journals t)),
                 q, None)
  | SelectCategoryId name =>
      Some (t, q, option_map fst (select snd String.eqb name (categories t)))
  | SelectAreaId name =>
      Some (t, q, option_map fst (select snd String.eqb name (subject_areas t)))
  | SetvalJournals =>
      Some (t,
            match max_id (map id (journals t)) with
            | Some m => {| journals_id_seq := m;
                           categories_id_seq := categories_id_seq q;
                           subject_areas_id_seq := subject_areas_id_seq q |}
            | None => q
            end, None)
  end.

(** The sequences after a statement that fails: the value a [serial]
    default has taken for the row is not given back. *)
Definition drawn (s : stmt) (q : sequences) : sequences :=
  match s with
  | UpsertJournal _ _ | InsertJournal _ _ _ _ _ =>
      {| journals_id_seq := (journals_id_seq q + 1)%Z;
         categories_id_seq := categories_id_seq q;
         subject_areas_id_seq := subject_areas_id_seq q |}
  | UpsertCategory _ =>
      {| journals_id_seq := journals_id_seq q;
         categories_id_seq := (categories_id_seq q + 1)%Z;
         subject_areas_id_seq := subject_areas_id_seq q |}
  | UpsertArea _ =>
      {| journals_id_seq := journals_id_seq q;
         categories_id_seq := categories_id_seq q;
         subject_areas_id_seq := (subject_areas_id_seq q + 1)%Z |}
  | _ => q
  end.

(** *** The connection

    [committed] is what the database holds, [current] what the open
    transaction sees.  Sequences are outside the transaction.  After a
    failed statement the transaction is aborted: every statement fails
    until a rollback. *)
Record conn : Type := {
  committed : tables;
  current : tables;
  seqs : sequences;
  aborted : bool
}.

(** [conn.commit()]; committing an aborted transaction rolls it back. *)
Definition commit (c : conn) : conn :=
  if aborted c
  then {| committed := committed c; current := committed c;
          seqs := seqs c; aborted := false |}
  else {| committed := current c; current := current c;
          seqs := seqs c; aborted := false |}.

(** [conn.rollback()] *)
Definition rollback (c : conn) : conn :=
  {| committed := committed c; current := committed c;
     seqs := seqs c; aborted := false |}.

(** The unique keys of the schema. *)
Definition unique_keys (t : tables) : Prop :=
  NoDup (map source_id (journals t))
  /\ NoDup (map fst (journal_scopes t))
  /\ NoDup (map fst (journal_metrics t))
  /\ NoDup (journal_issn t)
  /\ NoDup (map snd (categories t))
  /\ NoDup (map snd (subject_areas t))
  /\ NoDup (map fst (journal_categories t))
  /\ NoDup (journal_areas t).

(** A table that has grown at its end. *)
Definition grown {A : Type} (l l' : list A) : Prop := exists x, l' = l ++ x.

(** Tables [t'] that hold every row of [t], at its place and with its
    keys: what may differ in a row is the values of a journal, a scope
    text, the metrics and a quartile. *)
Definition only_adds (t t' : tables) : Prop :=
  grown (map (fun r => (id r, source_id r)) (journals t))
    (map (fun r => (id r, source_id r)) (journals t'))
  /\ grown (map fst (journal_scopes t)) (map fst (journal_scopes t'))
  /\ grown (map fst (journal_metrics t)) (map fst (journal_metrics t'))
  /\ grown (journal_issn t) (journal_issn t')
  /\ grown (categories t) (categories t')
  /\ grown (subject_areas t) (subject_areas t')
  /\ grown (map fst (journal_categories t)) (map fst (journal_categories t'))
  /\ grown (journal_areas t) (journal_areas t').

(** The connection after a statement that went through. *)
Definition with_current (c : conn) (t : tables) (q : sequences) : conn :=
  {| committed := committed c; current := t; seqs := q; aborted := false |}.

(** A connection between two transactions. *)
Definition idle (c : conn) : Prop :=
  aborted c = false /\ current c = committed c.

(** Code that runs with the connection and may raise: the connection is
    there after an exception as well. *)
Definition M (A : Type) : Type := conn -> result A * conn.

Definition ret {A : Type} (a : A) : M A := fun c => (Ok a, c).

Definition bind {A B : Type} (m : M A) (f : A -> M B) : M B :=
  fun c =>
    match m c with
    | (Ok a, c') => f a c'
    | (Raise e, c') => (Raise e, c')
    end.

Definition raise {A : Type} (e : exn) : M A := fun c => (Raise e, c).

(** A call that does not touch the connection. *)
Definition lift {A : Type} (r : result A) : M A := fun c => (r, c).

(** What is committed stays, whatever the code does in between. *)
Definition keeps_committed {A : Type} (m : M A) : Prop :=
  forall c r c', m c = (r, c') -> committed c' = committed c.

(** Code that leaves a view [g] of the connection as it was. *)
Definition keeps {A X : Type} (g : conn -> X) (m : M A) : Prop :=
  forall c r c', m c = (r, c') -> g c' = g c.

(** Code that goes through from every connection where [inv] holds, and
    leaves a connection where it holds. *)
Definition runs {A : Type} (inv : conn -> Prop) (m : M A) : Prop :=
  forall c, inv c -> exists a c', m c = (Ok a, c') /\ inv c'.

(** Sequences that are not behind the ids of their tables: the next
    value of each is an id its table does not have. *)
Definition seqs_ahead (t : tables) (q : sequences) : Prop :=
  Forall (fun r => (id r <= journals_id_seq q)%Z) (journals t)
  /\ Forall (fun r => (fst r <= categories_id_seq q)%Z) (categories t)
  /\ Forall (fun r => (fst r <= subject_areas_id_seq q)%Z) (subject_areas t).

(** A connection whose transaction goes on, with the sequences ahead. *)
Definition ready (c : conn) : Prop :=
  aborted c = false /\ seqs_ahead (current c) (seqs c).

Declare Scope pg_scope.
Delimit Scope pg_scope with pg.
Notation "x <- m ;; k" := (bind m (fun x => k))
  (at level 61, m at next level, right associativity) : pg_scope.
Notation "m ;;; k" := (bind m (fun _ => k))
  (at level 61, right associativity) : pg_scope.

(** [for x in l: body(x)] *)
Fixpoint for_each {A : Type} (l : list A) (body : A -> M unit) : M unit :=
  match l with
  | [] => ret tt
  | x :: rest => bind (body x) (fun _ => for_each rest body)
  end.

Section Execute.
(** The statements the schema refuses for a reason other than a key. *)
Variable db_rejects : stmt -> bool.

(** [cur.execute(...)], with the first column of [cur.fetchone()] where
    the caller fetches. *)
Definition execute (s : stmt) : M (option Z) :=
  fun c =>
    if aborted c then (Raise DBError, c)
    else if db_rejects s
    then (Raise DBError,
          {| committed := committed c; current := current c;
             seqs := drawn s (seqs c); aborted := true |})
    else match apply_stmt s (current c) (seqs c) with
         | Some (t, q, r) =>
             (Ok r, {| committed := committed c; current := t;
                       seqs := q; aborted := false |})
         | None =>
             (Raise DBError,
              {| committed := committed c; current := current c;
                 seqs := drawn s (seqs c); aborted := true |})
         end.

(** [cur.fetchone()[0]]: subscripting [None] is a [TypeError]. *)
Definition execute_returning (s : stmt) : M Z :=
  bind (execute s) (fun r =>
    match r with
    | Some i => ret i
    | None => raise TypeError
    end).
End Execute.

End pg.

(** ** [scripts/import_asm_journals.py]: the field parsers and the import *)

Module import_asm_journals.
Import Py pg.

Definition nonempty (s : string) : bool := negb (String.eqb s "").

(** [parse_issn(issn_str)]; [None] is a [null] in the input. *)
Definition parse_issn (issn_str : option string) : list string :=
  match issn_str with
  | None | Some EmptyString => []
  | Some s => filter nonempty (map strip (split "," s))
  end.

(** One round of the loop of [parse_categories], after the test
    [if not part: continue], with
    [re.match(r'^(.+?)\s*\(([Q][1-4])\)$', part)]. *)
Definition parse_category_part (part : string) : string * option string :=
  match match_name_quartile true [] part with
  | Some (name, quartile) => (strip name, Some quartile)
  | None => (part, None)
  end.

Definition parse_categories (categories_str : option string)
    : list (string * option string) :=
  match categories_str with
  | None | Some EmptyString => []
  | Some s =>
      map parse_category_part (filter nonempty (map strip (split ";" s)))
  end.

Definition parse_areas (areas_str : option string) : list string :=
  match areas_str with
  | None | Some EmptyString => []
  | Some s => filter nonempty (map strip (split ";" s))
  end.

(** [safe_float(val)]: [ValueError] and [TypeError] are caught, any other
    exception leaves the function. *)
Definition safe_float (val : pyval) : result (option pyfloat) :=
  if negb (truthy val) then Ok None
  else match float_ val with
       | Ok x => Ok (Some x)
       | Raise ValueError | Raise TypeError => Ok None
       | Raise e => Raise e
       end.

(** [safe_int(val)] *)
Definition safe_int (val : pyval) : result (option Z) :=
  if negb (truthy val) then Ok None
  else match int_ val with
       | Ok n => Ok (Some n)
       | Raise ValueError | Raise TypeError => Ok None
       | Raise e => Raise e
       end.

(** A journal of the input file.  [None] is what [j.get(key)] gives for a
    key that is missing or [null]. *)
Record journal_json : Type := {
  source_id : option string;
  title : option string;
  country : option string;
  open_access : option bool;      (* j.get('open_access', False) *)
  coverage : option string;
  rank : pyval;
  scope : option string;
  sjr : pyval;
  sjr_quartile : option string;
  h_index : pyval;
  total_docs_2024 : pyval;
  total_docs_3years : pyval;
  citations_per_doc : pyval;
  total_citations_3years : pyval;
  issn : option string;
  categories : option string;
  areas : option string
}.

(** What [main] counts and prints: the journals imported and skipped, and
    one line, with the title, for each failed journal. *)
Record run : Type := {
  db : pg.conn;
  imported : nat;
  skipped : nat;
  reported : list (option string * exn)
}.

(** The arguments of the first statement, evaluated before it runs. *)
Definition journal_values_of (j : journal_json) : result journal_values :=
  rbind (safe_int (rank j)) (fun scimago_rank =>
  Ok {| pg.title := title j;
        pg.publisher := Some "American Society for Microbiology";
        pg.country := country j;
        pg.open_access := open_access j;
        pg.coverage := coverage j;
        pg.scimago_rank := scimago_rank |}).

(** The arguments of the metrics statement, evaluated in their order. *)
Definition metrics_values_of (j : journal_json) : result metrics_values :=
  rbind (safe_float (sjr j)) (fun sjr_ =>
  rbind (safe_int (h_index j)) (fun h_index_ =>
  rbind (safe_int (total_docs_2024 j)) (fun total_docs_2024_ =>
  rbind (safe_int (total_docs_3years j)) (fun total_docs_3years_ =>
  rbind (safe_float (citations_per_doc j)) (fun citations_per_doc_ =>
  rbind (safe_int (total_citations_3years j)) (fun total_citations_3years_ =>
  Ok {| pg.sjr := sjr_;
        pg.sjr_quartile := sjr_quartile j;
        pg.h_index := h_index_;
        pg.total_docs_2024 := total_docs_2024_;
        pg.total_docs_3years := total_docs_3years_;
        pg.citations_per_doc := citations_per_doc_;
        pg.total_citations_3years := total_citations_3years_ |})))))).

(** The tables [t'] that a journal which goes through leaves of the tables
    [t], with the sequences at [q]: its row in [journals], inserted or
    updated by [source_id]; its scope, when it has one, and its metrics,
    each one row by journal; its ISSNs added; its categories and areas
    resolved or created by name, with a link to each.  The import sets
    no [updated_at]. *)
Definition imported_into (j : journal_json) (sid : string) (t : tables)
    (q : sequences) (t' : tables) : Prop :=
  exists v m d a lastd lasta,
    let new_id := (journals_id_seq q + 1)%Z in
    let jid := journal_id_after sid new_id (journals t) in
    journal_values_of j = Ok v
    /\ metrics_values_of j = Ok m
    /\ journals t' = journals_after sid v new_id (journals t)
    /\ journal_scopes t'
       = match scope j with
         | Some (String _ _ as text) => upsert Z.eqb jid text (journal_scopes t)
         | _ => journal_scopes t
         end
    /\ journal_metrics t' = upsert Z.eqb jid m (journal_metrics t)
    /\ journal_issn t'
       = insert_all issn_eqb (map (pair jid) (parse_issn (issn j)))
           (journal_issn t)
    /\ resolve_all (map fst (parse_categories (categories j)))
         (pg.categories t) (categories_id_seq q) = Some (d, lastd)
    /\ pg.categories t' = d
    /\ journal_categories t'
       = upsert_all pair_eqb
           (category_links jid d (parse_categories (categories j)))
           (journal_categories t)
    /\ resolve_all (parse_areas (areas j))
         (pg.subject_areas t) (subject_areas_id_seq q) = Some (a, lasta)
    /\ pg.subject_areas t' = a
    /\ journal_areas t'
       = insert_all pair_eqb (area_links jid a (parse_areas (areas j)))
           (journal_areas t)
    /\ journals_updated_at t' = journals_updated_at t
    /\ journal_metrics_updated_at t' = journal_metrics_updated_at t.

Section Main.
Variable db_rejects : pg.stmt -> bool.

Local Open Scope pg_scope.

Definition insert_category (journal_id : Z) (c : string * option string)
    : M unit :=
  cat_id <- execute_returning db_rejects (UpsertCategory (fst c)) ;;
  execute db_rejects (UpsertJournalCategory journal_id cat_id (snd c)) ;;;
  ret tt.

Definition insert_area (journal_id : Z) (area_name : string) : M unit :=
  area_id <- execute_returning db_rejects (UpsertArea area_name) ;;
  execute db_rejects (InsertJournalArea journal_id area_id) ;;;
  ret tt.

(** The body of the [try] for one journal, up to the commit. *)
Definition import_journal (j : journal_json) (sid : string) : M unit :=
  v <- lift (journal_values_of j) ;;
  journal_id <- execute_returning db_rejects (UpsertJournal sid v) ;;
  match scope j with
  | Some (String _ _ as scope_text) =>
      execute db_rejects (UpsertScope journal_id scope_text) ;;; ret tt
  | _ => ret tt
  end ;;;
  m <- lift (metrics_values_of j) ;;
  execute db_rejects (UpsertMetrics journal_id m) ;;;
  for_each (parse_issn (issn j))
    (fun i => execute db_rejects (InsertIssn journal_id i) ;;; ret tt) ;;;
  for_each (parse_categories (categories j)) (insert_category journal_id) ;;;
  for_each (parse_areas (areas j)) (insert_area journal_id).

(** One round of [for j in journals]. *)
Definition import_one (st : run) (j : journal_json) : run :=
  match source_id j with
  | Some (String _ _ as sid) =>
      match import_journal j sid (db st) with
      | (Ok _, c) =>
          {| db := commit c; imported := S (imported st);
             skipped := skipped st; reported := reported st |}
      | (Raise e, c) =>
          {| db := rollback c; imported := imported st;
             skipped := S (skipped st);
             reported := reported st ++ [(title j, e)] |}
      end
  | _ =>
      {| db := db st; imported := imported st;
         skipped := S (skipped st); reported := reported st |}
  end.

(** [main], from the connection to the summary. *)
Definition main (journals : list journal_json) (c : conn) : run :=
  fold_left import_one journals
    {| db := c; imported := 0; skipped := 0; reported := [] |}.
End Main.

End import_asm_journals.

(** ** [scripts/data-processing/scrape_bmj_journals.py]: the upsert *)

Module scrape_bmj_journals.
Import Py pg.

(** What [fetch_journal_details] returns. *)
Record details : Type := {
  source_id : string;
  title : string;
  publisher : string;
  scope : option string;
  sjr : option pyfloat;
  sjr_quartile : option string;
  h_index : option Z;
  country : option string;
  open_access : bool
}.

(** The row of a journal after the [UPDATE], and the row the [INSERT]
    makes. *)
Definition updated_row (journal : details) (r : journals_row) : journals_row :=
  {| id := id r; pg.source_id := pg.source_id r;
     vals := {| pg.title := Some (title journal);
                pg.publisher := Some (publisher journal);
                pg.country := country journal;
                pg.open_access := Some (open_access journal);
                coverage := coverage (vals r);
                scimago_rank := scimago_rank (vals r) |} |}.

Definition inserted_row (journal : details) (new_id : Z) : journals_row :=
  {| id := new_id; pg.source_id := source_id journal;
     vals := {| pg.title := Some (title journal);
                pg.publisher := Some (publisher journal);
                pg.country := country journal;
                pg.open_access := Some (open_access journal);
                coverage := None;
                scimago_rank := None |} |}.

(** The metrics row the statement inserts, and the row it makes of a
    stored one. *)
Definition first_metrics (journal : details) (journal_id : Z)
    : Z * metrics_values :=
  (journal_id,
   {| pg.sjr := sjr journal; pg.sjr_quartile := sjr_quartile journal;
      pg.h_index := h_index journal; total_docs_2024 := None;
      total_docs_3years := None; citations_per_doc := None;
      total_citations_3years := None |}).

Definition merged_metrics (journal : details) (r : Z * metrics_values)
    : Z * metrics_values :=
  (fst r,
   {| pg.sjr := coalesce (sjr journal) (pg.sjr (snd r));
      pg.sjr_quartile := coalesce (sjr_quartile journal) (pg.sjr_quartile (snd r));
      pg.h_index := coalesce (h_index journal) (pg.h_index (snd r));
      total_docs_2024 := total_docs_2024 (snd r);
      total_docs_3years := total_docs_3years (snd r);
      citations_per_doc := citations_per_doc (snd r);
      total_citations_3years := total_citations_3years (snd r) |}).

(** The tables [t] with [updated_at] set to [now] in the row of a journal
    and in its metrics row, and nothing else changed. *)
Definition touched (journal_id now : Z) (t : tables) : tables :=
  set_journal_metrics_updated_at
    (set_journals_updated_at t
       (upsert Z.eqb journal_id now (journals_updated_at t)))
    (upsert Z.eqb journal_id now (journal_metrics_updated_at t)).

(** The tables [t'] that a journal which goes through at the time [now],
    with the id [journal_id], leaves of the tables [t], with the
    sequences at [q]: its row in [journals], updated where its
    [source_id] was there and inserted where it was not; its scope, when
    it has one; its metrics merged into the stored ones; [updated_at]
    set to [now] in each of the two rows that was there; the other
    tables as they were. *)
Definition scraped_into (journal : details) (now : Z) (t : tables)
    (q : sequences) (journal_id : Z) (t' : tables) : Prop :=
  match select pg.source_id String.eqb (source_id journal) (journals t) with
  | Some r =>
      journal_id = id r
      /\ journals t'
         = update id Z.eqb (id r) (updated_row journal) (journals t)
      /\ journals_updated_at t'
         = upsert Z.eqb (id r) now (journals_updated_at t)
  | None =>
      journal_id = (journals_id_seq q + 1)%Z
      /\ existsb (fun r => (id r =? journal_id)%Z) (journals t) = false
      /\ journals t' = journals t ++ [inserted_row journal journal_id]
      /\ journals_updated_at t' = journals_updated_at t
  end
  /\ journal_metrics_updated_at t'
     = stamp (select fst Z.eqb journal_id (journal_metrics t)) journal_id now
         (journal_metrics_updated_at t)
  /\ journal_scopes t'
     = match scope journal with
       | Some (String _ _ as text) =>
           upsert Z.eqb journal_id text (journal_scopes t)
       | _ => journal_scopes t
       end
  /\ journal_metrics t'
     = insert_or_update fst Z.eqb (first_metrics journal journal_id)
         (merged_metrics journal) (journal_metrics t)
  /\ journal_issn t' = journal_issn t
  /\ categories t' = categories t
  /\ subject_areas t' = subject_areas t
  /\ journal_categories t' = journal_categories t
  /\ journal_areas t' = journal_areas t.

Section Insert.
Variable db_rejects : pg.stmt -> bool.

Local Open Scope pg_scope.

(** The body of the [try], up to the commit.  [now] is the time of the
    transaction, which [CURRENT_TIMESTAMP] gives. *)
Definition upsert_journal (now : Z) (journal : details) : M Z :=
  existing <- execute db_rejects (SelectJournalId (source_id journal)) ;;
  journal_id <-
    match existing with
    | Some journal_id =>
        execute db_rejects
          (UpdateJournal journal_id (Some (title journal))
             (Some (publisher journal)) (country journal)
             (Some (open_access journal)) now) ;;;
        ret journal_id
    | None =>
        execute_returning db_rejects
          (InsertJournal (source_id journal) (Some (title journal))
             (Some (publisher journal)) (country journal)
             (Some (open_access journal)))
    end ;;
  match scope journal with
  | Some (String _ _ as scope_text) =>
      execute db_rejects (UpsertScope journal_id scope_text) ;;; ret tt
  | _ => ret tt
  end ;;;
  execute db_rejects
    (MergeMetrics journal_id (sjr journal) (sjr_quartile journal)
       (h_index journal) now) ;;;
  ret journal_id.

(** [insert_journal_to_db(conn, journal)], called at the time [now]: the
    id, or [None]. *)
Definition insert_journal_to_db (now : Z) (c : conn) (journal : details)
    : option Z * conn :=
  match upsert_journal now journal c with
  | (Ok journal_id, c') => (Some journal_id, commit c')
  | (Raise _, c') => (None, rollback c')
  end.
End Insert.

End scrape_bmj_journals.

(** ** [scripts/data-processing/import_from_json.py]: the restore *)

Module import_from_json.
Import Py pg.

(** A journal of the export.  The keys read by subscript are there; the
    name of a category is [None] when the entry has no ["name"]. *)
Record journal_json : Type := {
  id : Z;
  source_id : string;
  vals : pg.journal_values;
  scope_text : option string;
  metrics : pg.metrics_values;
  issns : list string;
  categories : list (option string * option string);
  areas : list string
}.

Record export : Type := {
  subject_areas : list (Z * string);
  all_categories : list (Z * string);
  journals : list journal_json
}.

Section Restore.
Variable db_rejects : pg.stmt -> bool.

Local Open Scope pg_scope.

Definition link_category (journal_id : Z) (cat : option string * option string)
    : M unit :=
  name <- match fst cat with
          | Some name => ret name
          | None => raise KeyError
          end ;;
  found <- execute db_rejects (SelectCategoryId name) ;;
  match found with
  | Some category_id =>
      execute db_rejects
        (UpsertJournalCategory journal_id category_id (snd cat)) ;;; ret tt
  | None => ret tt
  end.

Definition link_area (journal_id : Z) (area_name : string) : M unit :=
  found <- execute db_rejects (SelectAreaId area_name) ;;
  match found with
  | Some area_id =>
      execute db_rejects (InsertJournalArea journal_id area_id) ;;; ret tt
  | None => ret tt
  end.

(** The body of the [try] for one journal. *)
Definition import_journal (j : journal_json) : M unit :=
  execute db_rejects (InsertJournalWithId (id j) (source_id j) (vals j)) ;;;
  match scope_text j with
  | Some (String _ _ as text) =>
      execute db_rejects (UpsertScope (id j) text) ;;; ret tt
  | _ => ret tt
  end ;;;
  execute db_rejects (UpsertMetrics (id j) (metrics j)) ;;;
  for_each (issns j)
    (fun i => execute db_rejects (InsertIssn (id j) i) ;;; ret tt) ;;;
  for_each (categories j) (link_category (id j)) ;;;
  for_each (areas j) (link_area (id j)).

(** The loop [for j in data['journals']]: the count of imported journals
    and the printed failures.  There is no commit and no rollback in
    it. *)
Fixpoint import_journals (l : list journal_json) (imported : nat)
    (reported : list (option string * exn))
    : M (nat * list (option string * exn)) :=
  match l with
  | [] => ret (imported, reported)
  | j :: rest =>
      fun c =>
        match import_journal j c with
        | (Ok _, c') => import_journals rest (S imported) reported c'
        | (Raise e, c') =>
            import_journals rest imported
              (reported ++ [(title (vals j), e)]) c'
        end
  end.

Definition do_commit : M unit := fun c => (Ok tt, commit c).

(** [import_database()], from the loaded [data]; an exception outside
    the loop over the journals ends the program. *)
Definition import_database (data : export)
    : M (nat * list (option string * exn)) :=
  execute db_rejects Truncate ;;;
  do_commit ;;;
  for_each (subject_areas data)
    (fun a => execute db_rejects (InsertAreaWithId (fst a) (snd a)) ;;;
              ret tt) ;;;
  execute db_rejects SetvalAreas ;;;
  do_commit ;;;
  for_each (all_categories data)
    (fun a => execute db_rejects (InsertCategoryWithId (fst a) (snd a)) ;;;
              ret tt) ;;;
  execute db_rejects SetvalCategories ;;;
  do_commit ;;;
  summary <- import_journals (journals data) 0 [] ;;
  execute db_rejects SetvalJournals ;;;
  do_commit ;;;
  ret summary.
End Restore.

End import_from_json.

(** ** [scripts/create_database.py]: the application database *)

Module create_database.
Import Py.

(** The values of a journal entry: a scalar of the input, a flag, a list
    of strings, the parsed categories, or a nested dictionary. *)
#[local] Unset Elimination Schemes.
Inductive value : Type :=
| V (v : pyval)
| VBool (b : bool)
| VStrs (l : list string)
| VCats (l : list (string * option string))
| VDict (d : list (string * value)).
#[local] Set Elimination Schemes.

(** A dictionary, as its items in insertion order. *)
Definition dict : Type := list (string * value).

Fixpoint lookup (d : dict) (key : string) : option value :=
  match d with
  | [] => None
  | (k, v) :: rest => if String.eqb k key then Some v else lookup rest key
  end.

(** [d.get(key)] and [d.get(key, default)] *)
Definition get (d : dict) (key : string) : value :=
  match lookup d key with Some v => v | None => V PNone end.

Definition get_default (d : dict) (key : string) (default : value) : value :=
  match lookup d key with Some v => v | None => default end.

Definition create_database_entry (journal : dict) : dict :=
  [ ("id", get journal "source_id");
    ("title", get journal "title");
    ("issn", get_default journal "issn_list" (VStrs []));
    ("publisher", V (PStr "World Scientific"));
    ("openAccess", get_default journal "open_access" (VBool false));
    ("metrics", VDict
       [ ("sjr", get journal "sjr");
         ("sjrQuartile", get journal "sjr_quartile");
         ("hIndex", get journal "h_index");
         ("totalDocs2024", get journal "total_docs_2024");
         ("totalDocs3Years", get journal "total_docs_3years");
         ("citationsPerDoc", get journal "citations_per_doc");
         ("totalCitations3Years", get journal "total_citations_3years") ]);
    ("scope", get_default journal "scope" (V (PStr "")));
    ("categories", get_default journal "categories_parsed" (VCats []));
    ("areas", get_default journal "areas_list" (VStrs []));
    ("country", get journal "country");
    ("coverage", get journal "coverage");
    ("rank", get journal "rank") ].

(** The number a sort key is, where it is one. *)
Definition key_number (a : value) : option number :=
  match a with
  | V v => number_of v
  | VBool b => number_of (PBool b)
  | _ => None
  end.

(** [a < b] on sort keys.  Two integers and two strings compare, and so
    do two numbers of any kind (integers, floats, [True] and [False]);
    [None] compares with nothing, and a number does not compare with a
    string.  The keys of [main] are the scalars under ["rank"]. *)
Definition py_lt (a b : value) : result bool :=
  match a, b with
  | V (PInt x), V (PInt y) => Ok (x <? y)%Z
  | V (PStr x), V (PStr y) => Ok (String.ltb x y)
  | _, _ =>
      match key_number a, key_number b with
      | Some p, Some q => Ok (number_lt p q)
      | _, _ => Raise TypeError
      end
  end.

(** [list.sort(key=...)] is stable, uses [<] only, and ends with the
    exception of the first comparison that raises.  Below its run length
    it is an insertion sort, and so is the model: the items are (key,
    entry) pairs, and an item goes in front of the first one whose key
    is not less than its own.  With two items or more every key is
    compared at least once. *)
Fixpoint insert_sorted (k : value) (x : dict) (l : list (value * dict))
    : result (list (value * dict)) :=
  match l with
  | [] => Ok [(k, x)]
  | (k', y) :: rest =>
      match py_lt k' k with
      | Raise e => Raise e
      | Ok false => Ok ((k, x) :: l)
      | Ok true =>
          match insert_sorted k x rest with
          | Raise e => Raise e
          | Ok r => Ok ((k', y) :: r)
          end
      end
  end.

Fixpoint sort_by (key : dict -> value) (l : list dict)
    : result (list (value * dict)) :=
  match l with
  | [] => Ok []
  | x :: rest =>
      match sort_by key rest with
      | Raise e => Raise e
      | Ok sorted => insert_sorted (key x) x sorted
      end
  end.

(** [main], from the loaded [journals] to the ["journals"] array of the
    output: [database.sort(key=lambda x: x.get("rank", 99999))]. *)
Definition main (journals : list dict) : result (list dict) :=
  let database := map create_database_entry journals in
  match sort_by (fun x => get_default x "rank" (V (PInt 99999))) database with
  | Raise e => Raise e
  | Ok sorted => Ok (map snd sorted)
  end.

(** The integer of a sort key, and the rank of an entry where it is an
    integer. *)
Definition int_key (k : value) : option Z :=
  match k with
  | V (PInt n) => Some n
  | _ => None
  end.

Definition rank_of (entry : dict) : option Z := int_key (get entry "rank").

(** Two ranks in ascending order, and a rank that is [n]. *)
Definition int_le (a b : option Z) : Prop :=
  exists x y, a = Some x /\ b = Some y /\ (x <= y)%Z.

Definition int_is (n : Z) (a : option Z) : bool :=
  match a with
  | Some x => (x =? n)%Z
  | None => false
  end.

End create_database.

(** ** [scripts/export_db_to_json.py]: the metrics of an exported journal *)

Module export_db_to_json.
Import Py.

(** A [numeric] column arrives as a decimal, [coeff * 10^exp]. *)
Record decimal : Type := { coeff : Z; exp : Z }.

(** [bool(d)]: a decimal is false when it is zero. *)
Definition decimal_truthy (d : decimal) : bool := negb (coeff d =? 0)%Z.

(** [float(d)] *)
Definition float_of_decimal (d : decimal) : pyfloat :=
  FNum (coeff d <? 0)%Z (Z.abs_N (coeff d)) (exp d).

(** Columns 9 to 15 of a fetched row; [None] is SQL [NULL], which is also
    what the [LEFT JOIN] gives a journal without a metrics row. *)
Record metrics_columns : Type := {
  row9 : option decimal;     (* jm.sjr *)
  row10 : option string;     (* jm.sjr_quartile *)
  row11 : option Z;          (* jm.h_index *)
  row12 : option Z;          (* jm.total_docs_2024 *)
  row13 : option Z;          (* jm.total_docs_3years *)
  row14 : option decimal;    (* jm.citations_per_doc *)
  row15 : option Z           (* jm.total_citations_3years *)
}.

(** The ["metrics"] object of the exported journal. *)
Record metrics_json : Type := {
  sjr : option pyfloat;
  sjr_quartile : option string;
  h_index : option Z;
  total_docs_2024 : option Z;
  total_docs_3years : option Z;
  citations_per_doc : option pyfloat;
  total_citations_3years : option Z
}.

(** The row with other values in columns 9 and 14. *)
Definition with_sjr (x : option decimal) (row : metrics_columns)
    : metrics_columns :=
  {| row9 := x; row10 := row10 row; row11 := row11 row; row12 := row12 row;
     row13 := row13 row; row14 := row14 row; row15 := row15 row |}.

Definition with_citations_per_doc (x : option decimal) (row : metrics_columns)
    : metrics_columns :=
  {| row9 := row9 row; row10 := row10 row; row11 := row11 row;
     row12 := row12 row; row13 := row13 row; row14 := x;
     row15 := row15 row |}.

(** [float(x) if x else None] *)
Definition float_if (x : option decimal) : option pyfloat :=
  match x with
  | Some d => if decimal_truthy d then Some (float_of_decimal d) else None
  | None => None
  end.

Definition export_metrics (row : metrics_columns) : metrics_json :=
  {| sjr := float_if (row9 row);
     sjr_quartile := row10 row;
     h_index := row11 row;
     total_docs_2024 := row12 row;
     total_docs_3years := row13 row;
     citations_per_doc := float_if (row14 row);
     total_citations_3years := row15 row |}.

End export_db_to_json.

(** ** [scripts/data-processing/export_db_to_csv.py]: the aggregated columns *)

Module export_db_to_csv.
Import Py.

(** [string_agg(x, '; ')] over the rows of one journal, in the order the
    subquery yields them; [None] is the [NULL] of no row. *)
Definition string_agg (sep : string) (rows : list string) : option string :=
  match rows with
  | [] => None
  | _ => Some (join sep rows)
  end.

(** [c.name || ' (' || COALESCE(jc.quartile, 'N/A') || ')'] *)
Definition category_text (name : string) (quartile : option string) : string :=
  (name ++ " (" ++ match quartile with Some q => q | None => "N/A" end ++ ")")%string.

(** The column [categories] of [journals_complete.csv]. *)
Definition categories_column (rows : list (string * option string))
    : option string :=
  string_agg "; " (map (fun r => category_text (fst r) (snd r)) rows).

(** The column [areas]. *)
Definition areas_column (names : list string) : option string :=
  string_agg "; " names.

End export_db_to_csv.

(** ** Inputs the properties are evaluated on *)

Module samples.
Import Py.

(** The text of the extraction example. *)
Definition scope_example : string :=
  "...Scope This journal publishes research on X. Join the conversation...".

(** A page with a bare "Scope" heading in front of its "Aims and Scope". *)
Definition two_headings : string :=
  "Scope of this periodical: original articles in all areas of pure mathematics. Aims and Scope The journal publishes surveys and research papers on number theory and geometry.".


(** A category entry with a quartile group that is not at its end. *)
Definition quartile_inside : string :=
  "Environmental Science (Q2) (miscellaneous)".

(** Two journals of the cleaned data, the second without a rank. *)
Definition ranked_journal : create_database.dict :=
  [ ("source_id", create_database.V (PStr "21100200805"));
    ("title", create_database.V (PStr "Analysis and Applications"));
    ("rank", create_database.V (PInt 1)) ].

Definition second_ranked : create_database.dict :=
  [ ("source_id", create_database.V (PStr "21100200807"));
    ("title", create_database.V (PStr "Journal of Topology and Analysis"));
    ("rank", create_database.V (PInt 2)) ].

Definition unranked_journal : create_database.dict :=
  [ ("source_id", create_database.V (PStr "21100200806"));
    ("title", create_database.V (PStr "Bulletin of Mathematical Sciences")) ].

(** The metrics columns of a journal whose stored [sjr] and
    [citations_per_doc] are the number 0.00. *)
Definition zero_metrics_row : export_db_to_json.metrics_columns :=
  {| export_db_to_json.row9 :=
       Some {| export_db_to_json.coeff := 0; export_db_to_json.exp := -2 |};
     export_db_to_json.row10 := Some "Q4";
     export_db_to_json.row11 := Some 0%Z;
     export_db_to_json.row12 := Some 12%Z;
     export_db_to_json.row13 := Some 40%Z;
     export_db_to_json.row14 :=
       Some {| export_db_to_json.coeff := 0; export_db_to_json.exp := -2 |};
     export_db_to_json.row15 := Some 0%Z |}.

(** A connection to an empty database. *)
Definition empty_db : pg.conn :=
  {| pg.committed := pg.empty_tables;
     pg.current := pg.empty_tables;
     pg.seqs := {| pg.journals_id_seq := 0; pg.categories_id_seq := 0;
                   pg.subject_areas_id_seq := 0 |};
     pg.aborted := false |}.

(** A schema that refuses nothing but a key. *)
Definition accepts_all (s : pg.stmt) : bool := false.

(** A schema whose metrics take the quartiles Q1 to Q4 only. *)
Definition quartile_checked (s : pg.stmt) : bool :=
  match s with
  | pg.UpsertMetrics _ m =>
      match pg.sjr_quartile m with
      | Some q =>
          negb (existsb (String.eqb q) ["Q1"; "Q2"; "Q3"; "Q4"])
      | None => false
      end
  | _ => false
  end.

(** A journal of the ASM input, with an SJR of 2.5. *)
Definition jb_2024 : import_asm_journals.journal_json :=
  {| import_asm_journals.source_id := Some "20062";
     import_asm_journals.title := Some "Journal of Bacteriology";
     import_asm_journals.country := Some "United States";
     import_asm_journals.open_access := Some false;
     import_asm_journals.coverage := Some "1916-2025";
     import_asm_journals.rank := PInt 3180;
     import_asm_journals.scope := Some "The journal publishes research on bacteria.";
     import_asm_journals.sjr := PStr "2.5";
     import_asm_journals.sjr_quartile := Some "Q1";
     import_asm_journals.h_index := PInt 254;
     import_asm_journals.total_docs_2024 := PInt 310;
     import_asm_journals.total_docs_3years := PInt 1020;
     import_asm_journals.citations_per_doc := PStr "3.1";
     import_asm_journals.total_citations_3years := PInt 3200;
     import_asm_journals.issn := Some "00219193, 10985530";
     import_asm_journals.categories :=
       Some "Microbiology (Q1); Molecular Biology (Q2)";
     import_asm_journals.areas :=
       Some "Immunology and Microbiology; Biochemistry, Genetics and Molecular Biology" |}.

(** The same journal in a later file, its SJR and quartile unknown. *)
Definition jb_later : import_asm_journals.journal_json :=
  {| import_asm_journals.source_id := Some "20062";
     import_asm_journals.title := Some "Journal of Bacteriology";
     import_asm_journals.country := Some "United States";
     import_asm_journals.open_access := Some false;
     import_asm_journals.coverage := Some "1916-2025";
     import_asm_journals.rank := PInt 3180;
     import_asm_journals.scope := None;
     import_asm_journals.sjr := PNone;
     import_asm_journals.sjr_quartile := None;
     import_asm_journals.h_index := PInt 255;
     import_asm_journals.total_docs_2024 := PInt 310;
     import_asm_journals.total_docs_3years := PInt 1020;
     import_asm_journals.citations_per_doc := PStr "3.1";
     import_asm_journals.total_citations_3years := PInt 3200;
     import_asm_journals.issn := Some "00219193, 10985530";
     import_asm_journals.categories :=
       Some "Microbiology (Q1); Molecular Biology (Q2)";
     import_asm_journals.areas :=
       Some "Immunology and Microbiology; Biochemistry, Genetics and Molecular Biology" |}.

(** Another journal, with a quartile the checked schema refuses. *)
Definition mbio_bad_quartile : import_asm_journals.journal_json :=
  {| import_asm_journals.source_id := Some "19700175176";
     import_asm_journals.title := Some "mBio";
     import_asm_journals.country := Some "United States";
     import_asm_journals.open_access := Some true;
     import_asm_journals.coverage := Some "2010-2025";
     import_asm_journals.rank := PInt 1200;
     import_asm_journals.scope := Some "mBio publishes research in microbiology.";
     import_asm_journals.sjr := PStr "2.0";
     import_asm_journals.sjr_quartile := Some "-";
     import_asm_journals.h_index := PInt 180;
     import_asm_journals.total_docs_2024 := PInt 500;
     import_asm_journals.total_docs_3years := PInt 1500;
     import_asm_journals.citations_per_doc := PStr "5.5";
     import_asm_journals.total_citations_3years := PInt 9000;
     import_asm_journals.issn := Some "21507511";
     import_asm_journals.categories := Some "Microbiology (Q1)";
     import_asm_journals.areas := Some "Immunology and Microbiology" |}.

(** What the scraper fetched for the same journal: first an SJR of 2.5,
    then a page on which it found none. *)
Definition scraped_2024 : scrape_bmj_journals.details :=
  {| scrape_bmj_journals.source_id := "51748";
     scrape_bmj_journals.title := "BMJ";
     scrape_bmj_journals.publisher := "BMJ Publishing Group";
     scrape_bmj_journals.scope := None;
     scrape_bmj_journals.sjr := Some (FNum false 25 (-1));
     scrape_bmj_journals.sjr_quartile := Some "Q1";
     scrape_bmj_journals.h_index := Some 500%Z;
     scrape_bmj_journals.country := Some "United Kingdom";
     scrape_bmj_journals.open_access := false |}.

Definition scraped_later : scrape_bmj_journals.details :=
  {| scrape_bmj_journals.source_id := "51748";
     scrape_bmj_journals.title := "BMJ";
     scrape_bmj_journals.publisher := "BMJ Publishing Group";
     scrape_bmj_journals.scope := None;
     scrape_bmj_journals.sjr := None;
     scrape_bmj_journals.sjr_quartile := None;
     scrape_bmj_journals.h_index := Some 501%Z;
     scrape_bmj_journals.country := Some "United Kingdom";
     scrape_bmj_journals.open_access := false |}.

(** The times of two runs of the scraper, in seconds since 1970. *)
Definition first_run : Z := 1730000000.
Definition second_run : Z := 1730086400.

Definition bmj_values : pg.journal_values :=
  {| pg.title := Some "BMJ"; pg.publisher := Some "BMJ Publishing Group";
     pg.country := Some "United Kingdom"; pg.open_access := Some false;
     pg.coverage := None; pg.scimago_rank := Some 12%Z |}.

Definition gut_values : pg.journal_values :=
  {| pg.title := Some "Gut"; pg.publisher := Some "BMJ Publishing Group";
     pg.country := Some "United Kingdom"; pg.open_access := Some false;
     pg.coverage := None; pg.scimago_rank := Some 40%Z |}.

Definition some_metrics (quartile : string) : pg.metrics_values :=
  {| pg.sjr := Some (FNum false 25 (-1)); pg.sjr_quartile := Some quartile;
     pg.h_index := Some 500%Z; pg.total_docs_2024 := None;
     pg.total_docs_3years := None; pg.citations_per_doc := None;
     pg.total_citations_3years := None |}.

(** An export of two journals; the second category of the first one has
    no name. *)
Definition export_nameless_category : import_from_json.export :=
  {| import_from_json.subject_areas := [(1%Z, "Medicine")];
     import_from_json.all_categories := [(1%Z, "Medicine (miscellaneous)")];
     import_from_json.journals :=
       [ {| import_from_json.id := 1; import_from_json.source_id := "51748";
            import_from_json.vals := bmj_values;
            import_from_json.scope_text := Some "The BMJ publishes research.";
            import_from_json.metrics := some_metrics "Q1";
            import_from_json.issns := ["09598146"];
            import_from_json.categories :=
              [(Some "Medicine (miscellaneous)", Some "Q1"); (None, Some "Q2")];
            import_from_json.areas := ["Medicine"] |};
         {| import_from_json.id := 2; import_from_json.source_id := "16637";
            import_from_json.vals := gut_values;
            import_from_json.scope_text := None;
            import_from_json.metrics := some_metrics "Q1";
            import_from_json.issns := ["00175749"];
            import_from_json.categories :=
              [(Some "Medicine (miscellaneous)", Some "Q1")];
            import_from_json.areas := ["Medicine"] |} ] |}.

(** An export of two journals; the quartile of the first one is one the
    checked schema refuses. *)
Definition export_bad_quartile : import_from_json.export :=
  {| import_from_json.subject_areas := [(1%Z, "Medicine")];
     import_from_json.all_categories := [(1%Z, "Medicine (miscellaneous)")];
     import_from_json.journals :=
       [ {| import_from_json.id := 1; import_from_json.source_id := "51748";
            import_from_json.vals := bmj_values;
            import_from_json.scope_text := Some "The BMJ publishes research.";
            import_from_json.metrics := some_metrics "-";
            import_from_json.issns := ["09598146"];
            import_from_json.categories :=
              [(Some "Medicine (miscellaneous)", Some "Q1")];
            import_from_json.areas := ["Medicine"] |};
         {| import_from_json.id := 2; import_from_json.source_id := "16637";
            import_from_json.vals := gut_values;
            import_from_json.scope_text := None;
            import_from_json.metrics := some_metrics "Q1";
            import_from_json.issns := ["00175749"];
            import_from_json.categories :=
              [(Some "Medicine (miscellaneous)", Some "Q1")];
            import_from_json.areas := ["Medicine"] |} ] |}.

(** What the scraper fetched for a journal the importer has written. *)
Definition scraped_jb : scrape_bmj_journals.details :=
  {| scrape_bmj_journals.source_id := "20062";
     scrape_bmj_journals.title := "Journal of Bacteriology";
     scrape_bmj_journals.publisher := "BMJ Publishing Group";
     scrape_bmj_journals.scope := None;
     scrape_bmj_journals.sjr := None;
     scrape_bmj_journals.sjr_quartile := None;
     scrape_bmj_journals.h_index := Some 256%Z;
     scrape_bmj_journals.country := Some "United States";
     scrape_bmj_journals.open_access := false |}.
End samples.

(** * Properties *)

(** Splits a conjunction into its parts, and nothing else. *)
Ltac split_all := repeat match goal with |- _ /\ _ => split end.

(** ** The scope extractor *)

Section ScopeExtractor.
Import samples.
Import Py clean_scope_data.

Lemma try_markers_content (markers : list string) (raw t : string) :
  try_markers markers raw = Some t ->
  exists marker, In marker markers /\ marker_content raw marker = Some t.
Proof.
  induction markers as [|m rest IH]; simpl; [discriminate|].
  destruct (marker_content raw m) as [t'|] eqn:E.
  - intros [= <-]. exists m. auto.
  - intros H. destruct (IH H) as (m' & Hin & Hm'). exists m'. auto.
Qed.

Lemma marker_content_spec (raw marker t : string) :
  marker_content raw marker = Some t <->
  exists idx, find marker raw = Some idx
              /\ t = text_after raw marker idx
              /\ (50 < String.length t)%nat.
Proof.
  unfold marker_content. split.
  - destruct (find marker raw) as [idx|]; [|discriminate].
    destruct (Nat.ltb_spec 50 (String.length (text_after raw marker idx)));
      [|discriminate].
    intros [= <-]. exists idx. auto.
  - intros (idx & -> & -> & Hlen).
    apply Nat.ltb_lt in Hlen. now rewrite Hlen.
Qed.

Lemma extract_empty (title : string) : extract_scope_description "" title = "".
Proof. reflexivity. Qed.

(** C2, as stated, fails: on [two_headings] the marker
    "Aims and Scope" has usable content, and the result is the content of
    the marker "Scope", another text. *)
Lemma C2_aims_first_counterexample :
  marker_content two_headings "Aims and Scope"
  = Some "The journal publishes surveys and research papers on number theory and geometry."
  /\ extract_scope_description two_headings ""
     = "of this periodical: original articles in all areas of pure mathematics. Aims and Scope The journal publishes surveys and research papers on number theory and geometry."
  /\ marker_content two_headings "Aims and Scope"
     <> Some (extract_scope_description two_headings "").
Proof.
  split; [vm_compute; reflexivity|].
  split; [vm_compute; reflexivity|].
  vm_compute. discriminate.
Qed.

(** C2, amended: the markers are tried in the order "Scope",
    "Aims and Scope", "About"; for every text the result is the content of
    the first of them, in that order, that has usable content, wherever the
    markers stand in the text, and the sentence fallback when none has. *)
Theorem C2_marker_priority (raw title : string) :
  scope_markers = ["Scope"; "Aims and Scope"; "About"]
  /\ extract_scope_description raw title
     = match marker_content raw "Scope" with
       | Some text => text
       | None =>
           match marker_content raw "Aims and Scope" with
           | Some text => text
           | None =>
               match marker_content raw "About" with
               | Some text => text
               | None => fallback raw
               end
           end
       end.
Proof.
  split; [reflexivity|].
  destruct raw as [|c raw'].
  - reflexivity.
  - unfold extract_scope_description, scope_markers, try_markers.
    destruct (marker_content _ "Scope"); [reflexivity|].
    destruct (marker_content _ "Aims and Scope"); [reflexivity|].
    destruct (marker_content _ "About"); reflexivity.
Qed.

(** C3, as stated, fails: the text after the marker has 37
    characters, and the result is not that text. *)
Lemma C3_example_counterexample :
  extract_scope_description scope_example ""
  <> "This journal publishes research on X.".
Proof. vm_compute. discriminate. Qed.

(** C3, amended: on the example the marker is found and the text after it,
    cut at "Join the conversation" and with its whitespace collapsed, is
    "This journal publishes research on X."; its 37 characters do not
    exceed 50, so no marker is accepted and the sentence fallback returns
    "...Scope This journal publishes research on X.".  For every text, a
    marker result is accepted exactly when its cleaned length exceeds 50
    characters. *)
Theorem C3_example_and_threshold :
  (find "Scope" scope_example = Some 3
   /\ text_after scope_example "Scope" 3
      = "This journal publishes research on X."
   /\ String.length (text_after scope_example "Scope" 3) = 37
   /\ try_markers scope_markers scope_example = None
   /\ extract_scope_description scope_example ""
      = "...Scope This journal publishes research on X.")
  /\ (forall raw marker idx,
        find marker raw = Some idx ->
        marker_content raw marker
        = if (50 <? String.length (text_after raw marker idx))%nat
          then Some (text_after raw marker idx) else None)
  /\ (forall raw title text,
        try_markers scope_markers raw = Some text ->
        extract_scope_description raw title = text
        /\ (50 < String.length text)%nat).
Proof.
  split; [split_all; vm_compute; reflexivity|].
  split.
  - intros raw marker idx H. unfold marker_content. now rewrite H.
  - intros raw title text H. split.
    + destruct raw; [discriminate|].
      unfold extract_scope_description. now rewrite H.
    + apply try_markers_content in H. destruct H as (m & _ & H).
      apply marker_content_spec in H. destruct H as (idx & _ & _ & H). exact H.
Qed.

End ScopeExtractor.

(** ** The field parsers *)

Section FieldParsers.
Import Py.

Lemma all_chars_app (p : ascii -> bool) (s t : string) :
  all_chars p (s ++ t) = all_chars p s && all_chars p t.
Proof.
  induction s as [|c s IH]; simpl; [reflexivity|].
  now rewrite IH, andb_assoc.
Qed.

Lemma all_chars_weaken (p q : ascii -> bool) (s : string) :
  (forall c, p c = true -> q c = true) ->
  all_chars p s = true -> all_chars q s = true.
Proof.
  intros Hpq. induction s as [|c s IH]; simpl; [reflexivity|].
  intros H. apply andb_true_iff in H. destruct H as [Hc Hs].
  now rewrite (Hpq _ Hc), IH.
Qed.

Lemma number_char_cases (c : ascii) :
  number_char c = true ->
  (N_of_ascii c <? 127)%N = true
  /\ is_c_space c = false
  /\ Ascii.eqb c "_" = false.
Proof.
  unfold number_char, is_digit, is_c_space. intros H.
  apply orb_true_iff in H. destruct H as [H|H].
  - apply orb_true_iff in H. destruct H as [H|H].
    + apply andb_true_iff in H. destruct H as [H1 H2].
      apply N.leb_le in H1. apply N.leb_le in H2.
      repeat split.
      * apply N.ltb_lt. lia.
      * apply orb_false_iff. split.
        -- apply andb_false_iff. right. apply N.leb_gt. lia.
        -- apply N.eqb_neq. lia.
      * apply Ascii.eqb_neq. intros ->. vm_compute in H1. now apply H1.
    + apply Ascii.eqb_eq in H. subst c. now vm_compute.
  - apply Ascii.eqb_eq in H. subst c. now vm_compute.
Qed.

Lemma to_ascii_number_plain (s : string) :
  all_chars number_char s = true -> to_ascii_number s = s.
Proof.
  induction s as [|c s IH]; simpl; [reflexivity|].
  intros H. apply andb_true_iff in H. destruct H as [Hc Hs].
  destruct (number_char_cases _ Hc) as (-> & _ & _). now rewrite IH.
Qed.

Lemma drop_underscores_plain (prev : ascii) (s : string) :
  Ascii.eqb prev "_" = false ->
  all_chars number_char s = true -> drop_underscores prev s = Some s.
Proof.
  revert prev. induction s as [|c s IH]; simpl; intros prev Hprev H.
  - now rewrite Hprev.
  - apply andb_true_iff in H. destruct H as [Hc Hs].
    destruct (number_char_cases _ Hc) as (_ & _ & Hu).
    rewrite Hu, Hprev. simpl. now rewrite (IH c Hu Hs).
Qed.

Lemma c_lstrip_plain (s : string) :
  all_chars number_char s = true -> c_lstrip s = s.
Proof.
  destruct s as [|c s]; simpl; [reflexivity|].
  intros H. apply andb_true_iff in H. destruct H as [Hc _].
  destruct (number_char_cases _ Hc) as (_ & -> & _). reflexivity.
Qed.

Lemma c_rstrip_plain (s : string) :
  all_chars number_char s = true -> c_rstrip s = s.
Proof.
  induction s as [|c s IH]; simpl; [reflexivity|].
  intros H. apply andb_true_iff in H. destruct H as [Hc Hs].
  rewrite (IH Hs). destruct (number_char_cases _ Hc) as (_ & -> & _).
  now destruct s.
Qed.

Lemma take_digits_all (d : string) :
  all_chars is_digit d = true -> take_digits d = (d, "").
Proof.
  induction d as [|c d IH]; simpl; [reflexivity|].
  intros H. apply andb_true_iff in H. destruct H as [-> Hs].
  now rewrite (IH Hs).
Qed.

Lemma take_digits_stop (d : string) (c : ascii) (rest : string) :
  all_chars is_digit d = true -> is_digit c = false ->
  take_digits (d ++ String c rest) = (d, String c rest).
Proof.
  intros Hd Hc. induction d as [|x d IH]; simpl.
  - now rewrite Hc.
  - simpl in Hd. apply andb_true_iff in Hd. destruct Hd as [-> Hd].
    now rewrite (IH Hd).
Qed.

Lemma is_digits_inv (d : string) :
  is_digits d = true ->
  all_chars is_digit d = true
  /\ exists c d', d = String c d' /\ is_digit c = true.
Proof.
  unfold is_digits. destruct d as [|c d]; simpl; [discriminate|].
  intros H. apply andb_true_iff in H. destruct H as [Hc Hd].
  split; [now rewrite Hc, Hd|]. now exists c, d.
Qed.

Lemma digit_no_sign (c : ascii) (s : string) :
  is_digit c = true -> take_sign (String c s) = (false, String c s).
Proof.
  intros H. unfold take_sign.
  destruct (Ascii.eqb_spec c "-") as [->|]; [discriminate H|].
  destruct (Ascii.eqb_spec c "+") as [->|]; [discriminate H|].
  destruct c as [[] [] [] [] [] [] [] []]; try reflexivity; congruence.
Qed.

Lemma separated_plain (ip fp : string) (sep : ascii) :
  all_chars is_digit ip = true -> all_chars is_digit fp = true ->
  number_char sep = true ->
  all_chars number_char (ip ++ String sep fp) = true.
Proof.
  intros Hi Hf Hs. rewrite all_chars_app. simpl. rewrite Hs.
  assert (W : forall c, is_digit c = true -> number_char c = true)
    by (intros c Hc; unfold number_char; now rewrite Hc).
  now rewrite (all_chars_weaken _ _ ip W Hi), (all_chars_weaken _ _ fp W Hf).
Qed.

(** [float] on digits, a separator, digits: the text reaches the number
    parser as it is. *)
Lemma float_of_separated (ip fp : string) (sep : ascii) :
  is_digits ip = true -> is_digits fp = true -> number_char sep = true ->
  float_of_str (ip ++ String sep fp)
  = match parse_decimal false (ip ++ String sep fp) with
    | Some x => Some x
    | None => parse_inf_nan false (ip ++ String sep fp)
    end.
Proof.
  intros Hi Hf Hs.
  destruct (is_digits_inv _ Hi) as (Hia & c & ip' & -> & Hc).
  destruct (is_digits_inv _ Hf) as (Hfa & _).
  pose proof (separated_plain _ _ _ Hia Hfa Hs) as P.
  unfold float_of_str.
  rewrite (to_ascii_number_plain _ P).
  rewrite (drop_underscores_plain "000" _ eq_refl P).
  rewrite (c_lstrip_plain _ P), (c_rstrip_plain _ P).
  simpl append. now rewrite (digit_no_sign _ _ Hc).
Qed.

Lemma float_of_point (ip fp : string) :
  is_digits ip = true -> is_digits fp = true ->
  float_of_str (ip ++ "." ++ fp)
  = Some (FNum false (digits_value 0 (ip ++ fp))
            (- Z.of_nat (String.length fp))).
Proof.
  intros Hi Hf. simpl append.
  rewrite (float_of_separated ip fp "." Hi Hf eq_refl).
  destruct (is_digits_inv _ Hi) as (Hia & c & ip' & E & Hc).
  destruct (is_digits_inv _ Hf) as (Hfa & _).
  unfold parse_decimal.
  rewrite (take_digits_stop ip "." fp Hia eq_refl).
  rewrite (take_digits_all fp Hfa).
  subst ip. simpl append. simpl take_exponent. cbv iota. reflexivity.
Qed.

Lemma digit_not_letter (c x : ascii) (s t : string) :
  is_digit c = true -> is_digit x = false ->
  String.eqb (lower (String c s)) (String x t) = false.
Proof.
  intros Hc Hx.
  apply String.eqb_neq. simpl lower. intros E. injection E as E1 E2.
  assert (L : lower_char c = c).
  { unfold lower_char. unfold is_digit in Hc.
    apply andb_true_iff in Hc. destruct Hc as [H1 H2].
    apply N.leb_le in H1. apply N.leb_le in H2.
    replace ((65 <=? N_of_ascii c) && (N_of_ascii c <=? 90))%N with false
      by (symmetry; apply andb_false_iff; left; apply N.leb_gt; lia).
    replace ((192 <=? N_of_ascii c))%N with false
      by (symmetry; apply N.leb_gt; lia).
    reflexivity. }
  rewrite L in E1. subst x. congruence.
Qed.

Lemma float_of_comma (ip fp : string) :
  is_digits ip = true -> is_digits fp = true ->
  float_of_str (ip ++ "," ++ fp) = None.
Proof.
  intros Hi Hf. simpl append.
  rewrite (float_of_separated ip fp "," Hi Hf eq_refl).
  destruct (is_digits_inv _ Hi) as (Hia & c & ip' & E & Hc).
  unfold parse_decimal.
  rewrite (take_digits_stop ip "," fp Hia eq_refl).
  assert (N : (ip ++ "")%string = ip)
    by (clear; induction ip; simpl; congruence).
  rewrite N. subst ip. simpl take_exponent. cbv iota.
  unfold parse_inf_nan. simpl append.
  rewrite !(digit_not_letter c _ _ _ Hc) by reflexivity.
  reflexivity.
Qed.

Lemma replace_comma_digits (d : string) :
  all_chars is_digit d = true -> replace_comma d = d.
Proof.
  induction d as [|c d IH]; simpl; [reflexivity|].
  intros H. apply andb_true_iff in H. destruct H as [Hc Hd].
  rewrite (IH Hd).
  destruct (Ascii.eqb_spec c ",") as [->|]; [discriminate Hc|reflexivity].
Qed.

Lemma replace_comma_separated (ip fp : string) :
  is_digits ip = true -> is_digits fp = true ->
  replace_comma (ip ++ "," ++ fp) = (ip ++ "." ++ fp)%string.
Proof.
  intros Hi Hf.
  destruct (is_digits_inv _ Hi) as (Hia & _).
  destruct (is_digits_inv _ Hf) as (Hfa & _).
  clear Hi Hf. induction ip as [|c ip IH]; simpl.
  - now rewrite (replace_comma_digits fp Hfa).
  - simpl in Hia. apply andb_true_iff in Hia. destruct Hia as [Hc Hia].
    simpl in IH. rewrite (IH Hia).
    destruct (Ascii.eqb_spec c ",") as [->|]; [discriminate Hc|reflexivity].
Qed.

(** C8, as stated, fails: a decimal written with a comma is not
    parsed; [safe_float] returns [None] for it. *)
Lemma C8_comma_counterexample :
  import_asm_journals.safe_float (PStr "1,5") = Ok None
  /\ import_asm_journals.safe_float (PStr "1.5")
     = Ok (Some (FNum false 15 (-1)))
  /\ ~ (exists x, import_asm_journals.safe_float (PStr "1,5") = Ok (Some x)).
Proof.
  split; [vm_compute; reflexivity|].
  split; [vm_compute; reflexivity|].
  intros [x H]. vm_compute in H. discriminate H.
Qed.

(** C8, amended: [safe_float] never raises on a string; it returns the
    parsed number for a decimal string written with a point, and [None]
    for the empty string and for a string [float] does not parse.  A
    decimal written with a comma is such a string.  The comma is taken
    care of before: [parse_csv] replaces it by a point, and what it writes
    parses.  On every string [safe_float] returns what [float] reads, and
    on every non-empty string the conversion in [clean_journal_data]
    gives the same as [safe_float]: the same number, or [None] for the
    same strings.  It leaves the empty string as it is. *)
Theorem C8_safe_float_total_point_only :
  (forall s, exists r, import_asm_journals.safe_float (PStr s) = Ok r)
  /\ import_asm_journals.safe_float (PStr "") = Ok None
  /\ (forall s, float_of_str s = None ->
        import_asm_journals.safe_float (PStr s) = Ok None)
  /\ (forall ip fp, is_digits ip = true -> is_digits fp = true ->
        import_asm_journals.safe_float (PStr (ip ++ "." ++ fp))
        = Ok (Some (FNum false (digits_value 0 (ip ++ fp))
                      (- Z.of_nat (String.length fp))))
        /\ import_asm_journals.safe_float (PStr (ip ++ "," ++ fp)) = Ok None
        /\ import_asm_journals.safe_float
             (PStr (scrape_bmj_scopes.decimal_field (ip ++ "," ++ fp)))
           = import_asm_journals.safe_float (PStr (ip ++ "." ++ fp))
        /\ clean_scope_data.clean_numeric_field (PStr (ip ++ "," ++ fp))
           = clean_scope_data.Float None)
  /\ clean_scope_data.clean_numeric_field (PStr "")
     = clean_scope_data.Unchanged (PStr "")
  /\ (forall s, import_asm_journals.safe_float (PStr s) = Ok (float_of_str s))
  /\ (forall s r, s <> "" ->
        (clean_scope_data.clean_numeric_field (PStr s)
         = clean_scope_data.Float r
         <-> import_asm_journals.safe_float (PStr s) = Ok r)).
Proof.
  assert (F : forall s,
             import_asm_journals.safe_float (PStr s) = Ok (float_of_str s)).
  { intros [|c s]; [reflexivity|].
    unfold import_asm_journals.safe_float. simpl truthy. simpl negb.
    cbv iota. unfold float_. now destruct (float_of_str (String c s)). }
  split.
  { intros s. unfold import_asm_journals.safe_float.
    destruct (truthy (PStr s)); simpl; [|eauto].
    destruct (float_of_str s); eauto. }
  split; [reflexivity|].
  split.
  { intros s H. unfold import_asm_journals.safe_float.
    destruct (truthy (PStr s)); simpl; [|reflexivity]. now rewrite H. }
  split;
    [|split; [reflexivity|split; [exact F|]];
      intros [|c s] r Hs; [now elim Hs|]; rewrite F;
      unfold clean_scope_data.clean_numeric_field;
      split; intros [= <-]; reflexivity].
  intros ip fp Hi Hf.
  assert (T : forall sep, truthy (PStr (ip ++ String sep fp)) = true).
  { intros sep. destruct (is_digits_inv _ Hi) as (_ & c & ip' & -> & _).
    reflexivity. }
  unfold import_asm_journals.safe_float, scrape_bmj_scopes.decimal_field.
  rewrite (replace_comma_separated ip fp Hi Hf).
  simpl append. rewrite !T. simpl negb. cbv iota. unfold float_.
  pose proof (float_of_point ip fp Hi Hf) as P.
  pose proof (float_of_comma ip fp Hi Hf) as C.
  simpl append in P, C. rewrite P, C.
  repeat split.
  unfold clean_scope_data.clean_numeric_field.
  destruct (is_digits_inv _ Hi) as (_ & c & ip' & -> & _).
  simpl append. simpl append in C. now rewrite C.
Qed.

(** C9, at the failing input: [parse_csv] turns an empty count cell into 0,
    as it does a cell of 0, and [safe_int] turns the integer 0 into [None],
    as it does a missing value.  On strings [safe_int] keeps them
    apart: the empty string and a string [int] does not parse give [None],
    and the string of a zero gives 0. *)
Theorem C9_zero_and_absent_conflated :
  (scrape_bmj_scopes.count_field (Some (PStr "")) = Ok 0%Z
   /\ scrape_bmj_scopes.count_field (Some (PStr "0")) = Ok 0%Z
   /\ scrape_bmj_scopes.rank_field (Some (PStr "")) = Raise ValueError
   /\ scrape_bmj_scopes.count_field (Some (PStr "n/a")) = Raise ValueError)
  /\ (import_asm_journals.safe_int (PInt 0) = Ok None
      /\ import_asm_journals.safe_int PNone = Ok None)
  /\ (import_asm_journals.safe_int (PStr "") = Ok None
      /\ import_asm_journals.safe_int (PStr "0") = Ok (Some 0%Z)
      /\ forall s, int_of_str s = None ->
                   import_asm_journals.safe_int (PStr s) = Ok None).
Proof.
  split; [split_all; vm_compute; reflexivity|].
  split; [split; reflexivity|].
  split; [reflexivity|]. split; [vm_compute; reflexivity|].
  intros s H. unfold import_asm_journals.safe_int.
  destruct (truthy (PStr s)); simpl; [|reflexivity]. now rewrite H.
Qed.

(** C6, at the failing input: the pattern of [clean_journal_data] has no
    anchor, and takes a quartile group that is not at the end of the
    entry; the pattern of [parse_categories] takes none there.  Both parse
    "Applied Mathematics (Q1)" and "Ethics" alike. *)
Theorem C6_unanchored_in_clean_journal_data :
  clean_scope_data.parse_category_entry samples.quartile_inside
  = Some ("Environmental Science", Some "Q2")
  /\ import_asm_journals.parse_category_part samples.quartile_inside
     = (samples.quartile_inside, None)
  /\ clean_scope_data.parse_category_entry "Applied Mathematics (Q1)"
     = Some ("Applied Mathematics", Some "Q1")
  /\ clean_scope_data.parse_category_entry "Ethics" = Some ("Ethics", None)
  /\ import_asm_journals.parse_category_part "Applied Mathematics (Q1)"
     = ("Applied Mathematics", Some "Q1")
  /\ import_asm_journals.parse_category_part "Ethics" = ("Ethics", None).
Proof. split_all; vm_compute; reflexivity. Qed.

Lemma string_of_list_ascii_snoc (l : list ascii) (c : ascii) (s : string) :
  (string_of_list_ascii (l ++ [c]) ++ s)%string
  = (string_of_list_ascii l ++ String c s)%string.
Proof. induction l as [|x l IH]; simpl; [reflexivity|]. now rewrite IH. Qed.

Lemma append_assoc_str (a b c : string) :
  (a ++ (b ++ c))%string = ((a ++ b) ++ c)%string.
Proof. induction a as [|x a IH]; simpl; [reflexivity|]. now rewrite IH. Qed.

Lemma match_quartile_group_anchored (s q : string) :
  match_quartile_group true s = Some q ->
  In q ["Q1"; "Q2"; "Q3"; "Q4"]
  /\ (s = ("(" ++ q ++ ")")%string
      \/ s = ("(" ++ q ++ ")" ++ String "010" "")%string).
Proof.
  unfold match_quartile_group.
  destruct s as [|a [|b [|d [|e rest]]]]; try discriminate.
  destruct (Ascii.eqb_spec a "(") as [->|]; [|discriminate].
  destruct (Ascii.eqb_spec b "Q") as [->|]; [|discriminate].
  destruct ((49 <=? N_of_ascii d) && (N_of_ascii d <=? 52))%N eqn:D;
    [|discriminate].
  destruct (Ascii.eqb_spec e ")") as [->|]; [|discriminate].
  assert (Q : In (String "Q" (String d "")) ["Q1"; "Q2"; "Q3"; "Q4"]).
  { destruct d as [[] [] [] [] [] [] [] []]; try discriminate D; simpl; auto. }
  simpl.
  destruct (String.eqb_spec rest "") as [->|N1]; simpl.
  - intros [= <-]. split; [exact Q|now left].
  - destruct (String.eqb_spec rest (String "010" "")) as [->|N2];
      [|discriminate].
    intros [= <-]. split; [exact Q|now right].
Qed.

Lemma match_tail_anchored (s q : string) :
  match_tail true s = Some q ->
  In q ["Q1"; "Q2"; "Q3"; "Q4"]
  /\ exists ws,
       s = (ws ++ "(" ++ q ++ ")")%string
       \/ s = (ws ++ "(" ++ q ++ ")" ++ String "010" "")%string.
Proof.
  induction s as [|c s IH]; [discriminate|]. cbn [match_tail].
  destruct (isspace c).
  - intros H. destruct (IH H) as (Hq & ws & Hs). split; [exact Hq|].
    exists (String c ws). destruct Hs as [->| ->]; [now left|now right].
  - intros H. apply match_quartile_group_anchored in H.
    destruct H as (Hq & Hs). split; [exact Hq|]. now exists "".
Qed.

Lemma match_name_quartile_anchored (g1 : list ascii) (s name q : string) :
  match_name_quartile true g1 s = Some (name, q) ->
  In q ["Q1"; "Q2"; "Q3"; "Q4"]
  /\ exists pre,
       let whole := (string_of_list_ascii (rev g1) ++ s)%string in
       whole = (pre ++ "(" ++ q ++ ")")%string
       \/ whole = (pre ++ "(" ++ q ++ ")" ++ String "010" "")%string.
Proof.
  revert g1. induction s as [|c s IH]; intros g1; [discriminate|].
  cbn [match_name_quartile].
  destruct (match g1 with [] => None | _ :: _ => match_tail true (String c s) end)
    as [q'|] eqn:E.
  - intros [= <- <-]. destruct g1 as [|x g1]; [discriminate|].
    apply match_tail_anchored in E. destruct E as (Hq & ws & Hs).
    split; [exact Hq|].
    exists (string_of_list_ascii (rev (x :: g1)) ++ ws)%string.
    cbv zeta.
    destruct Hs as [Hs|Hs]; [left|right]; rewrite Hs;
      apply append_assoc_str.
  - destruct (Ascii.eqb c "010"); [discriminate|].
    intros H. destruct (IH _ H) as (Hq & pre & Hs). split; [exact Hq|].
    exists pre. simpl in Hs. rewrite string_of_list_ascii_snoc in Hs.
    exact Hs.
Qed.

(** The pattern of [parse_categories] is anchored: a quartile it takes is
    one of Q1 to Q4 and stands, in its parentheses, at the end of the
    entry (a last newline apart, which a stripped entry has not). *)
Lemma parse_category_part_anchored (part name q : string) :
  import_asm_journals.parse_category_part part = (name, Some q) ->
  In q ["Q1"; "Q2"; "Q3"; "Q4"]
  /\ exists pre,
       part = (pre ++ "(" ++ q ++ ")")%string
       \/ part = (pre ++ "(" ++ q ++ ")" ++ String "010" "")%string.
Proof.
  unfold import_asm_journals.parse_category_part.
  destruct (match_name_quartile true [] part) as [[n q']|] eqn:E;
    [|discriminate].
  intros [= _ <-]. exact (match_name_quartile_anchored [] part n q' E).
Qed.

End FieldParsers.

(** ** The exports *)

Section Exports.
Import Py.

Lemma py_lt_raises (a b : create_database.value) (e : exn) :
  create_database.py_lt a b = Raise e -> e = TypeError.
Proof.
  unfold create_database.py_lt.
  destruct a as [[| | | |]| | | |], b as [[| | | |]| | | |];
    cbn [create_database.key_number number_of]; congruence.
Qed.

Lemma py_lt_none_l (b : create_database.value) :
  create_database.py_lt (create_database.V PNone) b = Raise TypeError.
Proof. reflexivity. Qed.

Lemma py_lt_none_r (a : create_database.value) :
  create_database.py_lt a (create_database.V PNone) = Raise TypeError.
Proof. now destruct a as [[| | | |]| | | |]. Qed.

Lemma insert_sorted_raises k x l (e : exn) :
  create_database.insert_sorted k x l = Raise e -> e = TypeError.
Proof.
  induction l as [|[k' y] l IH]; simpl; [discriminate|].
  destruct (create_database.py_lt k' k) as [[|]|e'] eqn:E.
  - destruct (create_database.insert_sorted k x l); [discriminate|].
    intros [= <-]. now apply IH.
  - discriminate.
  - intros [= <-]. now apply py_lt_raises in E.
Qed.

Lemma insert_sorted_length k x l r :
  create_database.insert_sorted k x l = Ok r -> length r = S (length l).
Proof.
  revert r. induction l as [|[k' y] l IH]; simpl; intros r.
  - now intros [= <-].
  - destruct (create_database.py_lt k' k) as [[|]|e']; [| |discriminate].
    + destruct (create_database.insert_sorted k x l) as [r'|];
        [|discriminate].
      intros [= <-]. simpl. now rewrite (IH r' eq_refl).
    + now intros [= <-].
Qed.

Lemma sort_by_raises key l (e : exn) :
  create_database.sort_by key l = Raise e -> e = TypeError.
Proof.
  induction l as [|x l IH]; simpl; [discriminate|].
  destruct (create_database.sort_by key l) as [sorted|e'].
  - apply insert_sorted_raises.
  - intros [= <-]. now apply IH.
Qed.

Lemma sort_by_length key l r :
  create_database.sort_by key l = Ok r -> length r = length l.
Proof.
  revert r. induction l as [|x l IH]; simpl; intros r.
  - now intros [= <-].
  - destruct (create_database.sort_by key l) as [sorted|]; [|discriminate].
    intros H. apply insert_sorted_length in H. now rewrite H, (IH sorted).
Qed.

(** With two entries or more, one key that is [None] ends the sort. *)
Lemma sort_by_none key (l : list create_database.dict) :
  (2 <= length l)%nat ->
  (exists x, In x l /\ key x = create_database.V PNone) ->
  create_database.sort_by key l = Raise TypeError.
Proof.
  induction l as [|x rest IH]; simpl; [lia|].
  intros Hlen (y & [<-|Hin] & Hy).
  - destruct (create_database.sort_by key rest) as [sorted|e] eqn:E.
    + pose proof (sort_by_length _ _ _ E) as L.
      destruct sorted as [|[k' z] sorted]; [simpl in L; lia|].
      simpl. now rewrite Hy, py_lt_none_r.
    + now rewrite (sort_by_raises _ _ _ E).
  - destruct rest as [|z [|z' rest']]; [destruct Hin| |].
    + destruct Hin as [<-|[]]. simpl. now rewrite Hy.
    + rewrite IH; [reflexivity|simpl; lia|]. exists y. auto.
Qed.

(** The key [main] sorts an entry by is the rank of its journal: the
    entry has the key ["rank"], so the default of the lookup is not used. *)
Lemma sort_key_is_rank (journal : create_database.dict) :
  create_database.get_default (create_database.create_database_entry journal)
    "rank" (create_database.V (PInt 99999))
  = create_database.get journal "rank".
Proof. reflexivity. Qed.

(** C7, at the failing inputs: with two journals or more, one of them
    without a rank (the key is missing, or [null]), [main] ends with a
    [TypeError] and produces no array. *)
Theorem C7_missing_rank_raises (journals : list create_database.dict) :
  (2 <= length journals)%nat ->
  (exists j, In j journals
             /\ create_database.get j "rank" = create_database.V PNone) ->
  create_database.main journals = Raise TypeError.
Proof.
  intros Hlen (j & Hin & Hj). unfold create_database.main.
  rewrite sort_by_none; [reflexivity|now rewrite length_map|].
  exists (create_database.create_database_entry j). split.
  - now apply in_map.
  - now rewrite sort_key_is_rank.
Qed.

Lemma C7_missing_rank_raises_witness :
  create_database.main [samples.ranked_journal; samples.unranked_journal]
  = Raise TypeError.
Proof.
  apply (C7_missing_rank_raises
           [samples.ranked_journal; samples.unranked_journal]).
  - simpl. lia.
  - exists samples.unranked_journal. split; [simpl; auto|reflexivity].
Defined.

(** C10: a stored [sjr] or [citations_per_doc] that is zero is exported as
    [None], and the exported metrics are those of the same row with
    [NULL] in that column. *)
Theorem C10_zero_metric_exported_as_null
    (row : export_db_to_json.metrics_columns) (d : export_db_to_json.decimal) :
  export_db_to_json.coeff d = 0%Z ->
  (export_db_to_json.row9 row = Some d ->
   export_db_to_json.sjr (export_db_to_json.export_metrics row) = None
   /\ export_db_to_json.export_metrics row
      = export_db_to_json.export_metrics (export_db_to_json.with_sjr None row))
  /\ (export_db_to_json.row14 row = Some d ->
      export_db_to_json.citations_per_doc (export_db_to_json.export_metrics row)
      = None
      /\ export_db_to_json.export_metrics row
         = export_db_to_json.export_metrics
             (export_db_to_json.with_citations_per_doc None row)).
Proof.
  intros Hd.
  assert (F : export_db_to_json.float_if (Some d) = None).
  { unfold export_db_to_json.float_if, export_db_to_json.decimal_truthy.
    now rewrite Hd. }
  split; intros H; unfold export_db_to_json.export_metrics; simpl;
    rewrite H, F; split; reflexivity.
Qed.

Lemma C10_zero_metric_exported_as_null_witness :
  export_db_to_json.sjr (export_db_to_json.export_metrics samples.zero_metrics_row)
  = None
  /\ export_db_to_json.citations_per_doc
       (export_db_to_json.export_metrics samples.zero_metrics_row) = None
  /\ export_db_to_json.h_index
       (export_db_to_json.export_metrics samples.zero_metrics_row) = Some 0%Z.
Proof.
  pose proof (C10_zero_metric_exported_as_null samples.zero_metrics_row
                {| export_db_to_json.coeff := 0; export_db_to_json.exp := -2 |}
                eq_refl) as [H9 H14].
  split; [exact (proj1 (H9 eq_refl))|].
  split; [exact (proj1 (H14 eq_refl))|reflexivity].
Defined.

End Exports.

(** ** Rows by key *)

Section TableFacts.
Import pg.
Context {R K : Type} (key : R -> K) (eqb : K -> K -> bool).
Hypothesis eqb_eq : forall a b, eqb a b = true <-> a = b.

Lemma eqb_refl_key (k : K) : eqb k k = true.
Proof. now apply eqb_eq. Qed.

Lemma select_some (k : K) (t : list R) (r : R) :
  select key eqb k t = Some r -> In r t /\ key r = k.
Proof.
  unfold select. intros H. apply find_some in H.
  destruct H as [Hin Hk]. split; [exact Hin|now apply eqb_eq].
Qed.

Lemma select_none (k : K) (t : list R) (r : R) :
  select key eqb k t = None -> In r t -> eqb (key r) k = false.
Proof. unfold select. intros H Hin. exact (find_none _ _ H r Hin). Qed.

Lemma select_in (k : K) (t : list R) (r : R) :
  In r t -> key r = k -> select key eqb k t <> None.
Proof.
  intros Hin Hk H. pose proof (select_none _ _ _ H Hin) as E.
  rewrite Hk, eqb_refl_key in E. discriminate.
Qed.

Lemma select_app (k : K) (t u : list R) :
  select key eqb k (t ++ u)
  = match select key eqb k t with
    | Some r => Some r
    | None => select key eqb k u
    end.
Proof.
  unfold select. induction t as [|r t IH]; simpl; [reflexivity|].
  now destruct (eqb (key r) k).
Qed.

Lemma update_none (k : K) (f : R -> R) (t : list R) :
  select key eqb k t = None -> update key eqb k f t = t.
Proof.
  unfold select, update. induction t as [|r t IH]; simpl; [reflexivity|].
  destruct (eqb (key r) k); [discriminate|].
  intros H. now rewrite IH.
Qed.

Lemma update_keys (k : K) (f : R -> R) (t : list R) :
  (forall r, key r = k -> key (f r) = k) ->
  map key (update key eqb k f t) = map key t.
Proof.
  intros Hf. unfold update. rewrite map_map. apply map_ext.
  intros r. destruct (eqb (key r) k) eqn:E; [|reflexivity].
  apply eqb_eq in E. now rewrite Hf, E.
Qed.

Lemma update_update (k : K) (f : R -> R) (t : list R) :
  (forall r, key r = k -> key (f r) = k) ->
  (forall r, key r = k -> f (f r) = f r) ->
  update key eqb k f (update key eqb k f t) = update key eqb k f t.
Proof.
  intros Hk Hf. unfold update. rewrite map_map. apply map_ext.
  intros r. destruct (eqb (key r) k) eqn:E; [|now rewrite E].
  apply eqb_eq in E. now rewrite (Hk r E), eqb_refl_key, Hf.
Qed.

Lemma select_update (k : K) (f : R -> R) (t : list R) :
  (forall r, key r = k -> key (f r) = k) ->
  select key eqb k (update key eqb k f t)
  = option_map f (select key eqb k t).
Proof.
  intros Hk. unfold select, update.
  induction t as [|r t IH]; simpl; [reflexivity|].
  destruct (eqb (key r) k) eqn:E.
  - apply eqb_eq in E. now rewrite (Hk r E), eqb_refl_key.
  - now rewrite E.
Qed.

(** A key that is in the table stays in it through an update. *)
Lemma select_update_present (k k' : K) (f : R -> R) (t : list R) :
  (forall r, key r = k' -> key (f r) = k') ->
  select key eqb k t <> None ->
  select key eqb k (update key eqb k' f t) <> None.
Proof.
  intros Hk H. destruct (select key eqb k t) as [r|] eqn:E; [|contradiction].
  apply select_some in E. destruct E as [Hin Hr].
  apply (select_in k _ (if eqb (key r) k' then f r else r)).
  - unfold update. apply in_map_iff. now exists r.
  - destruct (eqb (key r) k') eqn:E; [|exact Hr].
    apply eqb_eq in E. now rewrite (Hk r E), <- E.
Qed.

(** An upsert ends with the key in the table. *)
Lemma select_insert_or_update (r : R) (f : R -> R) (t : list R) :
  (forall x, key x = key r -> key (f x) = key r) ->
  select key eqb (key r) (insert_or_update key eqb r f t) <> None.
Proof.
  intros Hk. unfold insert_or_update.
  destruct (select key eqb (key r) t) as [x|] eqn:E.
  - rewrite select_update, E by exact Hk. discriminate.
  - rewrite select_app, E. simpl. now rewrite eqb_refl_key.
Qed.

(** An upsert of the same key and values once more changes nothing. *)
Lemma insert_or_update_twice (r r' : R) (f : R -> R) (t : list R) :
  key r' = key r ->
  (forall x, key x = key r -> key (f x) = key r) ->
  (forall x, key x = key r -> f (f x) = f x) -> f r = r ->
  insert_or_update key eqb r' f (insert_or_update key eqb r f t)
  = insert_or_update key eqb r f t.
Proof.
  intros Hr' Hk Hf Hr.
  pose proof (select_insert_or_update r f t Hk) as P.
  unfold insert_or_update at 1. rewrite Hr'.
  destruct (select key eqb (key r) (insert_or_update key eqb r f t));
    [clear P|contradiction].
  unfold insert_or_update.
  destruct (select key eqb (key r) t) as [x|] eqn:E.
  - now apply update_update.
  - unfold update. rewrite map_app. simpl. rewrite eqb_refl_key, Hr.
    f_equal. now apply (update_none (key r) f t).
Qed.

Lemma insert_or_ignore_present (r : R) (t : list R) :
  select key eqb (key r) t <> None ->
  insert_or_ignore key eqb r t = t.
Proof.
  unfold insert_or_ignore. now destruct (select key eqb (key r) t).
Qed.

Lemma select_insert_or_ignore (r : R) (t : list R) :
  select key eqb (key r) (insert_or_ignore key eqb r t) <> None.
Proof.
  unfold insert_or_ignore.
  destruct (select key eqb (key r) t) as [x|] eqn:E.
  - rewrite E. discriminate.
  - rewrite select_app, E. simpl. now rewrite eqb_refl_key.
Qed.

(** A key that is in the table stays in it, with its first row, when rows
    are added behind. *)
Lemma select_app_present (k : K) (t u : list R) :
  select key eqb k t <> None ->
  select key eqb k (t ++ u) = select key eqb k t.
Proof.
  intros H. rewrite select_app. now destruct (select key eqb k t).
Qed.

Lemma select_insert_or_ignore_other (k : K) (r : R) (t : list R) :
  select key eqb k t <> None ->
  select key eqb k (insert_or_ignore key eqb r t) <> None.
Proof.
  intros H. unfold insert_or_ignore.
  destruct (select key eqb (key r) t); [exact H|].
  now rewrite select_app_present.
Qed.

(** *** Unique keys *)

Lemma not_in_keys (k : K) (t : list R) :
  select key eqb k t = None -> ~ In k (map key t).
Proof.
  intros H Hin. apply in_map_iff in Hin. destruct Hin as (r & Hr & Hin).
  now apply (select_in k t r Hin Hr).
Qed.

Lemma insert_or_update_unique (r : R) (f : R -> R) (t : list R) :
  (forall x, key x = key r -> key (f x) = key r) ->
  NoDup (map key t) -> NoDup (map key (insert_or_update key eqb r f t)).
Proof.
  intros Hk Hn. unfold insert_or_update.
  destruct (select key eqb (key r) t) as [x|] eqn:E.
  - now rewrite update_keys.
  - rewrite map_app. simpl. apply NoDup_app; [exact Hn|repeat constructor; auto|].
    intros a Ha [<-|[]]. now apply (not_in_keys _ _ E).
Qed.

Lemma insert_or_ignore_unique (r : R) (t : list R) :
  NoDup (map key t) -> NoDup (map key (insert_or_ignore key eqb r t)).
Proof.
  intros Hn. unfold insert_or_ignore.
  destruct (select key eqb (key r) t) as [x|] eqn:E; [exact Hn|].
  rewrite map_app. simpl. apply NoDup_app; [exact Hn|repeat constructor; auto|].
  intros a Ha [<-|[]]. now apply (not_in_keys _ _ E).
Qed.

(** With unique keys, the rows of a key that is in the table are one row. *)
Lemma unique_rows_of_key (k : K) (t : list R) (r : R) :
  NoDup (map key t) -> select key eqb k t = Some r ->
  filter (fun x => eqb (key x) k) t = [r].
Proof.
  unfold select. induction t as [|x t IH]; simpl; [discriminate|].
  intros Hn. inversion Hn as [|? ? Hx Hn']; subst.
  destruct (eqb (key x) k) eqn:E.
  - intros [= <-]. f_equal. apply eqb_eq in E.
    assert (N : forall l, ~ In k (map key l) ->
                filter (fun y => eqb (key y) k) l = []).
    { clear - eqb_eq. intros l. induction l as [|y l IHl]; simpl; [reflexivity|].
      intros H. destruct (eqb (key y) k) eqn:Ey.
      - exfalso. apply H. left. now apply eqb_eq.
      - apply IHl. intros Hin. apply H. now right. }
    apply N. now rewrite <- E.
  - now apply IH.
Qed.

Lemma rows_of_key_le_one (k : K) (t : list R) :
  NoDup (map key t) ->
  (length (filter (fun x => eqb (key x) k) t) <= 1)%nat.
Proof.
  intros Hn. destruct (select key eqb k t) as [r|] eqn:E.
  - now rewrite (unique_rows_of_key k t r Hn E).
  - replace (filter (fun x => eqb (key x) k) t) with (@nil R); [simpl; lia|].
    symmetry. clear Hn. induction t as [|x t IH]; simpl; [reflexivity|].
    unfold select in E. simpl in E.
    destruct (eqb (key x) k); [discriminate|]. now apply IH.
Qed.

End TableFacts.

(** ** Loops of upserts *)

Section FoldFacts.
Import pg.
Context {K V : Type} (eqb : K -> K -> bool).
Hypothesis eqb_eq : forall a b, eqb a b = true <-> a = b.

Lemma eqb_sym (a b : K) : eqb a b = eqb b a.
Proof.
  destruct (eqb a b) eqn:E, (eqb b a) eqn:F; try reflexivity.
  - apply eqb_eq in E. subst. rewrite (proj2 (eqb_eq b b) eq_refl) in F.
    discriminate.
  - apply eqb_eq in F. subst. rewrite (proj2 (eqb_eq a a) eq_refl) in E.
    discriminate.
Qed.

Lemma upsert_all_snoc (l : list (K * V)) (k : K) (v : V) (t : list (K * V)) :
  upsert_all eqb (l ++ [(k, v)]) t = upsert eqb k v (upsert_all eqb l t).
Proof. unfold upsert_all. now rewrite fold_left_app. Qed.

Lemma last_value_snoc (k k' : K) (v : V) (l : list (K * V)) :
  last_value eqb k (l ++ [(k', v)])
  = if eqb k' k then Some v else last_value eqb k l.
Proof.
  induction l as [|[k0 v0] l IH]; simpl.
  - reflexivity.
  - rewrite IH. destruct (eqb k' k); [reflexivity|].
    reflexivity.
Qed.

Lemma select_upsert_present (k k' : K) (v : V) (t : list (K * V)) :
  select fst eqb k t <> None -> select fst eqb k (upsert eqb k' v t) <> None.
Proof.
  intros H. unfold upsert, insert_or_update. simpl fst.
  destruct (select fst eqb k' t) as [x|] eqn:E.
  - now apply (select_update_present fst eqb eqb_eq).
  - now rewrite (select_app_present fst eqb).
Qed.

Lemma select_upsert_all_present (k : K) (l t : list (K * V)) :
  select fst eqb k t <> None -> select fst eqb k (upsert_all eqb l t) <> None.
Proof.
  revert t. induction l as [|[k' v] l IH]; simpl; intros t H; [exact H|].
  apply IH. now apply select_upsert_present.
Qed.

Lemma select_upsert_all (k : K) (l t : list (K * V)) :
  In k (map fst l) -> select fst eqb k (upsert_all eqb l t) <> None.
Proof.
  revert t. induction l as [|[k' v] l IH]; simpl; intros t; [contradiction|].
  intros [->|Hin].
  - apply select_upsert_all_present.
    apply (select_insert_or_update fst eqb eqb_eq (k, v)). reflexivity.
  - now apply IH.
Qed.

Lemma overwritten_key (l : list (K * V)) (r : K * V) :
  fst (overwritten eqb l r) = fst r.
Proof. unfold overwritten. now destruct (last_value eqb (fst r) l). Qed.

Lemma select_map_keys (k : K) (g : K * V -> K * V) (t : list (K * V)) :
  (forall r, fst (g r) = fst r) ->
  select fst eqb k (map g t) = option_map g (select fst eqb k t).
Proof.
  intros Hg. unfold select. induction t as [|r t IH]; simpl; [reflexivity|].
  rewrite Hg. now destruct (eqb (fst r) k).
Qed.

(** On a table that has all their keys, the upserts overwrite. *)
Lemma upsert_all_overwrites (l t : list (K * V)) :
  (forall k, In k (map fst l) -> select fst eqb k t <> None) ->
  upsert_all eqb l t = map (overwritten eqb l) t.
Proof.
  induction l as [|[k v] l IH] using rev_ind; intros H.
  - simpl. symmetry. apply map_id.
  - rewrite upsert_all_snoc, IH.
    2:{ intros k' Hk'. apply H. rewrite map_app, in_app_iff. now left. }
    assert (P : select fst eqb k (map (overwritten eqb l) t) <> None).
    { rewrite select_map_keys by apply overwritten_key.
      specialize (H k). destruct (select fst eqb k t); [discriminate|].
      exfalso. apply H; [|reflexivity].
      rewrite map_app, in_app_iff. right. now left. }
    unfold upsert, insert_or_update. simpl fst.
    destruct (select fst eqb k (map (overwritten eqb l) t)); [|contradiction].
    unfold update. rewrite map_map. apply map_ext. intros r.
    rewrite overwritten_key. unfold overwritten at 2.
    rewrite last_value_snoc, (eqb_sym k (fst r)).
    destruct (eqb (fst r) k) eqn:E; [|reflexivity].
    apply eqb_eq in E. now rewrite E.
Qed.

(** After the upserts, a row whose key is among them has the last value. *)
Lemma upsert_all_values (l t : list (K * V)) (r : K * V) :
  In r (upsert_all eqb l t) -> overwritten eqb l r = r.
Proof.
  revert r. induction l as [|[k v] l IH] using rev_ind; intros r.
  - reflexivity.
  - rewrite upsert_all_snoc. unfold overwritten.
    rewrite last_value_snoc, (eqb_sym k (fst r)).
    unfold upsert, insert_or_update. simpl fst.
    destruct (select fst eqb k (upsert_all eqb l t)) as [x|] eqn:E.
    + unfold update. intros Hin. apply in_map_iff in Hin.
      destruct Hin as (y & Hy & Hin).
      destruct (eqb (fst y) k) eqn:Ey.
      * subst r. simpl. now rewrite (proj2 (eqb_eq k k) eq_refl).
      * subst r. rewrite Ey. now apply IH.
    + intros Hin. apply in_app_iff in Hin. destruct Hin as [Hin|[<-|[]]].
      * rewrite (select_none fst eqb k _ r E Hin). now apply IH.
      * simpl. now rewrite (proj2 (eqb_eq k k) eq_refl).
Qed.

(** The same upserts once more change nothing. *)
Lemma upsert_all_twice (l t : list (K * V)) :
  upsert_all eqb l (upsert_all eqb l t) = upsert_all eqb l t.
Proof.
  rewrite (upsert_all_overwrites l (upsert_all eqb l t)).
  - rewrite <- (map_id (upsert_all eqb l t)) at 2.
    apply map_ext_in. intros r Hr. now apply (upsert_all_values l t).
  - intros k Hk. now apply select_upsert_all.
Qed.

Lemma upsert_all_unique (l t : list (K * V)) :
  NoDup (map fst t) -> NoDup (map fst (upsert_all eqb l t)).
Proof.
  revert t. induction l as [|[k v] l IH]; simpl; intros t H; [exact H|].
  apply IH. apply (insert_or_update_unique fst eqb eqb_eq); [reflexivity|exact H].
Qed.

End FoldFacts.

Section InsertFacts.
Import pg.
Context {R : Type} (eqb : R -> R -> bool).
Hypothesis eqb_eq : forall a b, eqb a b = true <-> a = b.

Lemma select_insert_all_present (r : R) (l t : list R) :
  select (fun x => x) eqb r t <> None ->
  select (fun x => x) eqb r (insert_all eqb l t) <> None.
Proof.
  revert t. induction l as [|x l IH]; simpl; intros t H; [exact H|].
  apply IH. now apply (select_insert_or_ignore_other (fun x => x) eqb).
Qed.

Lemma select_insert_all (r : R) (l t : list R) :
  In r l -> select (fun x => x) eqb r (insert_all eqb l t) <> None.
Proof.
  revert t. induction l as [|x l IH]; simpl; intros t; [contradiction|].
  intros [->|Hin].
  - apply select_insert_all_present.
    apply (select_insert_or_ignore (fun x => x) eqb eqb_eq).
  - now apply IH.
Qed.

Lemma insert_all_present (l t : list R) :
  (forall r, In r l -> select (fun x => x) eqb r t <> None) ->
  insert_all eqb l t = t.
Proof.
  induction l as [|x l IH]; simpl; intros H; [reflexivity|].
  rewrite (insert_or_ignore_present (fun x => x) eqb) by (apply H; now left).
  apply IH. intros r Hr. apply H. now right.
Qed.

(** The same inserts once more change nothing. *)
Lemma insert_all_twice (l t : list R) :
  insert_all eqb l (insert_all eqb l t) = insert_all eqb l t.
Proof.
  apply insert_all_present. intros r Hr. now apply select_insert_all.
Qed.

Lemma insert_all_unique (l t : list R) :
  NoDup t -> NoDup (insert_all eqb l t).
Proof.
  revert t. induction l as [|x l IH]; simpl; intros t H; [exact H|].
  apply IH.
  pose proof (insert_or_ignore_unique (fun x => x) eqb eqb_eq x t) as U.
  rewrite !map_id in U. now apply U.
Qed.

End InsertFacts.

(** ** Code that runs with the connection *)

Section MonadFacts.
Import Py pg.
Variable db_rejects : stmt -> bool.

Lemma bind_ok {A B : Type} (m : M A) (f : A -> M B) c b c' :
  bind m f c = (Ok b, c') ->
  exists a c1, m c = (Ok a, c1) /\ f a c1 = (Ok b, c').
Proof.
  unfold bind. destruct (m c) as [[a|e] c1]; [|discriminate].
  intros H. now exists a, c1.
Qed.

Lemma ret_ok {A : Type} (a b : A) c c' :
  ret a c = (Ok b, c') -> b = a /\ c' = c.
Proof. unfold ret. now intros [= -> ->]. Qed.

Lemma lift_ok {A : Type} (r : result A) (a : A) c c' :
  lift r c = (Ok a, c') -> r = Ok a /\ c' = c.
Proof. unfold lift. now intros [= -> ->]. Qed.

Lemma execute_ok (s : stmt) c r c' :
  execute db_rejects s c = (Ok r, c') ->
  aborted c = false
  /\ exists t q, apply_stmt s (current c) (seqs c) = Some (t, q, r)
                 /\ c' = with_current c t q.
Proof.
  unfold execute. destruct (aborted c); [discriminate|].
  destruct (db_rejects s); [discriminate|].
  destruct (apply_stmt s (current c) (seqs c)) as [[[t q] r']|];
    [|discriminate].
  intros [= -> <-]. split; [reflexivity|]. now exists t, q.
Qed.

Lemma execute_returning_ok (s : stmt) c i c' :
  execute_returning db_rejects s c = (Ok i, c') ->
  aborted c = false
  /\ exists t q, apply_stmt s (current c) (seqs c) = Some (t, q, Some i)
                 /\ c' = with_current c t q.
Proof.
  unfold execute_returning. intros H. apply bind_ok in H.
  destruct H as ([j|] & c1 & H1 & H2).
  - apply ret_ok in H2. destruct H2 as [-> ->]. now apply execute_ok in H1.
  - discriminate H2.
Qed.

(** *** What is committed stays, whatever the code does in between *)

Lemma keeps_ret {A : Type} (a : A) : keeps_committed (ret a).
Proof. intros c r c'. unfold ret. now intros [= _ ->]. Qed.

Lemma keeps_raise {A : Type} (e : exn) : keeps_committed (@raise A e).
Proof. intros c r c'. unfold raise. now intros [= _ ->]. Qed.

Lemma keeps_lift {A : Type} (x : result A) : keeps_committed (lift x).
Proof. intros c r c'. unfold lift. now intros [= _ ->]. Qed.

Lemma keeps_bind {A B : Type} (m : M A) (f : A -> M B) :
  keeps_committed m -> (forall a, keeps_committed (f a)) ->
  keeps_committed (bind m f).
Proof.
  intros Hm Hf c r c'. unfold bind.
  destruct (m c) as [[a|e] c1] eqn:E.
  - intros H. rewrite (Hf a _ _ _ H). exact (Hm _ _ _ E).
  - intros [= _ <-]. exact (Hm _ _ _ E).
Qed.

Lemma keeps_execute (s : stmt) : keeps_committed (execute db_rejects s).
Proof.
  intros c r c'. unfold execute. destruct (aborted c); [now intros [= _ <-]|].
  destruct (db_rejects s); [now intros [= _ <-]|].
  destruct (apply_stmt s (current c) (seqs c)) as [[[t q] r']|];
    now intros [= _ <-].
Qed.

Lemma keeps_execute_returning (s : stmt) :
  keeps_committed (execute_returning db_rejects s).
Proof.
  apply keeps_bind; [apply keeps_execute|].
  intros [i|]; [apply keeps_ret|apply keeps_raise].
Qed.

Lemma keeps_for_each {A : Type} (l : list A) (body : A -> M unit) :
  (forall a, keeps_committed (body a)) -> keeps_committed (for_each l body).
Proof.
  intros H. induction l as [|x l IH]; simpl; [apply keeps_ret|].
  apply keeps_bind; [apply H|intros _; exact IH].
Qed.

End MonadFacts.

(** ** Tables of names *)

Section NameFacts.
Import pg.

Lemma string_eqb_eq (a b : string) : String.eqb a b = true <-> a = b.
Proof. apply String.eqb_eq. Qed.

Lemma pair_eqb_eq (a b : Z * Z) : pair_eqb a b = true <-> a = b.
Proof.
  unfold pair_eqb. destruct a as [a1 a2], b as [b1 b2]. simpl.
  rewrite andb_true_iff, !Z.eqb_eq. split.
  - now intros [-> ->].
  - now intros [= -> ->].
Qed.

Lemma issn_eqb_eq (a b : Z * string) : issn_eqb a b = true <-> a = b.
Proof.
  unfold issn_eqb. destruct a as [a1 a2], b as [b1 b2]. simpl.
  rewrite andb_true_iff, Z.eqb_eq, String.eqb_eq. split.
  - now intros [-> ->].
  - now intros [= -> ->].
Qed.

Lemma resolve_or_create_some name d last d' last' i :
  resolve_or_create name d last = Some (d', last', i) ->
  (exists ext, d' = d ++ ext)
  /\ select snd String.eqb name d' <> None
  /\ id_of d' name = i.
Proof.
  unfold resolve_or_create, id_of.
  destruct (select snd String.eqb name d) as [r|] eqn:E.
  - intros [= <- _ <-]. rewrite E. split; [exists []; now rewrite app_nil_r|].
    split; [discriminate|reflexivity].
  - destruct (has_id (last + 1) d); [discriminate|].
    intros [= <- _ <-]. split; [now exists [((last + 1)%Z, name)]|].
    rewrite select_app, E. simpl. rewrite String.eqb_refl.
    split; [discriminate|reflexivity].
Qed.

Lemma resolve_or_create_present name d last :
  select snd String.eqb name d <> None ->
  resolve_or_create name d last = Some (d, (last + 1)%Z, id_of d name).
Proof.
  unfold resolve_or_create, id_of.
  now destruct (select snd String.eqb name d).
Qed.

Lemma id_of_app name d ext :
  select snd String.eqb name d <> None ->
  select snd String.eqb name (d ++ ext) <> None
  /\ id_of (d ++ ext) name = id_of d name.
Proof.
  intros H. unfold id_of. rewrite (select_app_present snd String.eqb _ _ _ H).
  now split.
Qed.

Lemma resolve_all_some names d last d' last' :
  resolve_all names d last = Some (d', last') ->
  (exists ext, d' = d ++ ext)
  /\ (forall name, select snd String.eqb name d <> None ->
                   select snd String.eqb name d' <> None
                   /\ id_of d' name = id_of d name)
  /\ (forall name, In name names -> select snd String.eqb name d' <> None).
Proof.
  revert d last. induction names as [|n names IH]; simpl; intros d last.
  - intros [= <- <-]. split; [exists []; now rewrite app_nil_r|].
    split; [now intros|contradiction].
  - destruct (resolve_or_create n d last) as [[[d1 last1] i]|] eqn:E;
      [|discriminate].
    intros H. apply IH in H. destruct H as ((ext' & ->) & Hkeep & Hin).
    apply resolve_or_create_some in E. destruct E as ((ext & ->) & Hn & _).
    split; [exists (ext ++ ext'); now rewrite app_assoc|].
    split.
    + intros name Hname.
      destruct (id_of_app name d ext Hname) as [P1 P2].
      destruct (Hkeep name P1) as [Q1 Q2]. split; [exact Q1|congruence].
    + intros name [<-|Hname]; [|now apply Hin].
      now apply Hkeep.
Qed.

(** Names that are all in the table leave it as it is. *)
Lemma resolve_all_present names d last :
  (forall name, In name names -> select snd String.eqb name d <> None) ->
  resolve_all names d last = Some (d, (last + Z.of_nat (length names))%Z).
Proof.
  revert last. induction names as [|n names IH]; simpl length; intros last H.
  - simpl. now rewrite Z.add_0_r.
  - simpl resolve_all. rewrite resolve_or_create_present by (apply H; now left).
    rewrite IH by (intros name Hn; apply H; now right).
    do 2 f_equal. lia.
Qed.

Lemma resolve_or_create_unique name d last d' last' i :
  resolve_or_create name d last = Some (d', last', i) ->
  NoDup (map snd d) -> NoDup (map snd d').
Proof.
  unfold resolve_or_create.
  destruct (select snd String.eqb name d) as [r|] eqn:E.
  - now intros [= <- _ _].
  - destruct (has_id (last + 1) d); [discriminate|].
    intros [= <- _ _] Hn. rewrite map_app. simpl.
    apply NoDup_app; [exact Hn|repeat constructor; auto|].
    intros a Ha [<-|[]].
    now apply (not_in_keys snd String.eqb string_eqb_eq _ _ E).
Qed.

Lemma resolve_all_unique names d last d' last' :
  resolve_all names d last = Some (d', last') ->
  NoDup (map snd d) -> NoDup (map snd d').
Proof.
  revert d last. induction names as [|n names IH]; simpl; intros d last.
  - now intros [= <- _].
  - destruct (resolve_or_create n d last) as [[[d1 last1] i]|] eqn:E;
      [|discriminate].
    intros H Hn. apply (IH _ _ H).
    exact (resolve_or_create_unique _ _ _ _ _ _ E Hn).
Qed.

End NameFacts.

(** ** [import_asm_journals.main]: one journal *)

Section AsmFacts.
Import Py pg import_asm_journals.
Variable db_rejects : stmt -> bool.

Local Open Scope pg_scope.

Lemma tables_ext (t t' : tables) :
  journals t = journals t' ->
  journal_scopes t = journal_scopes t' ->
  journal_metrics t = journal_metrics t' ->
  journal_issn t = journal_issn t' ->
  pg.categories t = pg.categories t' ->
  pg.subject_areas t = pg.subject_areas t' ->
  journal_categories t = journal_categories t' ->
  journal_areas t = journal_areas t' ->
  journals_updated_at t = journals_updated_at t' ->
  journal_metrics_updated_at t = journal_metrics_updated_at t' ->
  t = t'.
Proof. destruct t, t'. simpl. intros. now subst. Qed.

Lemma conn_eta (c : conn) (t : tables) (q : sequences) :
  aborted c = false -> t = current c -> q = seqs c -> with_current c t q = c.
Proof. destruct c. unfold with_current. simpl. intros. now subst. Qed.

Lemma sequences_eta (q : sequences) :
  {| journals_id_seq := journals_id_seq q;
     categories_id_seq := categories_id_seq q;
     subject_areas_id_seq := subject_areas_id_seq q |} = q.
Proof. now destruct q. Qed.

Lemma issn_loop_ok (jid : Z) (l : list string) c c' :
  for_each l (fun i => execute db_rejects (InsertIssn jid i) ;;; ret tt) c
  = (Ok tt, c') ->
  aborted c = false ->
  c' = with_current c
         (set_journal_issn (current c)
            (insert_all issn_eqb (map (pair jid) l) (journal_issn (current c))))
         (seqs c).
Proof.
  revert c. induction l as [|x l IH]; simpl; intros c H Hab.
  - apply ret_ok in H. destruct H as [_ ->]. symmetry.
    apply conn_eta; [exact Hab| |reflexivity]. now destruct (current c).
  - apply bind_ok in H. destruct H as (u & c1 & H1 & H2).
    apply bind_ok in H1. destruct H1 as (r & c2 & H1 & H3).
    apply ret_ok in H3. destruct H3 as [_ ->].
    apply execute_ok in H1. destruct H1 as (_ & t & q & Ha & ->).
    simpl in Ha. injection Ha as <- <- _.
    apply IH in H2; [|reflexivity]. subst c'. reflexivity.
Qed.

Lemma categories_loop_ok (jid : Z) (cs : list (string * option string)) c c' :
  for_each cs (insert_category db_rejects jid) c = (Ok tt, c') ->
  aborted c = false ->
  exists d last,
    resolve_all (map fst cs) (pg.categories (current c))
      (categories_id_seq (seqs c)) = Some (d, last)
    /\ c' = with_current c
              (set_journal_categories (set_categories (current c) d)
                 (upsert_all pair_eqb (category_links jid d cs)
                    (journal_categories (current c))))
              {| journals_id_seq := journals_id_seq (seqs c);
                 categories_id_seq := last;
                 subject_areas_id_seq := subject_areas_id_seq (seqs c) |}.
Proof.
  revert c. induction cs as [|[name quartile] cs IH]; simpl; intros c H Hab.
  - apply ret_ok in H. destruct H as [_ ->].
    exists (pg.categories (current c)), (categories_id_seq (seqs c)).
    split; [reflexivity|]. symmetry.
    apply conn_eta; [exact Hab| |apply sequences_eta].
    now destruct (current c).
  - apply bind_ok in H. destruct H as (u & c1 & H1 & H2).
    unfold insert_category in H1. simpl in H1.
    apply bind_ok in H1. destruct H1 as (cat_id & c2 & H1 & H3).
    apply bind_ok in H3. destruct H3 as (r & c3 & H3 & H4).
    apply ret_ok in H4. destruct H4 as [_ ->].
    apply execute_returning_ok in H1. destruct H1 as (_ & t & q & Ha & ->).
    apply execute_ok in H3. destruct H3 as (_ & t3 & q3 & Hb & ->).
    simpl in Ha, Hb.
    destruct (resolve_or_create name (pg.categories (current c))
                (categories_id_seq (seqs c))) as [[[d1 last1] i]|] eqn:E;
      [|discriminate].
    injection Ha as <- <- <-. injection Hb as <- <-.
    apply IH in H2; [|reflexivity].
    destruct H2 as (d & last & Hr & ->). simpl in Hr.
    exists d, last. split; [exact Hr|].
    apply resolve_or_create_some in E. destruct E as (_ & Hn & Hi).
    apply resolve_all_some in Hr. destruct Hr as (_ & Hkeep & _).
    destruct (Hkeep name Hn) as [_ Hid].
    unfold with_current, category_links. simpl.
    now rewrite Hid, Hi.
Qed.

Lemma areas_loop_ok (jid : Z) (names : list string) c c' :
  for_each names (insert_area db_rejects jid) c = (Ok tt, c') ->
  aborted c = false ->
  exists d last,
    resolve_all names (pg.subject_areas (current c))
      (subject_areas_id_seq (seqs c)) = Some (d, last)
    /\ c' = with_current c
              (set_journal_areas (set_subject_areas (current c) d)
                 (insert_all pair_eqb (area_links jid d names)
                    (journal_areas (current c))))
              {| journals_id_seq := journals_id_seq (seqs c);
                 categories_id_seq := categories_id_seq (seqs c);
                 subject_areas_id_seq := last |}.
Proof.
  revert c. induction names as [|name names IH]; simpl; intros c H Hab.
  - apply ret_ok in H. destruct H as [_ ->].
    exists (pg.subject_areas (current c)), (subject_areas_id_seq (seqs c)).
    split; [reflexivity|]. symmetry.
    apply conn_eta; [exact Hab| |apply sequences_eta].
    now destruct (current c).
  - apply bind_ok in H. destruct H as (u & c1 & H1 & H2).
    unfold insert_area in H1.
    apply bind_ok in H1. destruct H1 as (area_id & c2 & H1 & H3).
    apply bind_ok in H3. destruct H3 as (r & c3 & H3 & H4).
    apply ret_ok in H4. destruct H4 as [_ ->].
    apply execute_returning_ok in H1. destruct H1 as (_ & t & q & Ha & ->).
    apply execute_ok in H3. destruct H3 as (_ & t3 & q3 & Hb & ->).
    simpl in Ha, Hb.
    destruct (resolve_or_create name (pg.subject_areas (current c))
                (subject_areas_id_seq (seqs c))) as [[[d1 last1] i]|] eqn:E;
      [|discriminate].
    injection Ha as <- <- <-. injection Hb as <- <-.
    apply IH in H2; [|reflexivity].
    destruct H2 as (d & last & Hr & ->). simpl in Hr.
    exists d, last. split; [exact Hr|].
    apply resolve_or_create_some in E. destruct E as (_ & Hn & Hi).
    apply resolve_all_some in Hr. destruct Hr as (_ & Hkeep & _).
    destruct (Hkeep name Hn) as [_ Hid].
    unfold with_current, area_links. simpl.
    now rewrite Hid, Hi.
Qed.

Lemma upsert_journal_some sid v t q t' q' jid :
  apply_stmt (UpsertJournal sid v) t q = Some (t', q', Some jid) ->
  t' = set_journals t
         (journals_after sid v (journals_id_seq q + 1)%Z (journals t))
  /\ jid = journal_id_after sid (journals_id_seq q + 1)%Z (journals t)
  /\ q' = {| journals_id_seq := (journals_id_seq q + 1)%Z;
             categories_id_seq := categories_id_seq q;
             subject_areas_id_seq := subject_areas_id_seq q |}.
Proof.
  unfold apply_stmt, journal_id_after.
  destruct (select pg.source_id String.eqb sid (journals t)) as [r|].
  - now intros [= <- <- <-].
  - destruct (existsb _ (journals t)); [discriminate|].
    now intros [= <- <- <-].
Qed.

(** A journal that goes through leaves the tables as [imported_into]
    says, and the transaction open. *)
Lemma import_journal_ok (j : journal_json) (sid : string) c c' :
  import_journal db_rejects j sid c = (Ok tt, c') ->
  aborted c = false ->
  imported_into j sid (current c) (seqs c) (current c')
  /\ committed c' = committed c /\ aborted c' = false.
Proof.
  intros H Hab. unfold import_journal in H.
  apply bind_ok in H. destruct H as (v & c0 & H0 & H).
  apply lift_ok in H0. destruct H0 as [Hv ->].
  apply bind_ok in H. destruct H as (jid & c1 & H1 & H).
  apply execute_returning_ok in H1. destruct H1 as (_ & t1 & q1 & H1 & ->).
  apply upsert_journal_some in H1. destruct H1 as (-> & Hjid & ->).
  apply bind_ok in H. destruct H as (u & c2 & H2 & H).
  apply bind_ok in H. destruct H as (m & c3 & H3 & H).
  apply lift_ok in H3. destruct H3 as [Hm ->].
  apply bind_ok in H. destruct H as (r4 & c4 & H4 & H).
  apply execute_ok in H4. destruct H4 as (Hab2 & t4 & q4 & H4 & ->).
  simpl in H4. injection H4 as <- <- _.
  apply bind_ok in H. destruct H as ([] & c5 & H5 & H).
  apply issn_loop_ok in H5; [|reflexivity]. subst c5.
  apply bind_ok in H. destruct H as ([] & c6 & H6 & H).
  apply categories_loop_ok in H6; [|reflexivity].
  destruct H6 as (d & lastd & Hd & ->).
  apply areas_loop_ok in H; [|reflexivity].
  destruct H as (a & lasta & Ha & ->).
  simpl in Hd, Ha.
  assert (S2 : current c2
               = set_journal_scopes (current c2) (journal_scopes (current c2))
               /\ journal_scopes (current c2)
                  = match scope j with
                    | Some (String _ _ as text) =>
                        upsert Z.eqb jid text (journal_scopes (current c))
                    | _ => journal_scopes (current c)
                    end
               /\ journals (current c2)
                  = journals_after sid v (journals_id_seq (seqs c) + 1)%Z
                      (journals (current c))
               /\ journal_metrics (current c2) = journal_metrics (current c)
               /\ journal_issn (current c2) = journal_issn (current c)
               /\ pg.categories (current c2) = pg.categories (current c)
               /\ pg.subject_areas (current c2) = pg.subject_areas (current c)
               /\ journal_categories (current c2)
                  = journal_categories (current c)
               /\ journal_areas (current c2) = journal_areas (current c)
               /\ journals_updated_at (current c2)
                  = journals_updated_at (current c)
               /\ journal_metrics_updated_at (current c2)
                  = journal_metrics_updated_at (current c)
               /\ categories_id_seq (seqs c2) = categories_id_seq (seqs c)
               /\ subject_areas_id_seq (seqs c2)
                  = subject_areas_id_seq (seqs c)
               /\ committed c2 = committed c).
  { destruct (scope j) as [[|ch text]|].
    - apply ret_ok in H2. destruct H2 as [_ ->]. simpl.
      repeat split; reflexivity.
    - apply bind_ok in H2. destruct H2 as (r & c7 & H2 & H7).
      apply ret_ok in H7. destruct H7 as [_ ->].
      apply execute_ok in H2. destruct H2 as (_ & t7 & q7 & H2 & ->).
      simpl in H2. injection H2 as <- <- _. simpl.
      repeat split; reflexivity.
    - apply ret_ok in H2. destruct H2 as [_ ->]. simpl.
      repeat split; reflexivity. }
  destruct S2
    as (_ & Ss & Sj & Sm & Si & Sc & Sa & Sjc & Sja & Su & Sv & Sq1 & Sq2
        & Scm).
  split; [|split; [simpl; exact Scm|reflexivity]].
  exists v, m, d, a, lastd, lasta. simpl.
  rewrite Sq1 in Hd. rewrite Sq2 in Ha. rewrite Sc in Hd. rewrite Sa in Ha.
  rewrite <- Hjid.
  repeat split; try assumption; congruence.
Qed.

End AsmFacts.

(** ** The synchroniser, twice *)

Section SyncFacts.
Import Py pg import_asm_journals.

Lemma Z_eqb_eq (a b : Z) : Z.eqb a b = true <-> a = b.
Proof. apply Z.eqb_eq. Qed.

Lemma journals_after_upsert sid v n t :
  journals_after sid v n t
  = insert_or_update pg.source_id String.eqb
      {| id := n; pg.source_id := sid; vals := v |} (set_vals v) t.
Proof. reflexivity. Qed.

Lemma set_vals_key v sid (x : journals_row) :
  pg.source_id x = sid -> pg.source_id (set_vals v x) = sid.
Proof. now intros <-. Qed.

Lemma journals_after_twice sid v n n' t :
  journals_after sid v n' (journals_after sid v n t)
  = journals_after sid v n t.
Proof.
  rewrite !journals_after_upsert.
  apply (insert_or_update_twice pg.source_id String.eqb string_eqb_eq);
    try reflexivity.
  intros x. apply set_vals_key.
Qed.

Lemma journal_id_after_twice sid v n n' t :
  journal_id_after sid n' (journals_after sid v n t)
  = journal_id_after sid n t.
Proof.
  unfold journal_id_after, journals_after.
  destruct (select pg.source_id String.eqb sid t) as [r|] eqn:E.
  - rewrite (select_update pg.source_id String.eqb string_eqb_eq), E
      by (intros x; apply set_vals_key).
    reflexivity.
  - rewrite select_app, E. simpl. now rewrite String.eqb_refl.
Qed.

Lemma journal_after_selected sid v n t :
  exists r, select pg.source_id String.eqb sid (journals_after sid v n t)
            = Some r
            /\ id r = journal_id_after sid n t.
Proof.
  unfold journal_id_after, journals_after.
  destruct (select pg.source_id String.eqb sid t) as [r|] eqn:E.
  - rewrite (select_update pg.source_id String.eqb string_eqb_eq), E
      by (intros x; apply set_vals_key).
    now exists (set_vals v r).
  - rewrite select_app, E. simpl. rewrite String.eqb_refl. eauto.
Qed.

Lemma upsert_twice {V : Type} (k : Z) (x : V) (t : list (Z * V)) :
  upsert Z.eqb k x (upsert Z.eqb k x t) = upsert Z.eqb k x t.
Proof.
  unfold upsert.
  now apply (insert_or_update_twice fst Z.eqb Z_eqb_eq).
Qed.

Lemma upsert_unique {V : Type} (k : Z) (x : V) (t : list (Z * V)) :
  NoDup (map fst t) -> NoDup (map fst (upsert Z.eqb k x t)).
Proof.
  unfold upsert. now apply (insert_or_update_unique fst Z.eqb Z_eqb_eq).
Qed.

Lemma ok_inj {A : Type} (r : result A) (a b : A) :
  r = Ok a -> r = Ok b -> a = b.
Proof. congruence. Qed.

(** The same journal once more leaves the tables as they are. *)
Lemma imported_twice j sid t q t1 q1 t2 :
  imported_into j sid t q t1 -> imported_into j sid t1 q1 t2 -> t2 = t1.
Proof.
  intros (v & m & d & a & lastd & lasta & H)
         (v' & m' & d' & a' & lastd' & lasta' & H').
  cbv zeta in H, H'.
  destruct H
    as (Hv & Hm & Hj & Hs & Hmt & Hi & Hd & Hc & Hjc & Ha & Hsa & Hja & Hju
        & Hmu).
  destruct H' as (Hv' & Hm' & Hj' & Hs' & Hmt' & Hi' & Hd' & Hc' & Hjc' & Ha'
                  & Hsa' & Hja' & Hju' & Hmu').
  pose proof (ok_inj _ _ _ Hv Hv'). pose proof (ok_inj _ _ _ Hm Hm').
  subst v' m'.
  rewrite Hj, journal_id_after_twice in Hs', Hmt', Hi', Hjc', Hja'.
  set (jid := journal_id_after sid (journals_id_seq q + 1) (journals t)) in *.
  assert (D : d' = d).
  { rewrite Hc in Hd'.
    apply resolve_all_some in Hd. destruct Hd as (_ & _ & Hd).
    rewrite resolve_all_present in Hd' by exact Hd. congruence. }
  assert (A : a' = a).
  { rewrite Hsa in Ha'.
    apply resolve_all_some in Ha. destruct Ha as (_ & _ & Ha).
    rewrite resolve_all_present in Ha' by exact Ha. congruence. }
  subst d' a'. rewrite ?D in Hjc'. rewrite ?A in Hja'.
  apply tables_ext.
  - rewrite Hj', Hj. apply journals_after_twice.
  - rewrite Hs', Hs. destruct (scope j) as [[|ch text]|]; try reflexivity.
    apply upsert_twice.
  - rewrite Hmt', Hmt. apply upsert_twice.
  - rewrite Hi', Hi. apply (insert_all_twice issn_eqb issn_eqb_eq).
  - congruence.
  - congruence.
  - rewrite Hjc', Hjc. apply (upsert_all_twice pair_eqb pair_eqb_eq).
  - rewrite Hja', Hja. apply (insert_all_twice pair_eqb pair_eqb_eq).
  - congruence.
  - congruence.
Qed.

(** A journal that goes through keeps the keys unique. *)
Lemma imported_unique j sid t q t1 :
  imported_into j sid t q t1 -> unique_keys t -> unique_keys t1.
Proof.
  intros (v & m & d & a & lastd & lasta & H). cbv zeta in H.
  destruct H
    as (Hv & Hm & Hj & Hs & Hmt & Hi & Hd & Hc & Hjc & Ha & Hsa & Hja & _).
  intros (U1 & U2 & U3 & U4 & U5 & U6 & U7 & U8). unfold unique_keys.
  rewrite Hj, Hs, Hmt, Hi, Hc, Hjc, Hsa, Hja.
  repeat split.
  - rewrite journals_after_upsert.
    apply (insert_or_update_unique pg.source_id String.eqb string_eqb_eq);
      [intros x; apply set_vals_key|assumption].
  - destruct (scope j) as [[|ch text]|]; try assumption.
    now apply upsert_unique.
  - now apply upsert_unique.
  - now apply (insert_all_unique issn_eqb issn_eqb_eq).
  - exact (resolve_all_unique _ _ _ _ _ Hd U5).
  - exact (resolve_all_unique _ _ _ _ _ Ha U6).
  - now apply (upsert_all_unique pair_eqb pair_eqb_eq).
  - now apply (insert_all_unique pair_eqb pair_eqb_eq).
Qed.

(** The rows a journal that went through has: one in [journals], one in
    [journal_metrics], at most one in [journal_scopes]. *)
Lemma imported_rows j sid t q t1 :
  imported_into j sid t q t1 -> unique_keys t1 ->
  exists r,
    filter (fun x => String.eqb (pg.source_id x) sid) (journals t1) = [r]
    /\ length (filter (fun x => Z.eqb (fst x) (id r)) (journal_metrics t1)) = 1%nat
    /\ (length (filter (fun x => Z.eqb (fst x) (id r)) (journal_scopes t1))
        <= 1)%nat.
Proof.
  intros (v & m & d & a & lastd & lasta & H). cbv zeta in H.
  destruct H
    as (Hv & Hm & Hj & Hs & Hmt & Hi & Hd & Hc & Hjc & Ha & Hsa & Hja & _).
  intros (U1 & U2 & U3 & _).
  destruct (journal_after_selected sid v (journals_id_seq q + 1) (journals t))
    as (r & Hr & Hid).
  rewrite <- Hj in Hr. exists r. split; [|split].
  - exact (unique_rows_of_key pg.source_id String.eqb string_eqb_eq _ _ _ U1 Hr).
  - rewrite Hid.
    set (jid := journal_id_after sid (journals_id_seq q + 1) (journals t)) in *.
    destruct (select fst Z.eqb jid (journal_metrics t1)) as [x|] eqn:E.
    + now rewrite (unique_rows_of_key fst Z.eqb Z_eqb_eq _ _ _ U3 E).
    + exfalso. rewrite Hmt in E. revert E.
      apply (select_insert_or_update fst Z.eqb Z_eqb_eq (jid, m)). reflexivity.
  - apply (rows_of_key_le_one fst Z.eqb Z_eqb_eq _ _ U2).
Qed.

End SyncFacts.

(** ** The three programs on the store *)

Section StorePrograms.
Import Py pg.

Local Open Scope pg_scope.

Lemma select_upsert {V : Type} (k : Z) (x : V) (t : list (Z * V)) :
  select fst Z.eqb k (upsert Z.eqb k x t) = Some (k, x).
Proof.
  unfold upsert, insert_or_update. simpl fst.
  destruct (select fst Z.eqb k t) as [r|] eqn:E.
  - rewrite (select_update fst Z.eqb Z_eqb_eq), E by reflexivity.
    reflexivity.
  - rewrite select_app, E. simpl. now rewrite Z.eqb_refl.
Qed.

Lemma import_journal_keeps db_rejects j sid :
  keeps_committed (import_asm_journals.import_journal db_rejects j sid).
Proof.
  unfold import_asm_journals.import_journal.
  apply keeps_bind; [apply keeps_lift|intros v].
  apply keeps_bind; [apply keeps_execute_returning|intros jid].
  apply keeps_bind.
  { destruct (import_asm_journals.scope j) as [[|ch text]|];
      try apply keeps_ret.
    apply keeps_bind; [apply keeps_execute|intros _; apply keeps_ret]. }
  intros _. apply keeps_bind; [apply keeps_lift|intros m].
  apply keeps_bind; [apply keeps_execute|intros _].
  apply keeps_bind.
  { apply keeps_for_each. intros i.
    apply keeps_bind; [apply keeps_execute|intros _; apply keeps_ret]. }
  intros _. apply keeps_bind.
  { apply keeps_for_each. intros cat.
    unfold import_asm_journals.insert_category.
    apply keeps_bind; [apply keeps_execute_returning|intros cid].
    apply keeps_bind; [apply keeps_execute|intros _; apply keeps_ret]. }
  intros _. apply keeps_for_each. intros a.
  unfold import_asm_journals.insert_area.
  apply keeps_bind; [apply keeps_execute_returning|intros aid].
  apply keeps_bind; [apply keeps_execute|intros _; apply keeps_ret].
Qed.

(** [import_asm_journals.main]: a journal one of whose steps fails leaves
    the tables as they were, is reported with its title, is counted as
    skipped, and the loop goes on with the next journal. *)
Theorem asm_failed_journal_rolled_back db_rejects
    (st : import_asm_journals.run) (j : import_asm_journals.journal_json)
    (rest : list import_asm_journals.journal_json)
    (ch : ascii) (sid : string) (e : exn) (c' : conn) :
  idle (import_asm_journals.db st) ->
  import_asm_journals.source_id j = Some (String ch sid) ->
  import_asm_journals.import_journal db_rejects j (String ch sid)
    (import_asm_journals.db st) = (Raise e, c') ->
  let st' := import_asm_journals.import_one db_rejects st j in
  committed (import_asm_journals.db st')
  = committed (import_asm_journals.db st)
  /\ idle (import_asm_journals.db st')
  /\ import_asm_journals.imported st' = import_asm_journals.imported st
  /\ import_asm_journals.skipped st' = S (import_asm_journals.skipped st)
  /\ import_asm_journals.reported st'
     = import_asm_journals.reported st ++ [(import_asm_journals.title j, e)]
  /\ fold_left (import_asm_journals.import_one db_rejects) (j :: rest) st
     = fold_left (import_asm_journals.import_one db_rejects) rest st'.
Proof.
  intros Hidle Hsid Hrun st'.
  pose proof (import_journal_keeps db_rejects j _ _ _ _ Hrun) as K.
  assert (E : st' = {| import_asm_journals.db := rollback c';
                       import_asm_journals.imported :=
                         import_asm_journals.imported st;
                       import_asm_journals.skipped :=
                         S (import_asm_journals.skipped st);
                       import_asm_journals.reported :=
                         import_asm_journals.reported st
                         ++ [(import_asm_journals.title j, e)] |}).
  { subst st'. unfold import_asm_journals.import_one. now rewrite Hsid, Hrun. }
  split; [rewrite E; exact K|].
  split; [rewrite E; split; [reflexivity|simpl; reflexivity]|].
  split; [now rewrite E|]. split; [now rewrite E|]. split; [now rewrite E|].
  reflexivity.
Qed.

(** A journal that goes through is committed as [imported_into] says. *)
Lemma asm_imported_journal_committed db_rejects
    (st : import_asm_journals.run) (j : import_asm_journals.journal_json)
    (ch : ascii) (sid : string) (c' : conn) :
  idle (import_asm_journals.db st) ->
  import_asm_journals.source_id j = Some (String ch sid) ->
  import_asm_journals.import_journal db_rejects j (String ch sid)
    (import_asm_journals.db st) = (Ok tt, c') ->
  let st' := import_asm_journals.import_one db_rejects st j in
  import_asm_journals.imported_into j (String ch sid)
    (committed (import_asm_journals.db st))
    (seqs (import_asm_journals.db st))
    (committed (import_asm_journals.db st'))
  /\ idle (import_asm_journals.db st')
  /\ import_asm_journals.imported st' = S (import_asm_journals.imported st).
Proof.
  intros [Hab Hcur] Hsid Hrun st'.
  destruct (import_journal_ok db_rejects j _ _ _ Hrun Hab) as (Hi & _ & Hab').
  assert (E : st' = {| import_asm_journals.db :=
                         {| committed := current c'; current := current c';
                            seqs := seqs c'; aborted := false |};
                       import_asm_journals.imported :=
                         S (import_asm_journals.imported st);
                       import_asm_journals.skipped :=
                         import_asm_journals.skipped st;
                       import_asm_journals.reported :=
                         import_asm_journals.reported st |}).
  { subst st'. unfold import_asm_journals.import_one. rewrite Hsid, Hrun.
    unfold commit. now rewrite Hab'. }
  rewrite E. simpl. rewrite <- Hcur.
  split; [exact Hi|]. split; [split; reflexivity|reflexivity].
Qed.

Lemma import_one_counts db_rejects st j :
  import_asm_journals.imported (import_asm_journals.import_one db_rejects st j)
  = S (import_asm_journals.imported st) ->
  exists ch sid c',
    import_asm_journals.source_id j = Some (String ch sid)
    /\ import_asm_journals.import_journal db_rejects j (String ch sid)
         (import_asm_journals.db st) = (Ok tt, c').
Proof.
  unfold import_asm_journals.import_one.
  destruct (import_asm_journals.source_id j) as [[|ch sid]|];
    simpl; try lia.
  destruct (import_asm_journals.import_journal db_rejects j (String ch sid)
              (import_asm_journals.db st)) as [[[]|e] c'] eqn:E;
    simpl; try lia.
  intros _. now exists ch, sid, c'.
Qed.

(** C5: on a store whose keys are unique, a journal that is imported and
    then imported once more leaves the tables as the first import left
    them; they have one [journals] row of its [source_id], one
    [journal_metrics] row and at most one [journal_scopes] row of its id,
    and no (journal, issn), (journal, category) or (journal, area) pair
    twice. *)
Theorem C5_import_twice db_rejects (j : import_asm_journals.journal_json)
    (c : conn) :
  idle c -> unique_keys (committed c) ->
  import_asm_journals.imported (import_asm_journals.main db_rejects [j] c)
  = 1%nat ->
  let once :=
    committed (import_asm_journals.db
                 (import_asm_journals.main db_rejects [j] c)) in
  let twice :=
    committed (import_asm_journals.db
                 (import_asm_journals.main db_rejects [j; j] c)) in
  twice = once
  /\ (exists sid r,
        import_asm_journals.source_id j = Some sid
        /\ filter (fun x => String.eqb (source_id x) sid) (journals twice) = [r]
        /\ length (filter (fun x => Z.eqb (fst x) (id r))
                     (journal_metrics twice)) = 1%nat
        /\ (length (filter (fun x => Z.eqb (fst x) (id r))
                      (journal_scopes twice)) <= 1)%nat)
  /\ NoDup (journal_issn twice)
  /\ NoDup (map fst (journal_categories twice))
  /\ NoDup (journal_areas twice).
Proof.
  intros Hidle Huniq Hcount once twice.
  unfold import_asm_journals.main in *. simpl fold_left in *.
  set (st0 := {| import_asm_journals.db := c;
                 import_asm_journals.imported := 0;
                 import_asm_journals.skipped := 0;
                 import_asm_journals.reported := [] |}) in *.
  destruct (import_one_counts db_rejects st0 j Hcount)
    as (ch & sid & c1 & Hsid & Hrun).
  destruct (asm_imported_journal_committed db_rejects st0 j ch sid c1
              Hidle Hsid Hrun) as (Hinto & Hidle1 & _).
  set (st1 := import_asm_journals.import_one db_rejects st0 j) in *.
  simpl in Hinto.
  assert (E : twice = once).
  { subst twice once.
    destruct (import_asm_journals.import_journal db_rejects j (String ch sid)
                (import_asm_journals.db st1)) as [[[]|e] c2] eqn:Hrun2.
    - destruct (asm_imported_journal_committed db_rejects st1 j ch sid c2
                  Hidle1 Hsid Hrun2) as (Hinto2 & _ & _).
      exact (imported_twice _ _ _ _ _ _ _ Hinto Hinto2).
    - now destruct (asm_failed_journal_rolled_back db_rejects st1 j [] ch sid
                      e c2 Hidle1 Hsid Hrun2) as (Hsame & _). }
  pose proof (imported_unique _ _ _ _ _ Hinto Huniq) as U.
  fold once in Hinto, U. rewrite E.
  split; [reflexivity|]. split.
  - destruct (imported_rows _ _ _ _ _ Hinto U) as (r & R1 & R2 & R3).
    now exists (String ch sid), r.
  - destruct U as (_ & _ & _ & U4 & _ & _ & U7 & U8). auto.
Qed.

Lemma C5_import_twice_witness :
  committed (import_asm_journals.db
               (import_asm_journals.main samples.accepts_all
                  [samples.jb_2024; samples.jb_2024] samples.empty_db))
  = committed (import_asm_journals.db
                 (import_asm_journals.main samples.accepts_all
                    [samples.jb_2024] samples.empty_db)).
Proof.
  refine (proj1 (C5_import_twice samples.accepts_all samples.jb_2024
                   samples.empty_db _ _ _)).
  - split; reflexivity.
  - unfold unique_keys. simpl. repeat split; constructor.
  - vm_compute. reflexivity.
Defined.

Lemma metrics_values_of_sjr (j : import_asm_journals.journal_json)
    (m : metrics_values) :
  import_asm_journals.metrics_values_of j = Ok m ->
  import_asm_journals.sjr j = PNone -> sjr m = None.
Proof.
  unfold import_asm_journals.metrics_values_of. intros H Hs. rewrite Hs in H.
  simpl in H.
  repeat match type of H with
         | rbind ?r _ = _ => destruct r; simpl in H; [|discriminate H]
         end.
  now injection H as <-.
Qed.

(** C1, at the failing inputs: a journal that goes through
    [import_asm_journals.main] leaves, as the row of its metrics, the
    values of the record, whatever was stored before; where the record
    has no [sjr], the stored [sjr] is [NULL]. *)
Theorem C1_import_replaces_metrics db_rejects
    (j : import_asm_journals.journal_json) (sid : string) (c c' : conn)
    (m : metrics_values) :
  aborted c = false ->
  import_asm_journals.import_journal db_rejects j sid c = (Ok tt, c') ->
  import_asm_journals.metrics_values_of j = Ok m ->
  let jid :=
    journal_id_after sid (journals_id_seq (seqs c) + 1) (journals (current c))
  in
  select fst Z.eqb jid (journal_metrics (current c')) = Some (jid, m)
  /\ (import_asm_journals.sjr j = PNone -> sjr m = None).
Proof.
  intros Hab Hrun Hm jid.
  destruct (import_journal_ok db_rejects j sid c c' Hrun Hab) as (Hi & _).
  destruct Hi as (v & m' & d & a & lastd & lasta & H). cbv zeta in H.
  destruct H as (_ & Hm' & _ & _ & Hmt & _).
  pose proof (ok_inj _ _ _ Hm Hm'). subst m'.
  split.
  - rewrite Hmt. apply select_upsert.
  - now apply metrics_values_of_sjr.
Qed.

Lemma C1_import_replaces_metrics_witness :
  let c := import_asm_journals.db
             (import_asm_journals.main samples.accepts_all [samples.jb_2024]
                samples.empty_db) in
  let c' := snd (import_asm_journals.import_journal samples.accepts_all
                   samples.jb_later "20062" c) in
  option_map (fun r => sjr (snd r))
    (select fst Z.eqb 1%Z (journal_metrics (current c)))
  = Some (Some (FNum false 25 (-1)))
  /\ option_map (fun r => sjr (snd r))
       (select fst Z.eqb 1%Z (journal_metrics (current c')))
     = Some None.
Proof.
  intros c c'. split; [vm_compute; reflexivity|].
  destruct (C1_import_replaces_metrics samples.accepts_all samples.jb_later
              "20062" c c'
              {| sjr := None; sjr_quartile := None; h_index := Some 255%Z;
                 total_docs_2024 := Some 310%Z;
                 total_docs_3years := Some 1020%Z;
                 citations_per_doc := Some (FNum false 31 (-1));
                 total_citations_3years := Some 3200%Z |})
    as [H _].
  - reflexivity.
  - vm_compute. reflexivity.
  - vm_compute. reflexivity.
  - change (journal_id_after "20062" (journals_id_seq (seqs c) + 1)
              (journals (current c))) with 1%Z in H.
    now rewrite H.
Defined.

(** X19: the scraper keeps what it does not know: a journal that goes
    through [insert_journal_to_db] and had a metrics row keeps, in each
    of [sjr], [sjr_quartile] and [h_index], the stored value where the
    record has none, and the four other metrics as they were;
    [updated_at] of the row becomes the time of the call. *)
Theorem scraper_fill_forward db_rejects (now : Z)
    (journal : scrape_bmj_journals.details)
    (c c' : conn) (jid : Z) (old : metrics_values) :
  aborted c = false ->
  scrape_bmj_journals.upsert_journal db_rejects now journal c = (Ok jid, c') ->
  select fst Z.eqb jid (journal_metrics (current c)) = Some (jid, old) ->
  select fst Z.eqb jid (journal_metrics (current c'))
  = Some (jid,
          {| sjr := coalesce (scrape_bmj_journals.sjr journal) (sjr old);
             sjr_quartile :=
               coalesce (scrape_bmj_journals.sjr_quartile journal)
                 (sjr_quartile old);
             h_index :=
               coalesce (scrape_bmj_journals.h_index journal) (h_index old);
             total_docs_2024 := total_docs_2024 old;
             total_docs_3years := total_docs_3years old;
             citations_per_doc := citations_per_doc old;
             total_citations_3years := total_citations_3years old |})
  /\ select fst Z.eqb jid (journal_metrics_updated_at (current c'))
     = Some (jid, now).
Proof.
  intros Hab Hrun Hold. unfold scrape_bmj_journals.upsert_journal in Hrun.
  apply bind_ok in Hrun. destruct Hrun as (existing & c1 & H1 & H).
  apply execute_ok in H1. destruct H1 as (_ & t1 & q1 & H1 & ->).
  simpl in H1. injection H1 as <- <- <-.
  apply bind_ok in H. destruct H as (jid' & c2 & H2 & H).
  assert (S2 : journal_metrics (current c2) = journal_metrics (current c)
               /\ aborted c2 = false).
  { destruct (select source_id String.eqb
                (scrape_bmj_journals.source_id journal) (journals (current c)))
      as [r|]; simpl in H2.
    - apply bind_ok in H2. destruct H2 as (r2 & c3 & H2 & H3).
      apply ret_ok in H3. destruct H3 as [_ ->].
      apply execute_ok in H2. destruct H2 as (_ & t3 & q3 & H2 & ->).
      simpl in H2. injection H2 as <- _ _. now split.
    - apply execute_returning_ok in H2. destruct H2 as (_ & t3 & q3 & H2 & ->).
      simpl in H2.
      destruct (existsb _ (journals (current c))); [discriminate|].
      injection H2 as <- _ _. now split. }
  destruct S2 as [Sm Sab].
  apply bind_ok in H. destruct H as ([] & c4 & H4 & H).
  assert (S4 : journal_metrics (current c4) = journal_metrics (current c)).
  { destruct (scrape_bmj_journals.scope journal) as [[|ch text]|].
    - apply ret_ok in H4. destruct H4 as [_ ->]. exact Sm.
    - apply bind_ok in H4. destruct H4 as (r4 & c5 & H4 & H5).
      apply ret_ok in H5. destruct H5 as [_ ->].
      apply execute_ok in H4. destruct H4 as (_ & t5 & q5 & H4 & ->).
      simpl in H4. injection H4 as <- _ _. exact Sm.
    - apply ret_ok in H4. destruct H4 as [_ ->]. exact Sm. }
  apply bind_ok in H. destruct H as (r6 & c6 & H6 & H).
  apply ret_ok in H. destruct H as [-> ->].
  apply execute_ok in H6. destruct H6 as (_ & t6 & q6 & H6 & ->).
  simpl in H6. injection H6 as <- _ _. simpl. rewrite S4, Hold. split.
  - unfold insert_or_update. simpl fst. rewrite Hold.
    rewrite (select_update fst Z.eqb Z_eqb_eq), Hold
      by (intros r Hr; exact Hr).
    reflexivity.
  - apply select_upsert.
Qed.

Lemma scraper_fill_forward_witness :
  let c := snd (scrape_bmj_journals.insert_journal_to_db samples.accepts_all
                  samples.first_run samples.empty_db samples.scraped_2024) in
  let c' := snd (scrape_bmj_journals.upsert_journal samples.accepts_all
                   samples.second_run samples.scraped_later c) in
  option_map (fun r => sjr (snd r))
    (select fst Z.eqb 1%Z (journal_metrics (current c')))
  = Some (Some (FNum false 25 (-1)))
  /\ select fst Z.eqb 1%Z (journal_metrics_updated_at (current c'))
     = Some (1%Z, samples.second_run).
Proof.
  intros c c'.
  destruct (scraper_fill_forward samples.accepts_all samples.second_run
              samples.scraped_later c c' 1%Z (samples.some_metrics "Q1"))
    as [E T].
  - reflexivity.
  - reflexivity.
  - vm_compute. reflexivity.
  - split; [rewrite E; vm_compute; reflexivity|exact T].
Defined.

(** C4, at the failing inputs.  [import_database] on an export whose
    first journal has a category without a name: the journal is reported
    and the loop goes on, and the rows written for it before the failure
    are committed with the rest, its link to its area missing.  On an
    export whose first journal the schema refuses in its metrics: the
    transaction stays aborted, the second journal fails as well, and the
    program ends in the exception of the statement after the loop, with
    no journal committed.  [import_asm_journals.main] on a journal the
    schema refuses in its metrics: the tables are those of the journals
    before it, and the journal after it is imported. *)
Theorem C4_restore_without_rollback :
  (let run := import_from_json.import_database samples.accepts_all
                samples.export_nameless_category samples.empty_db in
   fst run = Ok (1%nat, [(Some "BMJ", KeyError)])
   /\ map source_id (journals (committed (snd run))) = ["51748"; "16637"]
   /\ journal_scopes (committed (snd run))
      = [(1%Z, "The BMJ publishes research.")]
   /\ map fst (journal_metrics (committed (snd run))) = [1%Z; 2%Z]
   /\ journal_issn (committed (snd run))
      = [(1%Z, "09598146"); (2%Z, "00175749")]
   /\ journal_categories (committed (snd run))
      = [((1%Z, 1%Z), Some "Q1"); ((2%Z, 1%Z), Some "Q1")]
   /\ journal_areas (committed (snd run)) = [(2%Z, 1%Z)])
  /\ (let run := import_from_json.import_database samples.quartile_checked
                   samples.export_bad_quartile samples.empty_db in
      fst run = Raise DBError
      /\ journals (committed (snd run)) = []
      /\ aborted (snd run) = true)
  /\ (let st := import_asm_journals.main samples.quartile_checked
                  [samples.jb_2024; samples.mbio_bad_quartile;
                   samples.jb_later] samples.empty_db in
      import_asm_journals.imported st = 2%nat
      /\ import_asm_journals.skipped st = 1%nat
      /\ import_asm_journals.reported st = [(Some "mBio", DBError)]
      /\ committed (import_asm_journals.db st)
         = committed (import_asm_journals.db
                        (import_asm_journals.main samples.quartile_checked
                           [samples.jb_2024; samples.jb_later]
                           samples.empty_db))).
Proof.
  cbv zeta. split_all; vm_compute; reflexivity.
Qed.

End StorePrograms.
(** ** Text: stripping, splitting and joining *)

Section TextFacts.
Import Py.

Lemma lstrip_cases (s : string) :
  lstrip s = "" \/ exists c r, lstrip s = String c r /\ isspace c = false.
Proof.
  induction s as [|c s IH]; simpl; [now left|].
  destruct (isspace c) eqn:E; [exact IH|]. right. now exists c, s.
Qed.

Lemma rstrip_step (c : ascii) (s : string) :
  rstrip (String c s)
  = match rstrip s with
    | EmptyString => if isspace c then EmptyString else String c EmptyString
    | r => String c r
    end.
Proof. reflexivity. Qed.

Lemma rstrip_cons (c : ascii) (s : string) :
  isspace c = false -> rstrip (String c s) = String c (rstrip s).
Proof. intros H. rewrite rstrip_step. destruct (rstrip s); now rewrite ?H. Qed.

Lemma rstrip_idem (s : string) : rstrip (rstrip s) = rstrip s.
Proof.
  induction s as [|c s IH]; [reflexivity|]. rewrite rstrip_step.
  destruct (rstrip s) as [|d r] eqn:E.
  - destruct (isspace c) eqn:Hc; [reflexivity|].
    rewrite rstrip_step. simpl rstrip. now rewrite Hc.
  - rewrite rstrip_step. now rewrite IH.
Qed.

Lemma lstrip_head (c : ascii) (s : string) :
  isspace c = false -> lstrip (String c s) = String c s.
Proof. intros H. simpl. now rewrite H. Qed.

Lemma strip_idem (s : string) : strip (strip s) = strip s.
Proof.
  unfold strip. destruct (lstrip_cases s) as [E|(c & r & E & Hc)]; rewrite E.
  - reflexivity.
  - rewrite (rstrip_cons c r Hc), (lstrip_head c _ Hc), (rstrip_cons c _ Hc).
    now rewrite rstrip_idem.
Qed.

(** A stripped text is left as it is by both halves of [strip]. *)
Lemma stripped_inv (s : string) :
  strip s = s -> lstrip s = s /\ rstrip s = s.
Proof.
  intros H. split.
  - rewrite <- H. unfold strip.
    destruct (lstrip_cases s) as [E|(c & r & E & Hc)]; rewrite E.
    + reflexivity.
    + now rewrite (rstrip_cons c r Hc), (lstrip_head c _ Hc).
  - rewrite <- H at 1. unfold strip. rewrite rstrip_idem. exact H.
Qed.

Lemma stripped_head (s : string) :
  strip s = s -> s <> "" -> exists c r, s = String c r /\ isspace c = false.
Proof.
  intros H N. destruct (stripped_inv s H) as [L _].
  destruct (lstrip_cases s) as [E|(c & r & E & Hc)].
  - rewrite L in E. contradiction.
  - rewrite L in E. now exists c, r.
Qed.

Lemma rstrip_app (a b : string) :
  rstrip b <> "" -> rstrip (a ++ b) = (a ++ rstrip b)%string.
Proof.
  intros N. induction a as [|x a IH]; [reflexivity|].
  simpl append. rewrite rstrip_step, IH.
  destruct (a ++ rstrip b)%string eqn:E; [|reflexivity].
  destruct a; simpl in E; [contradiction|discriminate].
Qed.

Lemma append_nonempty_r (a b : string) : b <> "" -> (a ++ b)%string <> "".
Proof. destruct a; simpl; [auto|discriminate]. Qed.

(** Two stripped texts with a separator between them are a stripped text. *)
Lemma strip_app (a sep b : string) :
  strip a = a -> a <> "" -> strip b = b -> b <> "" ->
  strip (a ++ sep ++ b) = (a ++ sep ++ b)%string.
Proof.
  intros Ha Na Hb Nb.
  destruct (stripped_head a Ha Na) as (c & r & -> & Hc).
  destruct (stripped_inv b Hb) as [_ Rb].
  unfold strip. simpl append. rewrite (lstrip_head c _ Hc).
  change (String c (r ++ sep ++ b))%string
    with (String c r ++ (sep ++ b))%string.
  assert (R : rstrip (sep ++ b) = (sep ++ b)%string).
  { rewrite rstrip_app by now rewrite Rb. now rewrite Rb. }
  rewrite rstrip_app by (rewrite R; now apply append_nonempty_r).
  now rewrite R.
Qed.

Lemma join_nonempty (sep : string) (x : string) (l : list string) :
  x <> "" -> join sep (x :: l) <> "".
Proof.
  intros N. destruct l as [|y l]; simpl; [exact N|].
  destruct x; [contradiction|discriminate].
Qed.

(** Stripped, non-empty texts joined by a separator are a stripped text. *)
Lemma strip_join (sep : string) (l : list string) :
  Forall (fun x => x <> "" /\ strip x = x) l ->
  strip (join sep l) = join sep l.
Proof.
  induction 1 as [|x l [Nx Hx] Hl IH]; [reflexivity|].
  destruct l as [|y l]; [exact Hx|].
  change (join sep (x :: y :: l)) with (x ++ sep ++ join sep (y :: l))%string.
  apply strip_app; try assumption.
  apply join_nonempty. inversion Hl as [|? ? [Ny _] _]. exact Ny.
Qed.

(** *** One-character separators *)

Lemma contains_char_cons (c x : ascii) (s : string) :
  contains (String c "") (String x s)
  = Ascii.eqb x c || contains (String c "") s.
Proof.
  unfold contains. cbn [find prefix].
  destruct (ascii_dec c x) as [->|N].
  - rewrite Ascii.eqb_refl. now destruct s.
  - destruct (Ascii.eqb_spec x c) as [->|_]; [contradiction|].
    simpl. now destruct (find (String c "") s).
Qed.

Lemma contains_char_nil (c : ascii) : contains (String c "") "" = false.
Proof. reflexivity. Qed.

Lemma split_free (sep : ascii) (x : string) :
  contains (String sep "") x = false -> split sep x = [x].
Proof.
  induction x as [|c x IH]; [reflexivity|].
  rewrite contains_char_cons. intros H. apply orb_false_iff in H.
  destruct H as [Hc Hx]. simpl. now rewrite Hc, (IH Hx).
Qed.

Lemma split_app (sep : ascii) (x rest : string) :
  contains (String sep "") x = false ->
  split sep (x ++ String sep rest) = x :: split sep rest.
Proof.
  induction x as [|c x IH]; simpl append.
  - intros _. simpl. now rewrite Ascii.eqb_refl.
  - rewrite contains_char_cons. intros H. apply orb_false_iff in H.
    destruct H as [Hc Hx]. simpl. now rewrite Hc, (IH Hx).
Qed.

(** [sep.join(l)] with a space after the separator, split at the
    separator again: the items, each but the first with the space. *)
Lemma split_join (sep : ascii) (x : string) (l : list string) :
  Ascii.eqb " " sep = false ->
  Forall (fun y => contains (String sep "") y = false) (x :: l) ->
  split sep (join (String sep " ") (x :: l)) = x :: map (String " ") l.
Proof.
  intros Q. revert x. induction l as [|y l IH]; intros x H.
  - inversion H. now apply split_free.
  - inversion H as [|? ? Hx Hl]. subst.
    change (join (String sep " ") (x :: y :: l))
      with (x ++ String sep (String " " (join (String sep " ") (y :: l))))%string.
    rewrite (split_app sep x _ Hx).
    cbn [split]. now rewrite Q, (IH y Hl).
Qed.

End TextFacts.
(** ** The list columns: ISSNs, areas and categories *)

Section ListColumns.
Import Py.

Lemma nonempty_true (s : string) :
  import_asm_journals.nonempty s = true <-> s <> "".
Proof.
  unfold import_asm_journals.nonempty. rewrite negb_true_iff.
  apply String.eqb_neq.
Qed.

Lemma stripped_items_clean (sep : ascii) (s : string) :
  Forall (fun x => x <> "" /\ strip x = x)
    (filter import_asm_journals.nonempty (map strip (split sep s))).
Proof.
  apply Forall_forall. intros x Hx. apply filter_In in Hx.
  destruct Hx as [Hin Hne]. apply in_map_iff in Hin.
  destruct Hin as (y & <- & _). split.
  - now apply nonempty_true.
  - apply strip_idem.
Qed.

(** X1: every ISSN [parse_issn] returns and every area [parse_areas]
    returns is a non-empty text without whitespace at either end,
    whatever the input. *)
Theorem parsed_lists_clean (issn_str areas_str : option string) :
  Forall (fun x => x <> "" /\ strip x = x)
    (import_asm_journals.parse_issn issn_str)
  /\ Forall (fun x => x <> "" /\ strip x = x)
       (import_asm_journals.parse_areas areas_str).
Proof.
  split.
  - destruct issn_str as [[|c s]|]; try constructor.
    apply stripped_items_clean.
  - destruct areas_str as [[|c s]|]; try constructor.
    apply stripped_items_clean.
Qed.

Lemma filter_map_strip (l : list string) :
  map strip (filter (fun a => negb (String.eqb (strip a) "")) l)
  = filter import_asm_journals.nonempty (map strip l).
Proof.
  induction l as [|x l IH]; [reflexivity|]. simpl.
  unfold import_asm_journals.nonempty at 1.
  destruct (String.eqb (strip x) ""); simpl; now rewrite IH.
Qed.

(** X2: the lists [clean_journal_data] stores under ["areas_list"] and
    ["issn_list"] are the lists [parse_areas] and [parse_issn] of the
    importer return for the same text; where [clean_journal_data] does
    not set the key, the importer returns the empty list. *)
Theorem list_parsers_agree (s : option string) :
  import_asm_journals.parse_areas s
  = match clean_scope_data.areas_list s with Some l => l | None => [] end
  /\ import_asm_journals.parse_issn s
     = match clean_scope_data.issn_list s with Some l => l | None => [] end.
Proof.
  destruct s as [[|c s]|]; split; try reflexivity;
    unfold clean_scope_data.areas_list, clean_scope_data.issn_list,
      clean_scope_data.stripped_items, import_asm_journals.parse_areas,
      import_asm_journals.parse_issn;
    now rewrite filter_map_strip.
Qed.

Lemma lstrip_space (s : string) : lstrip (String " " s) = lstrip s.
Proof. reflexivity. Qed.

Lemma strip_space (s : string) : strip (String " " s) = strip s.
Proof. reflexivity. Qed.

Lemma join_cons_nonempty (sep x : string) (l : list string) :
  x <> "" -> exists c r, join sep (x :: l) = String c r.
Proof.
  intros N. destruct x as [|c x]; [contradiction|].
  destruct l; simpl; eauto.
Qed.

(** What the list parsers make of items joined by the separator and a
    space. *)
Lemma stripped_items_join (sep : ascii) (l : list string) :
  Ascii.eqb " " sep = false ->
  Forall (fun x => x <> "" /\ strip x = x
                   /\ contains (String sep "") x = false) l ->
  filter import_asm_journals.nonempty
    (map strip (split sep (join (String sep " ") l))) = l.
Proof.
  intros Q H. destruct l as [|x l]; [reflexivity|].
  rewrite split_join; [|exact Q|].
  2:{ eapply Forall_impl; [|exact H]. simpl. tauto. }
  assert (E : map strip (x :: map (String " ") l) = x :: l).
  { simpl. inversion H as [|? ? (_ & Sx & _) Hl]. subst. rewrite Sx. f_equal.
    clear - Hl. induction Hl as [|y l (_ & Sy & _) _ IH]; [reflexivity|].
    simpl. now rewrite strip_space, Sy, IH. }
  rewrite E. apply forallb_filter_id. apply forallb_forall.
  intros y Hy. rewrite Forall_forall in H. apply nonempty_true.
  now destruct (H y Hy).
Qed.

(** X3: [parse_areas] reads back the column [areas] that
    [export_db_to_csv] writes: for area names that are non-empty, have no
    whitespace at either end and no semicolon, it returns the names, in
    their order; for a journal without areas it returns the empty list. *)
Theorem areas_column_read_back (names : list string) :
  Forall (fun x => x <> "" /\ strip x = x /\ contains ";" x = false) names ->
  import_asm_journals.parse_areas (export_db_to_csv.areas_column names)
  = names.
Proof.
  intros H. destruct names as [|x l]; [reflexivity|].
  unfold export_db_to_csv.areas_column, export_db_to_csv.string_agg.
  unfold import_asm_journals.parse_areas.
  inversion H as [|? ? (Nx & _) _]. subst.
  destruct (join_cons_nonempty "; " x l Nx) as (c & r & E).
  rewrite E, <- E. now apply stripped_items_join.
Qed.

Lemma areas_column_read_back_witness :
  import_asm_journals.parse_areas
    (export_db_to_csv.areas_column
       ["Immunology and Microbiology"; "Medicine"])
  = ["Immunology and Microbiology"; "Medicine"].
Proof.
  apply areas_column_read_back.
  repeat constructor; try discriminate; reflexivity.
Defined.

End ListColumns.
(** ** The two category patterns *)

Section CategoryPatterns.
Import Py.

Lemma append_nil_r (s : string) : (s ++ "")%string = s.
Proof. induction s as [|c s IH]; simpl; congruence. Qed.

Lemma match_quartile_group_exact (anchored : bool) (q : string) :
  In q ["Q1"; "Q2"; "Q3"; "Q4"] -> match_quartile_group anchored ("(" ++ q ++ ")") = Some q.
Proof.
  intros [<-|[<-|[<-|[<-|[]]]]]; destruct anchored; reflexivity.
Qed.

Lemma match_tail_ws (anchored : bool) (ws rest : string) :
  all_chars isspace ws = true ->
  match_tail anchored (ws ++ rest) = match_tail anchored rest.
Proof.
  induction ws as [|c ws IH]; [reflexivity|]. simpl all_chars.
  intros H. apply andb_true_iff in H. destruct H as [Hc Hws].
  simpl append. cbn [match_tail]. rewrite Hc. now apply IH.
Qed.

Lemma match_tail_exact (anchored : bool) (ws q : string) :
  all_chars isspace ws = true -> In q ["Q1"; "Q2"; "Q3"; "Q4"] ->
  match_tail anchored (ws ++ "(" ++ q ++ ")") = Some q.
Proof.
  intros Hws Hq. rewrite (match_tail_ws _ _ _ Hws).
  pose proof (match_quartile_group_exact anchored q Hq) as E.
  simpl append in *. cbn [match_tail]. exact E.
Qed.

(** Behind a character that is not whitespace the anchored tail does not
    match: the text is too long for it. *)
Lemma match_quartile_group_long (d : ascii) (u q : string) :
  In q ["Q1"; "Q2"; "Q3"; "Q4"] ->
  match_quartile_group true (String d (u ++ "(" ++ q ++ ")")) = None.
Proof.
  intros Hq.
  destruct (match_quartile_group true (String d (u ++ "(" ++ q ++ ")")))
    as [q'|] eqn:E; [exfalso|reflexivity].
  apply match_quartile_group_anchored in E. destruct E as (Hq' & E).
  assert (L : String.length (String d (u ++ "(" ++ q ++ ")"))
              = (5 + String.length u)%nat).
  { destruct Hq as [<-|[<-|[<-|[<-|[]]]]]; simpl; f_equal;
      clear; induction u as [|x u IH]; simpl; congruence. }
  destruct E as [E|E]; rewrite E in L.
  - destruct Hq' as [<-|[<-|[<-|[<-|[]]]]]; simpl in L; lia.
  - destruct u as [|u1 u].
    + destruct Hq as [<-|[<-|[<-|[<-|[]]]]];
        destruct Hq' as [<-|[<-|[<-|[<-|[]]]]]; discriminate E.
    + destruct Hq' as [<-|[<-|[<-|[<-|[]]]]]; simpl in L; lia.
Qed.

Lemma rstrip_tail (c : ascii) (t : string) :
  rstrip (String c t) = String c t -> t = "" \/ (t <> "" /\ rstrip t = t).
Proof.
  rewrite rstrip_step. destruct (rstrip t) as [|a r] eqn:E.
  - destruct (isspace c); [discriminate|]. intros [= <-]. now left.
  - intros [= <-]. right. split; [discriminate|reflexivity].
Qed.

Lemma rstrip_single (c : ascii) :
  rstrip (String c "") = String c "" -> isspace c = false.
Proof. simpl. destruct (isspace c); [discriminate|reflexivity]. Qed.

Lemma rstrip_suffix (a b : string) :
  rstrip (a ++ b) = (a ++ b)%string -> b <> "" -> rstrip b = b.
Proof.
  intros H N. induction a as [|x a IH]; [exact H|].
  simpl append in H. apply rstrip_tail in H. destruct H as [H|[_ H]].
  - destruct a; simpl in H; [contradiction|discriminate].
  - exact (IH H).
Qed.

(** No tail of the pattern matches behind a part of a stripped name. *)
Lemma match_tail_anchored_none (b ws q : string) :
  rstrip b = b -> b <> "" -> In q ["Q1"; "Q2"; "Q3"; "Q4"] ->
  match_tail true (b ++ ws ++ "(" ++ q ++ ")") = None.
Proof.
  intros Hb Nb Hq. induction b as [|c b IH]; [contradiction|].
  simpl append. cbn [match_tail]. destruct (isspace c) eqn:Hc.
  - pose proof Hb as Hb'. apply rstrip_tail in Hb'.
    destruct Hb' as [->|[N R]].
    + apply rstrip_single in Hb. congruence.
    + exact (IH R N).
  - rewrite append_assoc_str. now apply match_quartile_group_long.
Qed.

Lemma contains_cons_false (sub : string) (c : ascii) (s : string) :
  contains sub (String c s) = false ->
  prefix sub (String c s) = false /\ contains sub s = false.
Proof.
  unfold contains. cbn [find].
  destruct (prefix sub (String c s)); [discriminate|].
  destruct (find sub s); simpl; [discriminate|auto].
Qed.

Lemma contains_suffix (sub a b : string) :
  contains sub (a ++ b) = false -> contains sub b = false.
Proof.
  induction a as [|x a IH]; [auto|]. simpl append. intros H.
  apply contains_cons_false in H. now apply IH.
Qed.

Lemma match_quartile_group_prefix (anchored : bool) (s q : string) :
  match_quartile_group anchored s = Some q -> prefix "(Q" s = true.
Proof.
  unfold match_quartile_group.
  destruct s as [|a [|b [|d [|e rest]]]]; try discriminate.
  destruct (Ascii.eqb_spec a "(") as [->|]; [|discriminate].
  destruct (Ascii.eqb_spec b "Q") as [->|]; [|discriminate].
  reflexivity.
Qed.

Lemma prefix_group_app (d : ascii) (b ws q : string) :
  prefix "(Q" (String d b) = false -> all_chars isspace ws = true ->
  prefix "(Q" (String d (b ++ ws ++ "(" ++ q ++ ")")) = false.
Proof.
  intros H Hws. cbn [prefix] in *.
  destruct (ascii_dec "(" d); [|reflexivity].
  destruct b as [|c b].
  - destruct ws as [|w ws]; simpl append; cbn [prefix].
    + now destruct (ascii_dec "Q" "(").
    + simpl in Hws. apply andb_true_iff in Hws. destruct Hws as [Hw _].
      destruct (ascii_dec "Q" w) as [<-|]; [|reflexivity].
      vm_compute in Hw. discriminate Hw.
  - simpl append. cbn [prefix] in *.
    destruct (ascii_dec "Q" c); [|reflexivity].
    destruct b; discriminate H.
Qed.

(** Nor does the tail without the anchor, where the name holds no "(Q". *)
Lemma match_tail_free_none (b ws q : string) :
  rstrip b = b -> b <> "" -> contains "(Q" b = false ->
  all_chars isspace ws = true ->
  match_tail false (b ++ ws ++ "(" ++ q ++ ")") = None.
Proof.
  intros Hb Nb Hc Hws. induction b as [|c b IH]; [contradiction|].
  apply contains_cons_false in Hc. destruct Hc as [Hp Hc].
  simpl append. cbn [match_tail]. destruct (isspace c) eqn:Hsp.
  - pose proof Hb as Hb'. apply rstrip_tail in Hb'.
    destruct Hb' as [->|[N R]].
    + apply rstrip_single in Hb. congruence.
    + exact (IH R N Hc).
  - destruct (match_quartile_group false
                (String c (b ++ ws ++ "(" ++ q ++ ")"))) as [q'|] eqn:E;
      [|exact E].
    apply match_quartile_group_prefix in E.
    now rewrite (prefix_group_app c b ws q Hp Hws) in E.
Qed.

(** The lazy group grows over a text [t] no part of which is followed
    by the tail, and ends where the tail matches. *)
Lemma match_name_quartile_grows (anchored : bool) (t ws q : string) :
  (forall a b, t = (a ++ b)%string -> b <> "" ->
     match_tail anchored (b ++ ws ++ "(" ++ q ++ ")") = None) ->
  contains (String "010" "") t = false ->
  all_chars isspace ws = true -> In q ["Q1"; "Q2"; "Q3"; "Q4"] ->
  forall g1 : list ascii,
    (g1 <> [] \/ t <> "") ->
    match_name_quartile anchored g1 (t ++ ws ++ "(" ++ q ++ ")")
    = Some ((string_of_list_ascii (rev g1) ++ t)%string, q).
Proof.
  intros Hnone Hnl Hws Hq. induction t as [|c t IH]; intros g1 Hg.
  - destruct Hg as [Hg|Hg]; [|contradiction].
    pose proof (match_tail_exact anchored ws q Hws Hq) as E.
    rewrite append_nil_r.
    change ("" ++ ws ++ "(" ++ q ++ ")")%string
      with (ws ++ "(" ++ q ++ ")")%string.
    destruct (ws ++ "(" ++ q ++ ")")%string as [|x r] eqn:S; [discriminate E|].
    cbn [match_name_quartile]. destruct g1 as [|y g1]; [contradiction|].
    now rewrite E.
  - change (String c t ++ ws ++ "(" ++ q ++ ")")%string
      with (String c (t ++ ws ++ "(" ++ q ++ ")"))%string.
    cbn [match_name_quartile].
    assert (T : match_tail anchored (String c (t ++ ws ++ "(" ++ q ++ ")"))
                = None).
    { apply (Hnone "" (String c t)); [reflexivity|discriminate]. }
    rewrite T.
    rewrite contains_char_cons in Hnl. apply orb_false_iff in Hnl.
    destruct Hnl as [Hc Hnl].
    replace (match g1 with [] => None | _ :: _ => None end)
      with (@None string) by now destruct g1.
    rewrite Hc. rewrite IH; [| |exact Hnl|left; discriminate].
    + simpl rev. now rewrite string_of_list_ascii_snoc.
    + intros a b -> Nb. apply (Hnone (String c a) b); [reflexivity|exact Nb].
Qed.

Lemma strip_group (q : string) :
  In q ["Q1"; "Q2"; "Q3"; "Q4"] ->
  strip ("(" ++ q ++ ")") = ("(" ++ q ++ ")")%string
  /\ ("(" ++ q ++ ")")%string <> ""
  /\ contains ";" ("(" ++ q ++ ")") = false.
Proof.
  intros [<-|[<-|[<-|[<-|[]]]]]; split_all; try reflexivity; discriminate.
Qed.

Lemma category_patterns_read (name ws q : string) :
  name <> "" -> strip name = name ->
  contains (String "010" "") name = false ->
  all_chars isspace ws = true -> In q ["Q1"; "Q2"; "Q3"; "Q4"] ->
  import_asm_journals.parse_category_part (name ++ ws ++ "(" ++ q ++ ")")
  = (name, Some q)
  /\ (contains "(Q" name = false ->
      clean_scope_data.parse_category_entry (name ++ ws ++ "(" ++ q ++ ")")
      = Some (name, Some q)).
Proof.
  intros Nn Hn Hnl Hws Hq. destruct (stripped_inv name Hn) as [_ Rn]. split.
  - unfold import_asm_journals.parse_category_part.
    rewrite (match_name_quartile_grows true name ws q); auto.
    + simpl. now rewrite Hn.
    + intros a b -> Nb. apply match_tail_anchored_none; auto.
      exact (rstrip_suffix a b Rn Nb).
  - intros Hfree. unfold clean_scope_data.parse_category_entry.
    destruct (strip_group q Hq) as (Sg & Ng & _).
    rewrite (strip_app name ws _ Hn Nn Sg Ng).
    rewrite (match_name_quartile_grows false name ws q); auto.
    + simpl. now rewrite Hn.
    + intros a b -> Nb. apply match_tail_free_none; auto.
      * exact (rstrip_suffix a b Rn Nb).
      * exact (contains_suffix _ a b Hfree).
Qed.

(** X4: an entry written as a name, any whitespace and a quartile Q1 to
    Q4 in parentheses is read by [parse_categories] as that name with
    that quartile, where the name is non-empty, has no whitespace at
    either end and no newline.  The pattern of [clean_journal_data]
    reads the same, where the name holds no "(Q" besides. *)
Theorem category_entry_read_back (name ws q : string) :
  name <> "" -> strip name = name ->
  contains (String "010" "") name = false ->
  all_chars isspace ws = true -> In q ["Q1"; "Q2"; "Q3"; "Q4"] ->
  import_asm_journals.parse_category_part (name ++ ws ++ "(" ++ q ++ ")")
  = (name, Some q)
  /\ (contains "(Q" name = false ->
      clean_scope_data.parse_category_entry (name ++ ws ++ "(" ++ q ++ ")")
      = Some (name, Some q)).
Proof. apply category_patterns_read. Qed.

Lemma category_entry_read_back_witness :
  import_asm_journals.parse_category_part
    ("Medicine (miscellaneous)" ++ " " ++ "(" ++ "Q2" ++ ")")
  = ("Medicine (miscellaneous)", Some "Q2").
Proof.
  refine (proj1 (category_entry_read_back "Medicine (miscellaneous)" " " "Q2"
                   _ _ _ _ _)).
  - discriminate.
  - reflexivity.
  - reflexivity.
  - reflexivity.
  - simpl. auto.
Defined.

Lemma match_tail_sound (s q : string) :
  match_tail true s = Some q ->
  In q ["Q1"; "Q2"; "Q3"; "Q4"]
  /\ exists ws,
       all_chars isspace ws = true
       /\ (s = (ws ++ "(" ++ q ++ ")")%string
           \/ s = (ws ++ "(" ++ q ++ ")" ++ String "010" "")%string).
Proof.
  induction s as [|c s IH]; [discriminate|]. cbn [match_tail].
  destruct (isspace c) eqn:Hc.
  - intros H. destruct (IH H) as (Hq & ws & Hws & Hs). split; [exact Hq|].
    exists (String c ws). split; [simpl; now rewrite Hc, Hws|].
    destruct Hs as [->| ->]; [now left|now right].
  - intros H. apply match_quartile_group_anchored in H.
    destruct H as (Hq & Hs). split; [exact Hq|]. now exists "".
Qed.

(** What the anchored pattern takes: the group is the text up to the
    whitespace in front of the quartile. *)
Lemma match_name_quartile_sound (s : string) :
  forall (g1 : list ascii) (n q : string),
    match_name_quartile true g1 s = Some (n, q) ->
    In q ["Q1"; "Q2"; "Q3"; "Q4"]
    /\ exists t ws,
         all_chars isspace ws = true
         /\ n = (string_of_list_ascii (rev g1) ++ t)%string
         /\ (g1 <> [] \/ t <> "")
         /\ (s = (t ++ ws ++ "(" ++ q ++ ")")%string
             \/ s = (t ++ ws ++ "(" ++ q ++ ")" ++ String "010" "")%string).
Proof.
  induction s as [|c s IH]; intros g1 n q; [discriminate|].
  cbn [match_name_quartile].
  destruct (match g1 with [] => None | _ :: _ => match_tail true (String c s) end)
    as [q'|] eqn:E.
  - intros [= <- <-]. destruct g1 as [|x g1]; [discriminate|].
    apply match_tail_sound in E. destruct E as (Hq & ws & Hws & Hs).
    split; [exact Hq|]. exists "", ws.
    split; [exact Hws|]. split; [now rewrite append_nil_r|].
    split; [left; discriminate|exact Hs].
  - destruct (Ascii.eqb c "010"); [discriminate|].
    intros H. destruct (IH _ _ _ H) as (Hq & t & ws & Hws & Hn & _ & Hs).
    split; [exact Hq|]. exists (String c t), ws.
    split; [exact Hws|]. split.
    { rewrite Hn. simpl rev. apply string_of_list_ascii_snoc. }
    split; [right; discriminate|].
    destruct Hs as [->| ->]; [now left|now right].
Qed.

Lemma rstrip_ws (ws : string) : all_chars isspace ws = true -> rstrip ws = "".
Proof.
  induction ws as [|c ws IH]; [reflexivity|]. simpl all_chars. intros H.
  apply andb_true_iff in H. destruct H as [Hc Hws].
  now rewrite rstrip_step, (IH Hws), Hc.
Qed.

Lemma rstrip_app_ws (t ws : string) :
  all_chars isspace ws = true -> rstrip (t ++ ws) = rstrip t.
Proof.
  intros Hws. induction t as [|c t IH]; [now apply rstrip_ws|].
  simpl append. now rewrite !rstrip_step, IH.
Qed.

Lemma not_stripped_newline (x : string) :
  rstrip (x ++ String "010" "") <> (x ++ String "010" "")%string.
Proof.
  intros H. apply rstrip_suffix in H; [|discriminate]. discriminate H.
Qed.

Lemma parse_category_part_trailing (part name q : string) :
  strip part = part ->
  import_asm_journals.parse_category_part part = (name, Some q) ->
  In q ["Q1"; "Q2"; "Q3"; "Q4"]
  /\ exists pre,
       part = (pre ++ "(" ++ q ++ ")")%string
       /\ name = strip pre /\ name <> "".
Proof.
  intros Hp. unfold import_asm_journals.parse_category_part.
  destruct (match_name_quartile true [] part) as [[n q']|] eqn:E;
    [|discriminate].
  intros [= <- <-].
  apply match_name_quartile_sound in E.
  destruct E as (Hq & t & ws & Hws & Hn & Ht & Hs). simpl in Hn. subst n.
  destruct Ht as [Ht|Ht]; [contradiction|].
  split; [exact Hq|].
  destruct (stripped_inv part Hp) as [_ Rp].
  destruct Hs as [Hs|Hs].
  2:{ exfalso. rewrite Hs in Rp.
      rewrite !append_assoc_str in Rp. exact (not_stripped_newline _ Rp). }
  assert (Np : part <> "").
  { rewrite Hs. destruct t; [contradiction|discriminate]. }
  destruct (stripped_head part Hp Np) as (c & r & Ec & Hc).
  destruct t as [|c' t']; [contradiction|].
  assert (c' = c) by (rewrite Hs in Ec; now injection Ec). subst c'.
  assert (St : strip (String c t') = String c (rstrip t')).
  { unfold strip. now rewrite (lstrip_head c _ Hc), (rstrip_cons c _ Hc). }
  exists (String c t' ++ ws)%string. split; [|split].
  - rewrite Hs. apply append_assoc_str.
  - rewrite St. unfold strip. simpl append.
    rewrite (lstrip_head c _ Hc), (rstrip_cons c _ Hc).
    now rewrite (rstrip_app_ws t' ws Hws).
  - rewrite St. discriminate.
Qed.

(** X5: the quartile [parse_categories] takes from a stripped entry is
    one of Q1 to Q4 and stands in parentheses at the very end of the
    entry, and the name it takes is all that stands in front, stripped;
    that name is not empty. *)
Theorem category_quartile_is_trailing (part name q : string) :
  strip part = part ->
  import_asm_journals.parse_category_part part = (name, Some q) ->
  In q ["Q1"; "Q2"; "Q3"; "Q4"]
  /\ exists pre,
       part = (pre ++ "(" ++ q ++ ")")%string
       /\ name = strip pre /\ name <> "".
Proof. apply parse_category_part_trailing. Qed.

Lemma category_quartile_is_trailing_witness :
  exists pre,
    "Applied Mathematics (Q1)" = (pre ++ "(" ++ "Q1" ++ ")")%string
    /\ "Applied Mathematics" = strip pre /\ "Applied Mathematics" <> "".
Proof.
  refine (proj2 (category_quartile_is_trailing "Applied Mathematics (Q1)"
                   "Applied Mathematics" "Q1" _ _)); reflexivity.
Defined.

(** X6: every category [parse_categories] returns has a name that is
    non-empty and has no whitespace at either end, and a quartile that is
    missing or one of Q1 to Q4, whatever the input. *)
Theorem parsed_categories_wellformed (categories_str : option string) :
  Forall (fun c => fst c <> "" /\ strip (fst c) = fst c
                   /\ match snd c with
                      | Some q => In q ["Q1"; "Q2"; "Q3"; "Q4"]
                      | None => True
                      end)
    (import_asm_journals.parse_categories categories_str).
Proof.
  destruct categories_str as [[|c0 s]|]; try constructor.
  unfold import_asm_journals.parse_categories.
  apply Forall_forall. intros c Hc. apply in_map_iff in Hc.
  destruct Hc as (part & <- & Hin).
  pose proof (stripped_items_clean ";" (String c0 s)) as Hall.
  rewrite Forall_forall in Hall. destruct (Hall part Hin) as [Np Sp].
  destruct (import_asm_journals.parse_category_part part) as [name [q|]] eqn:E.
  - destruct (parse_category_part_trailing part name q Sp E)
      as (Hq & pre & _ & Hn & Nn).
    simpl. split; [exact Nn|]. split; [|exact Hq].
    rewrite Hn. apply strip_idem.
  - unfold import_asm_journals.parse_category_part in E.
    destruct (match_name_quartile true [] part) as [[n q']|]; [discriminate|].
    injection E as <-. simpl. auto.
Qed.

Lemma length_append (a b : string) :
  String.length (a ++ b) = (String.length a + String.length b)%nat.
Proof. induction a as [|c a IH]; simpl; congruence. Qed.

Lemma append_tail_inj (a b x y : string) :
  (a ++ x)%string = (b ++ y)%string -> String.length x = String.length y ->
  x = y.
Proof.
  revert b. induction a as [|c a IH]; intros b H L.
  - destruct b as [|d b]; [exact H|]. exfalso.
    apply (f_equal String.length) in H. simpl in H.
    rewrite length_append in H. lia.
  - destruct b as [|d b].
    + exfalso. apply (f_equal String.length) in H. simpl in H.
      rewrite length_append in H. lia.
    + injection H as _ H. exact (IH b H L).
Qed.

(** An entry that ends in "(N/A)" has no quartile for the pattern. *)
Lemma parse_category_part_na (name : string) :
  import_asm_journals.parse_category_part
    (export_db_to_csv.category_text name None)
  = (export_db_to_csv.category_text name None, None).
Proof.
  unfold import_asm_journals.parse_category_part,
    export_db_to_csv.category_text.
  destruct (match_name_quartile true [] (name ++ " (" ++ "N/A" ++ ")"))
    as [[n q]|] eqn:E; [exfalso|reflexivity].
  apply match_name_quartile_anchored in E. destruct E as (Hq & pre & E).
  cbv zeta in E. simpl rev in E. simpl string_of_list_ascii in E.
  change ("" ++ name ++ " (" ++ "N/A" ++ ")")%string
    with (name ++ " (" ++ "N/A" ++ ")")%string in E.
  destruct E as [E|E].
  - change (name ++ " (" ++ "N/A" ++ ")")%string
      with (name ++ " (" ++ "N/A)")%string in E.
    rewrite append_assoc_str in E. apply append_tail_inj in E.
    + destruct Hq as [<-|[<-|[<-|[<-|[]]]]]; discriminate E.
    + destruct Hq as [<-|[<-|[<-|[<-|[]]]]]; reflexivity.
  - change (name ++ " (" ++ "N/A" ++ ")")%string
      with (name ++ " " ++ "(N/A)")%string in E.
    rewrite append_assoc_str in E. apply append_tail_inj in E.
    + destruct Hq as [<-|[<-|[<-|[<-|[]]]]]; discriminate E.
    + destruct Hq as [<-|[<-|[<-|[<-|[]]]]]; reflexivity.
Qed.

Lemma contains_char_app (c : ascii) (a b : string) :
  contains (String c "") (a ++ b)
  = contains (String c "") a || contains (String c "") b.
Proof.
  induction a as [|x a IH]; [reflexivity|]. simpl append.
  now rewrite !contains_char_cons, IH, orb_assoc.
Qed.

(** What [export_db_to_csv] writes for one category is an item the list
    parsers keep as it is. *)
Lemma category_text_clean (name : string) (quartile : option string) :
  name <> "" -> strip name = name -> contains ";" name = false ->
  match quartile with
  | Some q => In q ["Q1"; "Q2"; "Q3"; "Q4"]
  | None => True
  end ->
  let text := export_db_to_csv.category_text name quartile in
  text <> "" /\ strip text = text /\ contains ";" text = false.
Proof.
  intros Nn Hn Hs Hq text. subst text.
  unfold export_db_to_csv.category_text.
  set (q := match quartile with Some q => q | None => "N/A" end).
  assert (G : strip ("(" ++ q ++ ")") = ("(" ++ q ++ ")")%string
              /\ ("(" ++ q ++ ")")%string <> ""
              /\ contains ";" ("(" ++ q ++ ")") = false).
  { subst q. destruct quartile as [q|]; [now apply strip_group|].
    split_all; try reflexivity; discriminate. }
  destruct G as (Sg & Ng & Cg).
  change (name ++ " (" ++ q ++ ")")%string
    with (name ++ " " ++ ("(" ++ q ++ ")"))%string.
  split; [|split].
  - destruct name; [contradiction|discriminate].
  - now apply strip_app.
  - rewrite contains_char_app, Hs. simpl orb.
    change (" " ++ "(" ++ q ++ ")")%string with (String " " ("(" ++ q ++ ")")).
    rewrite contains_char_cons. exact Cg.
Qed.

(** X7: [parse_categories] reads back the column [categories] that
    [export_db_to_csv] writes, for category names that are non-empty and
    have no whitespace at either end, no newline and no semicolon: a
    link with a quartile Q1 to Q4 comes back as its name and quartile; a
    link without a quartile, written with "(N/A)", comes back without a
    quartile under the name as written, "(N/A)" included. *)
Theorem categories_column_read_back (rows : list (string * option string)) :
  Forall (fun r => fst r <> "" /\ strip (fst r) = fst r
                   /\ contains (String "010" "") (fst r) = false
                   /\ contains ";" (fst r) = false
                   /\ match snd r with
                      | Some q => In q ["Q1"; "Q2"; "Q3"; "Q4"]
                      | None => True
                      end) rows ->
  import_asm_journals.parse_categories
    (export_db_to_csv.categories_column rows)
  = map (fun r => match snd r with
                  | Some q => (fst r, Some q)
                  | None => (export_db_to_csv.category_text (fst r) None, None)
                  end) rows.
Proof.
  intros H. destruct rows as [|r0 rows]; [reflexivity|].
  unfold export_db_to_csv.categories_column, export_db_to_csv.string_agg.
  set (text := fun r : string * option string =>
                 export_db_to_csv.category_text (fst r) (snd r)).
  assert (C : Forall (fun x => x <> "" /\ strip x = x
                               /\ contains ";" x = false)
                (map text (r0 :: rows))).
  { apply Forall_forall. intros x Hx. apply in_map_iff in Hx.
    destruct Hx as (r & <- & Hr). rewrite Forall_forall in H.
    destruct (H r Hr) as (Nn & Hn & _ & Hs & Hq).
    exact (category_text_clean (fst r) (snd r) Nn Hn Hs Hq). }
  assert (N0 : text r0 <> "").
  { inversion C as [|? ? (N & _) _]. exact N. }
  change (map text (r0 :: rows)) with (text r0 :: map text rows) at 1 2.
  destruct (join_cons_nonempty "; " (text r0) (map text rows) N0)
    as (c & s & E).
  cbv iota beta. rewrite E. unfold import_asm_journals.parse_categories.
  rewrite <- E.
  change (text r0 :: map text rows) with (map text (r0 :: rows)).
  rewrite (stripped_items_join ";" _ eq_refl C).
  rewrite map_map. apply map_ext_in. intros r Hr.
  rewrite Forall_forall in H. destruct (H r Hr) as (Nn & Hn & Hnl & _ & Hq).
  subst text. cbv beta. destruct r as [name [q|]]; simpl fst in *; simpl snd in *.
  - exact (proj1 (category_patterns_read name " " q Nn Hn Hnl eq_refl Hq)).
  - apply parse_category_part_na.
Qed.

Lemma categories_column_read_back_witness :
  import_asm_journals.parse_categories
    (export_db_to_csv.categories_column
       [("Microbiology", Some "Q1"); ("Virology", None)])
  = [("Microbiology", Some "Q1"); ("Virology (N/A)", None)].
Proof.
  apply (categories_column_read_back
           [("Microbiology", Some "Q1"); ("Virology", None)]).
  repeat constructor; try discriminate; try reflexivity; simpl; auto.
Defined.

End CategoryPatterns.
(** ** The scope text that comes out *)

Section ScopeText.
Import Py clean_scope_data.

Lemma collapse_length (r : bool) (s : string) :
  (String.length (collapse_ws_from r s) <= String.length s)%nat.
Proof.
  revert r. induction s as [|c s IH]; intros r; simpl; [lia|].
  destruct (isspace c), r; simpl;
    try (specialize (IH true); lia); specialize (IH false); lia.
Qed.

Lemma collapse_idem_both (s : string) :
  (forall r, collapse_ws_from false (collapse_ws_from r s)
             = collapse_ws_from r s)
  /\ collapse_ws_from true (collapse_ws_from true s) = collapse_ws_from true s.
Proof.
  induction s as [|c s [IH1 IH2]]; [split; [intros []|]; reflexivity|].
  split.
  - intros r. cbn [collapse_ws_from]. destruct (isspace c) eqn:Hc.
    + destruct r; [apply IH1|].
      cbn [collapse_ws_from]. change (isspace " ") with true. cbv iota.
      now rewrite IH2.
    + cbn [collapse_ws_from]. rewrite Hc. now rewrite IH1.
  - cbn [collapse_ws_from]. destruct (isspace c) eqn:Hc; [exact IH2|].
    cbn [collapse_ws_from]. rewrite Hc. now rewrite IH1.
Qed.

Lemma collapsed_head (s : string) :
  collapse_ws_from true s = s ->
  s = "" \/ exists c r, s = String c r /\ isspace c = false.
Proof.
  destruct s as [|c s]; [now left|]. cbn [collapse_ws_from].
  destruct (isspace c) eqn:Hc; [|right; now exists c, s].
  intros H. exfalso. apply (f_equal String.length) in H.
  pose proof (collapse_length true s). simpl in H. lia.
Qed.

Lemma collapsed_lstrip (s : string) :
  collapse_ws s = s -> collapse_ws (lstrip s) = lstrip s.
Proof.
  unfold collapse_ws. destruct s as [|c s]; [auto|].
  cbn [lstrip]. destruct (isspace c) eqn:Hc; [|auto].
  cbn [collapse_ws_from]. rewrite Hc.
  intros [= _ H]. destruct (collapsed_head s H) as [->|(d & r & -> & Hd)];
    [reflexivity|].
  rewrite (lstrip_head d r Hd). cbn [collapse_ws_from] in *.
  now rewrite Hd in *.
Qed.

Lemma collapsed_rstrip (s : string) :
  forall r, collapse_ws_from r s = s ->
            collapse_ws_from r (rstrip s) = rstrip s.
Proof.
  induction s as [|c s IH]; intros r H; [now destruct r|].
  cbn [collapse_ws_from] in H. destruct (isspace c) eqn:Hc.
  - destruct r.
    + exfalso. apply (f_equal String.length) in H.
      pose proof (collapse_length true s). simpl in H. lia.
    + injection H as Hsp H. rewrite rstrip_step.
      pose proof (IH true H) as R.
      destruct (rstrip s) as [|a s0]; [now rewrite Hc|].
      cbn [collapse_ws_from] in *. rewrite Hc.
      destruct (isspace a); rewrite R; now rewrite Hsp.
  - injection H as H. rewrite (rstrip_cons c s Hc).
    cbn [collapse_ws_from]. rewrite Hc. now rewrite (IH false H).
Qed.

(** The text a marker gives is left as it is by [strip] and by the
    collapsing of its whitespace. *)
Lemma text_after_normal (raw marker : string) (idx : nat) :
  strip (text_after raw marker idx) = text_after raw marker idx
  /\ collapse_ws (text_after raw marker idx) = text_after raw marker idx.
Proof.
  unfold text_after. split; [apply strip_idem|].
  set (u := collapse_ws (fold_left cut_at end_markers _)).
  assert (U : collapse_ws u = u)
    by (subst u; unfold collapse_ws; apply collapse_idem_both).
  unfold strip. apply (collapsed_rstrip _ false). fold (collapse_ws (lstrip u)).
  now apply collapsed_lstrip.
Qed.

(** X8: a scope description that comes from a marker has more than 50
    characters, no whitespace at either end, and no whitespace inside but
    single spaces: collapsing its whitespace again changes nothing. *)
Theorem marker_scope_normalised (raw title t : string) :
  try_markers scope_markers raw = Some t ->
  extract_scope_description raw title = t
  /\ (50 < String.length t)%nat
  /\ strip t = t
  /\ collapse_ws t = t.
Proof.
  intros H. split.
  { destruct raw; [discriminate|].
    unfold extract_scope_description. now rewrite H. }
  apply try_markers_content in H. destruct H as (m & _ & H).
  apply marker_content_spec in H. destruct H as (idx & _ & -> & L).
  split; [exact L|]. apply text_after_normal.
Qed.

Lemma marker_scope_normalised_witness :
  strip (extract_scope_description samples.two_headings "")
  = extract_scope_description samples.two_headings ""
  /\ collapse_ws (extract_scope_description samples.two_headings "")
     = extract_scope_description samples.two_headings "".
Proof.
  destruct (marker_scope_normalised samples.two_headings ""
              (extract_scope_description samples.two_headings ""))
    as (_ & _ & S & C).
  - vm_compute. reflexivity.
  - split; [exact S|exact C].
Defined.

Lemma descriptive_nonempty (s : string) :
  any_in descriptive_words (lower s) = true -> s <> "".
Proof. intros H ->. discriminate H. Qed.

Lemma descriptive_of_kept (sentences : list string) :
  Forall (fun s => In s (map strip sentences)
                   /\ s <> "" /\ strip s = s
                   /\ any_in skip_words (lower s) = false
                   /\ any_in descriptive_words (lower s) = true)
    (descriptive_of sentences).
Proof.
  induction sentences as [|x l IH]; [constructor|]. cbn [descriptive_of].
  assert (IH' : Forall (fun s => In s (map strip (x :: l))
                                 /\ s <> "" /\ strip s = s
                                 /\ any_in skip_words (lower s) = false
                                 /\ any_in descriptive_words (lower s) = true)
                  (descriptive_of l)).
  { eapply Forall_impl; [|exact IH]. simpl. tauto. }
  destruct (any_in skip_words (lower (strip x))) eqn:S; [exact IH'|].
  destruct (any_in descriptive_words (lower (strip x))) eqn:D; [|exact IH'].
  constructor; [|exact IH']. split_all; auto.
  - now left.
  - now apply descriptive_nonempty.
  - apply strip_idem.
Qed.

Lemma Forall_first {A : Type} (P : A -> Prop) (n : nat) (l : list A) :
  Forall P l -> Forall P (firstn n l).
Proof.
  intros H. revert n. induction H as [|x l Hx Hl IH]; intros [|n]; simpl;
    constructor; auto.
Qed.

(** What the fallback joins. *)
Lemma fallback_joined (raw : string) :
  exists l,
    fallback raw = join " " l
    /\ (List.length l <= 5)%nat
    /\ Forall (fun s => In s (map strip (split_sentences raw))
                        /\ s <> "" /\ strip s = s
                        /\ any_in skip_words (lower s) = false
                        /\ any_in descriptive_words (lower s) = true) l.
Proof.
  exists (firstn 5 (descriptive_of (split_sentences raw))). split_all.
  - unfold fallback. now destruct (descriptive_of (split_sentences raw)).
  - apply firstn_le_length.
  - apply Forall_first, descriptive_of_kept.
Qed.

(** X9: where no marker gives a description, the result is made of at
    most five sentences of the text, joined by single spaces: each of
    them is a piece the text has between sentence ends, stripped, with
    one of the descriptive words in it and none of the words of
    navigation, compared in lower case. *)
Theorem fallback_sentences (raw title : string) :
  try_markers scope_markers raw = None ->
  exists l,
    extract_scope_description raw title = join " " l
    /\ (List.length l <= 5)%nat
    /\ Forall (fun s => In s (map strip (split_sentences raw))
                        /\ s <> "" /\ strip s = s
                        /\ any_in skip_words (lower s) = false
                        /\ any_in descriptive_words (lower s) = true) l.
Proof.
  intros H. destruct raw as [|c raw].
  - exists []. split_all; [reflexivity|simpl; lia|constructor].
  - unfold extract_scope_description. rewrite H. apply fallback_joined.
Qed.

Lemma fallback_sentences_witness :
  exists l,
    extract_scope_description samples.scope_example "" = join " " l
    /\ (List.length l <= 5)%nat
    /\ Forall (fun s => In s (map strip (split_sentences samples.scope_example))
                        /\ s <> "" /\ strip s = s
                        /\ any_in skip_words (lower s) = false
                        /\ any_in descriptive_words (lower s) = true) l.
Proof.
  apply (fallback_sentences samples.scope_example "").
  vm_compute. reflexivity.
Defined.

(** X10: the scope description has no whitespace at either end, whatever
    the text and whichever way it was found. *)
Theorem scope_description_stripped (raw title : string) :
  strip (extract_scope_description raw title)
  = extract_scope_description raw title.
Proof.
  destruct raw as [|c raw]; [reflexivity|].
  unfold extract_scope_description.
  destruct (try_markers scope_markers (String c raw)) as [t|] eqn:E.
  - apply try_markers_content in E. destruct E as (m & _ & E).
    apply marker_content_spec in E. destruct E as (idx & _ & -> & _).
    apply text_after_normal.
  - destruct (fallback_joined (String c raw)) as (l & -> & _ & F).
    apply strip_join. eapply Forall_impl; [|exact F]. simpl. tauto.
Qed.

End ScopeText.
(** ** The safe conversions *)

Section SafeConversions.
Import Py import_asm_journals.

Lemma float_int_limit_pos : (0 < float_int_limit)%Z.
Proof. reflexivity. Qed.

Lemma infinite_truthy (x : pyfloat) :
  is_infinite x = true -> truthy (PFloat x) = true.
Proof.
  unfold is_infinite. simpl. now destruct (number_of_float x).
Qed.

(** [safe_int] raises for an infinite float, and for nothing else. *)
Lemma safe_int_raises (v : pyval) (e : exn) :
  safe_int v = Raise e <->
  e = OverflowError /\ exists x, v = PFloat x /\ is_infinite x = true.
Proof.
  unfold safe_int. destruct v as [|b|n|x|s].
  - simpl. split; [discriminate|]. intros (_ & x & H & _). discriminate H.
  - destruct b; simpl;
      (split; [discriminate|]); intros (_ & x & H & _); discriminate H.
  - destruct (truthy (PInt n)); simpl;
      (split; [discriminate|]); intros (_ & x & H & _); discriminate H.
  - unfold is_infinite. simpl.
    destruct (number_of_float x) as [z k|neg|] eqn:E; simpl.
    + destruct (z =? 0)%Z; simpl; (split; [discriminate|]);
        intros (_ & y & [= <-] & H); rewrite E in H; discriminate H.
    + split.
      * intros [= <-]. split; [reflexivity|]. exists x. now rewrite E.
      * now intros (-> & _).
    + split; [discriminate|].
      intros (_ & y & [= <-] & H). rewrite E in H. discriminate H.
  - destruct (truthy (PStr s)); simpl.
    + destruct (int_of_str s); simpl;
        (split; [discriminate|]); intros (_ & x & H & _); discriminate H.
    + split; [discriminate|]. intros (_ & x & H & _). discriminate H.
Qed.

(** [safe_float] raises for an integer out of the range of the floats,
    and for nothing else. *)
Lemma safe_float_raises (v : pyval) (e : exn) :
  safe_float v = Raise e <->
  e = OverflowError
  /\ exists n, v = PInt n /\ (float_int_limit <= Z.abs n)%Z.
Proof.
  pose proof float_int_limit_pos as P.
  unfold safe_float. destruct v as [|b|n|x|s]; simpl.
  - split; [discriminate|]. intros (_ & n & H & _). discriminate H.
  - destruct b; simpl;
      (split; [discriminate|]); intros (_ & n & H & _); discriminate H.
  - destruct (Z.eqb_spec n 0) as [->|N]; simpl.
    + split; [discriminate|]. intros (_ & n & [= <-] & H).
      simpl in H. lia.
    + destruct (Z.ltb_spec (Z.abs n) float_int_limit) as [L|L].
      * split; [discriminate|]. intros (_ & n' & [= <-] & H). lia.
      * split.
         -- intros [= <-]. split; [reflexivity|]. now exists n.
         -- now intros (-> & _).
  - destruct (number_of_float x) as [z k|neg|]; simpl;
      try destruct (z =? 0)%Z; simpl;
      (split; [discriminate|]); intros (_ & n & H & _); discriminate H.
  - destruct (String.eqb s ""); simpl.
    + split; [discriminate|]. intros (_ & n & H & _). discriminate H.
    + destruct (float_of_str s); simpl;
        (split; [discriminate|]); intros (_ & n & H & _); discriminate H.
Qed.

(** A decimal is an infinite float from [float_int_limit] on. *)
Lemma decimal_infinite (neg : bool) (m : N) (e : Z) :
  is_infinite (FNum neg m e) = true <->
  (float_int_limit * snd (fraction m e) <= fst (fraction m e))%Z.
Proof.
  pose proof float_int_limit_pos as P.
  unfold is_infinite, number_of_float.
  destruct (fraction m e) as [num den] eqn:F. simpl fst. simpl snd.
  assert (D : (0 < den)%Z).
  { unfold fraction in F. destruct (Z.leb_spec 0 e).
    - injection F as _ <-. lia.
    - injection F as _ <-. apply Z.pow_pos_nonneg; lia. }
  pose proof (Z.mul_pos_pos _ _ P D) as PD.
  destruct (Z.eqb_spec num 0) as [->|N].
  - split; [discriminate|]. intros H. exfalso. lia.
  - destruct (Z.leb_spec (float_int_limit * den) num) as [L|L].
    + split; auto.
    + split; [discriminate|]. intros H. exfalso. lia.
Qed.

(** X11: each of the two safe conversions lets one exception through,
    an [OverflowError], on a scalar of the input.  [safe_int] raises it
    for a float that is an infinity, as [Infinity] and [1e999] of the
    input are, and for nothing else; [safe_float] raises it for an
    integer whose magnitude is [2^1024 - 2^970] or more, and for nothing
    else.  A decimal is an infinity from that magnitude on.  A finite
    float is cut off by [safe_int], and [nan] gives [None]. *)
Theorem safe_conversions_errors (v : pyval) (e : exn) :
  (safe_int v = Raise e <->
     e = OverflowError /\ exists x, v = PFloat x /\ is_infinite x = true)
  /\ (safe_float v = Raise e <->
        e = OverflowError
        /\ exists n, v = PInt n /\ (float_int_limit <= Z.abs n)%Z)
  /\ (forall neg m d,
        is_infinite (FNum neg m d) = true <->
        (float_int_limit * snd (fraction m d) <= fst (fraction m d))%Z)
  /\ is_infinite (FInf false) = true /\ is_infinite (FInf true) = true
  /\ is_infinite FNan = false
  /\ safe_int (PFloat (FNum false 1 999)) = Raise OverflowError
  /\ safe_int (PFloat (FNum false 15 (-1))) = Ok (Some 1%Z)
  /\ safe_int (PFloat FNan) = Ok None.
Proof.
  split; [apply safe_int_raises|].
  split; [apply safe_float_raises|].
  split; [intros neg m d; apply decimal_infinite|].
  split_all; vm_compute; reflexivity.
Qed.





End SafeConversions.
(** ** [create_database.main]: the order of the entries *)

Section SortFacts.
Import Py create_database.

Lemma py_lt_int (k k' : value) (a b : Z) :
  int_key k = Some a -> int_key k' = Some b -> py_lt k k' = Ok (a <? b)%Z.
Proof.
  destruct k as [[| |x| |]| | | |]; try discriminate.
  destruct k' as [[| |y| |]| | | |]; try discriminate.
  now intros [= <-] [= <-].
Qed.

(** An item goes into a sorted run of integer keys behind the items with
    a smaller key, and in front of the others. *)
Lemma insert_sorted_int (k : value) (x : dict) (n : Z)
    (l : list (value * dict)) :
  int_key k = Some n ->
  Forall (fun p => exists m, int_key (fst p) = Some m) l ->
  StronglySorted (fun p q => int_le (int_key (fst p)) (int_key (fst q))) l ->
  exists r,
    insert_sorted k x l = Ok r
    /\ Permutation r ((k, x) :: l)
    /\ StronglySorted (fun p q => int_le (int_key (fst p)) (int_key (fst q))) r
    /\ forall i, filter (fun p => int_is i (int_key (fst p))) r
                 = filter (fun p => int_is i (int_key (fst p))) ((k, x) :: l).
Proof.
  intros Hk Hall Hs. induction l as [|[k' y] l IH].
  - exists [(k, x)]. split_all; auto. repeat constructor.
  - inversion Hall as [|? ? (m & Hm) Hall']. subst.
    inversion Hs as [|? ? Hs' Hle]. subst. simpl in Hm.
    cbn [insert_sorted]. rewrite (py_lt_int k' k m n Hm Hk).
    destruct (Z.ltb_spec m n) as [L|L].
    + destruct (IH Hall' Hs') as (r & -> & P & S & F).
      exists ((k', y) :: r). split_all.
      * reflexivity.
      * rewrite P. apply perm_swap.
      * constructor; [exact S|].
        apply (Permutation_Forall (Permutation_sym P)).
        constructor; [|exact Hle].
        exists m, n. simpl. split_all; auto. lia.
      * intros i. cbn [filter]. rewrite (F i). cbn [filter fst].
        rewrite Hm, Hk. simpl int_is.
        destruct (Z.eqb_spec m i), (Z.eqb_spec n i); try reflexivity. lia.
    + exists ((k, x) :: (k', y) :: l). split_all; auto.
      constructor; [exact Hs|]. constructor.
      * exists n, m. simpl. split_all; auto.
      * eapply Forall_impl; [|exact Hle]. intros p (a & b & Ha & Hb & Hab).
        simpl in Ha. exists n, b. split_all; auto.
        assert (a = m) by congruence. lia.
Qed.

Lemma sort_by_int (key : dict -> value) (l : list dict) :
  (forall x, In x l -> exists n, int_key (key x) = Some n) ->
  exists r,
    sort_by key l = Ok r
    /\ Permutation r (map (fun x => (key x, x)) l)
    /\ StronglySorted (fun p q => int_le (int_key (fst p)) (int_key (fst q))) r
    /\ forall i, filter (fun p => int_is i (int_key (fst p))) r
                 = filter (fun p => int_is i (int_key (fst p)))
                     (map (fun x => (key x, x)) l).
Proof.
  induction l as [|x l IH]; intros H.
  - exists []. split_all; auto. constructor.
  - destruct IH as (r & E & P & S & F); [intros y Hy; apply H; now right|].
    destruct (H x (or_introl eq_refl)) as (n & Hn).
    assert (A : Forall (fun p => exists m, int_key (fst p) = Some m) r).
    { apply (Permutation_Forall (Permutation_sym P)).
      apply Forall_forall. intros p Hp. apply in_map_iff in Hp.
      destruct Hp as (y & <- & Hy). apply H. now right. }
    destruct (insert_sorted_int (key x) x n r Hn A S) as (r' & E' & P' & S' & F').
    exists r'. cbn [sort_by]. rewrite E. split_all; auto.
    + rewrite P'. simpl. now constructor.
    + intros i. rewrite F'. cbn [filter map]. now rewrite F.
Qed.

Lemma filter_map_comm {A B : Type} (f : B -> bool) (g : A -> B) (l : list A) :
  filter f (map g l) = map g (filter (fun x => f (g x)) l).
Proof.
  induction l as [|x l IH]; [reflexivity|]. simpl.
  destruct (f (g x)); simpl; now rewrite IH.
Qed.

Lemma strongly_sorted_map {A B : Type} (R : B -> B -> Prop) (g : A -> B)
    (l : list A) :
  StronglySorted (fun a b => R (g a) (g b)) l -> StronglySorted R (map g l).
Proof.
  induction 1 as [|x l Hs IH Hx]; simpl; constructor; auto.
  apply Forall_forall. intros y Hy. apply in_map_iff in Hy.
  destruct Hy as (z & <- & Hz). rewrite Forall_forall in Hx. auto.
Qed.

(** X13: where every journal has an integer rank, [main] returns the
    entries of all the journals, each once, in ascending order of rank;
    entries of the same rank keep the order of the input. *)
Theorem main_sorts_by_rank (journals : list dict) :
  (forall j, In j journals -> exists n, get j "rank" = V (PInt n)) ->
  exists database,
    main journals = Ok database
    /\ Permutation database (map create_database_entry journals)
    /\ StronglySorted (fun a b => int_le (rank_of a) (rank_of b)) database
    /\ forall n, filter (fun e => int_is n (rank_of e)) database
                 = filter (fun e => int_is n (rank_of e))
                     (map create_database_entry journals).
Proof.
  intros H. unfold main.
  set (key := fun x : dict => get_default x "rank" (V (PInt 99999))).
  set (entries := map create_database_entry journals).
  assert (K : forall e, In e entries -> key e = get e "rank"
                                       /\ exists n, int_key (key e) = Some n).
  { intros e He. apply in_map_iff in He. destruct He as (j & <- & Hj).
    destruct (H j Hj) as (n & Hn). split; [reflexivity|].
    exists n. unfold key. now rewrite sort_key_is_rank, Hn. }
  destruct (sort_by_int key entries) as (r & E & P & S & F).
  { intros e He. now apply K. }
  rewrite E. exists (map snd r).
  assert (D : map snd (map (fun x => (key x, x)) entries) = entries).
  { rewrite map_map. simpl. apply map_id. }
  assert (R : forall p, In p r -> fst p = get (snd p) "rank").
  { intros p Hp. apply (Permutation_in _ P) in Hp. apply in_map_iff in Hp.
    destruct Hp as (e & <- & He). simpl. now apply K. }
  split_all.
  - reflexivity.
  - rewrite <- D. now apply Permutation_map.
  - apply strongly_sorted_map.
    assert (G : forall l,
               (forall p, In p l -> fst p = get (snd p) "rank") ->
               StronglySorted
                 (fun p q => int_le (int_key (fst p)) (int_key (fst q))) l ->
               StronglySorted
                 (fun p q => int_le (rank_of (snd p)) (rank_of (snd q))) l).
    { clear. induction 2 as [|p l Hs IH Hp]; constructor.
      - apply IH. intros q Hq. apply H. now right.
      - apply Forall_forall. intros q Hq. rewrite Forall_forall in Hp.
        unfold rank_of. rewrite <- (H p (or_introl eq_refl)).
        rewrite <- (H q (or_intror Hq)). auto. }
    now apply G.
  - intros n. rewrite filter_map_comm.
    rewrite (filter_ext_in (fun x => int_is n (rank_of (snd x)))
               (fun p => int_is n (int_key (fst p))) r).
    2:{ intros p Hp. unfold rank_of. now rewrite <- (R p Hp). }
    rewrite (F n), filter_map_comm, map_map. simpl. rewrite map_id.
    apply filter_ext_in. intros e He. unfold rank_of.
    now rewrite (proj1 (K e He)).
Qed.

Lemma main_sorts_by_rank_witness :
  exists database,
    main [samples.second_ranked; samples.ranked_journal] = Ok database
    /\ Permutation database
         (map create_database_entry
            [samples.second_ranked; samples.ranked_journal])
    /\ StronglySorted (fun a b => int_le (rank_of a) (rank_of b)) database
    /\ forall n, filter (fun e => int_is n (rank_of e)) database
                 = filter (fun e => int_is n (rank_of e))
                     (map create_database_entry
                        [samples.second_ranked; samples.ranked_journal]).
Proof.
  apply (main_sorts_by_rank [samples.second_ranked; samples.ranked_journal]).
  intros j [<-|[<-|[]]]; [now exists 2%Z|now exists 1%Z].
Defined.

End SortFacts.
(** ** Rows a statement does not touch *)

Section FrameFacts.
Import pg.
Context {R K : Type} (key : R -> K) (eqb : K -> K -> bool).
Hypothesis eqb_eq : forall a b, eqb a b = true <-> a = b.

Lemma update_map_inv {B : Type} (g : R -> B) (k : K) (f : R -> R)
    (t : list R) :
  (forall r, key r = k -> g (f r) = g r) ->
  map g (update key eqb k f t) = map g t.
Proof.
  intros H. unfold update. rewrite map_map. apply map_ext. intros r.
  destruct (eqb (key r) k) eqn:E; [|reflexivity].
  apply H. now apply eqb_eq.
Qed.

Lemma filter_update_other (p : R -> bool) (k : K) (f : R -> R) (t : list R) :
  (forall r, key r = k -> p r = false /\ p (f r) = false) ->
  filter p (update key eqb k f t) = filter p t.
Proof.
  intros H. induction t as [|r t IH]; [reflexivity|]. simpl.
  destruct (eqb (key r) k) eqn:E.
  - apply eqb_eq in E. destruct (H r E) as [-> ->]. exact IH.
  - destruct (p r); now rewrite IH.
Qed.

Lemma filter_insert_or_update_other (p : R -> bool) (r : R) (f : R -> R)
    (t : list R) :
  p r = false ->
  (forall x, key x = key r -> p x = false /\ p (f x) = false) ->
  filter p (insert_or_update key eqb r f t) = filter p t.
Proof.
  intros Hr H. unfold insert_or_update.
  destruct (select key eqb (key r) t).
  - now apply filter_update_other.
  - rewrite filter_app. simpl. rewrite Hr. apply app_nil_r.
Qed.

Lemma filter_insert_or_ignore_other (p : R -> bool) (r : R) (t : list R) :
  p r = false -> filter p (insert_or_ignore key eqb r t) = filter p t.
Proof.
  intros Hr. unfold insert_or_ignore.
  destruct (select key eqb (key r) t); [reflexivity|].
  rewrite filter_app. simpl. rewrite Hr. apply app_nil_r.
Qed.

Lemma grown_refl {A : Type} (l : list A) : grown l l.
Proof. exists []. now rewrite app_nil_r. Qed.

Lemma grown_trans {A : Type} (a b c : list A) :
  grown a b -> grown b c -> grown a c.
Proof. intros [x ->] [y ->]. exists (x ++ y). now rewrite app_assoc. Qed.

Lemma insert_or_update_grows {B : Type} (g : R -> B) (r : R) (f : R -> R)
    (t : list R) :
  (forall x, key x = key r -> g (f x) = g x) ->
  grown (map g t) (map g (insert_or_update key eqb r f t)).
Proof.
  intros H. unfold insert_or_update.
  destruct (select key eqb (key r) t).
  - rewrite (update_map_inv g _ f t H). apply grown_refl.
  - exists [g r]. apply map_app.
Qed.

Lemma insert_or_ignore_grows (r : R) (t : list R) :
  grown t (insert_or_ignore key eqb r t).
Proof.
  unfold insert_or_ignore. destruct (select key eqb (key r) t).
  - apply grown_refl.
  - now exists [r].
Qed.

End FrameFacts.

Section FoldFrameFacts.
Import pg.

Lemma upsert_all_grows {K V : Type} (eqb : K -> K -> bool)
    (eqb_eq : forall a b, eqb a b = true <-> a = b) (l t : list (K * V)) :
  grown (map fst t) (map fst (upsert_all eqb l t)).
Proof.
  revert t. induction l as [|[k v] l IH]; intros t; [apply grown_refl|].
  simpl. eapply grown_trans; [|apply IH].
  apply (insert_or_update_grows fst eqb eqb_eq). now intros x ->.
Qed.

Lemma insert_all_grows {R : Type} (eqb : R -> R -> bool) (l t : list R) :
  grown t (insert_all eqb l t).
Proof.
  revert t. induction l as [|r l IH]; intros t; [apply grown_refl|].
  simpl. eapply grown_trans; [|apply IH]. apply insert_or_ignore_grows.
Qed.

Lemma filter_upsert_all_other {K V : Type} (eqb : K -> K -> bool)
    (eqb_eq : forall a b, eqb a b = true <-> a = b)
    (p : K -> bool) (l t : list (K * V)) :
  (forall kv, In kv l -> p (fst kv) = false) ->
  filter (fun r => p (fst r)) (upsert_all eqb l t)
  = filter (fun r => p (fst r)) t.
Proof.
  revert t. induction l as [|[k v] l IH]; intros t H; [reflexivity|].
  simpl. rewrite IH by (intros kv Hkv; apply H; now right).
  pose proof (H (k, v) (or_introl eq_refl)) as Hk. simpl in Hk.
  apply (filter_insert_or_update_other fst eqb eqb_eq); [exact Hk|].
  intros x Hx. simpl in Hx. now rewrite Hx.
Qed.

Lemma filter_insert_all_other {R : Type} (eqb : R -> R -> bool)
    (p : R -> bool) (l t : list R) :
  (forall r, In r l -> p r = false) ->
  filter p (insert_all eqb l t) = filter p t.
Proof.
  revert t. induction l as [|r l IH]; intros t H; [reflexivity|].
  simpl. rewrite IH by (intros x Hx; apply H; now right).
  apply filter_insert_or_ignore_other. apply H. now left.
Qed.

End FoldFrameFacts.
(** ** [import_asm_journals.main]: the whole batch *)

Section ImporterBatch.
Import Py pg.
Variable db_rejects : stmt -> bool.

(** One round of the loop, from a connection between two transactions:
    the connection is between two transactions again, and the tables are
    the same, or those of a journal that went through. *)
Lemma import_one_db (st : import_asm_journals.run)
    (j : import_asm_journals.journal_json) :
  idle (import_asm_journals.db st) ->
  let st' := import_asm_journals.import_one db_rejects st j in
  idle (import_asm_journals.db st')
  /\ (committed (import_asm_journals.db st')
      = committed (import_asm_journals.db st)
      \/ exists sid,
           import_asm_journals.imported_into j sid
             (committed (import_asm_journals.db st))
             (seqs (import_asm_journals.db st))
             (committed (import_asm_journals.db st'))).
Proof.
  intros Hidle st'.
  destruct (import_asm_journals.source_id j) as [[|ch sid]|] eqn:Hsid.
  - subst st'. unfold import_asm_journals.import_one. rewrite Hsid. auto.
  - destruct (import_asm_journals.import_journal db_rejects j (String ch sid)
                (import_asm_journals.db st)) as [[[]|e] c1] eqn:Hrun.
    + destruct (asm_imported_journal_committed db_rejects st j ch sid c1
                  Hidle Hsid Hrun) as (Hinto & Hidle' & _).
      split; [exact Hidle'|]. right. now exists (String ch sid).
    + pose proof (import_journal_keeps db_rejects j _ _ _ _ Hrun) as K.
      subst st'. unfold import_asm_journals.import_one.
      rewrite Hsid, Hrun. simpl. split; [split; reflexivity|]. now left.
  - subst st'. unfold import_asm_journals.import_one. rewrite Hsid. auto.
Qed.

(** A property of the committed tables that each imported journal keeps
    holds after the batch. *)
Lemma main_keeps (P : tables -> Prop) :
  (forall j sid t q t',
     import_asm_journals.imported_into j sid t q t' -> P t -> P t') ->
  forall (journals : list import_asm_journals.journal_json)
         (st : import_asm_journals.run),
    idle (import_asm_journals.db st) ->
    P (committed (import_asm_journals.db st)) ->
    let st' := fold_left (import_asm_journals.import_one db_rejects)
                 journals st in
    idle (import_asm_journals.db st')
    /\ P (committed (import_asm_journals.db st')).
Proof.
  intros Hstep journals. induction journals as [|j l IH]; intros st Hi HP.
  - simpl. auto.
  - simpl. destruct (import_one_db st j Hi) as (Hi' & [E|(sid & Hinto)]).
    + apply IH; [exact Hi'|]. now rewrite E.
    + apply IH; [exact Hi'|]. exact (Hstep _ _ _ _ _ Hinto HP).
Qed.

Lemma import_one_counts_all (st : import_asm_journals.run)
    (j : import_asm_journals.journal_json) :
  let st' := import_asm_journals.import_one db_rejects st j in
  (import_asm_journals.imported st' + import_asm_journals.skipped st'
   = S (import_asm_journals.imported st + import_asm_journals.skipped st))%nat
  /\ (length (import_asm_journals.reported st')
      + import_asm_journals.skipped st
      <= length (import_asm_journals.reported st)
         + import_asm_journals.skipped st')%nat.
Proof.
  unfold import_asm_journals.import_one.
  destruct (import_asm_journals.source_id j) as [[|ch sid]|]; simpl;
    try lia.
  destruct (import_asm_journals.import_journal db_rejects j (String ch sid)
              (import_asm_journals.db st)) as [[[]|e] c1]; simpl;
    rewrite ?length_app; simpl; lia.
Qed.

(** X14: [main] accounts for every journal of the input: each is counted
    as imported or as skipped, no more journals are reported than are
    skipped, and the connection is left between two transactions, none
    open and none aborted. *)
Theorem main_counts_every_journal
    (journals : list import_asm_journals.journal_json) (c : conn) :
  idle c ->
  let st := import_asm_journals.main db_rejects journals c in
  (import_asm_journals.imported st + import_asm_journals.skipped st
   = length journals)%nat
  /\ (length (import_asm_journals.reported st)
      <= import_asm_journals.skipped st)%nat
  /\ idle (import_asm_journals.db st).
Proof.
  intros Hidle st. subst st. unfold import_asm_journals.main.
  set (st0 := {| import_asm_journals.db := c;
                 import_asm_journals.imported := 0;
                 import_asm_journals.skipped := 0;
                 import_asm_journals.reported := [] |}).
  assert (G : forall l st,
             let st' := fold_left (import_asm_journals.import_one db_rejects)
                          l st in
             (import_asm_journals.imported st'
              + import_asm_journals.skipped st'
              = import_asm_journals.imported st
                + import_asm_journals.skipped st + length l)%nat
             /\ (length (import_asm_journals.reported st')
                 + import_asm_journals.skipped st
                 <= length (import_asm_journals.reported st)
                    + import_asm_journals.skipped st')%nat).
  { induction l as [|j l IH]; intros st; simpl; [lia|].
    destruct (import_one_counts_all st j) as [A B].
    destruct (IH (import_asm_journals.import_one db_rejects st j)) as [A' B'].
    simpl in A', B'. lia. }
  destruct (G journals st0) as [A B]. simpl in A, B.
  split; [lia|]. split; [lia|].
  exact (proj1 (main_keeps (fun _ => True) (fun _ _ _ _ _ _ _ => I)
                  journals st0 Hidle I)).
Qed.

(** X15: [main] keeps the unique keys of the schema: on tables without a
    duplicate of a key (one row for a [source_id], one scope and one
    metrics row for a journal, one row for a name, one for a pair) the
    batch leaves tables without one. *)
Theorem main_keeps_unique_keys
    (journals : list import_asm_journals.journal_json) (c : conn) :
  idle c -> unique_keys (committed c) ->
  unique_keys
    (committed (import_asm_journals.db
                  (import_asm_journals.main db_rejects journals c))).
Proof.
  intros Hidle Hu. unfold import_asm_journals.main.
  apply (main_keeps unique_keys); [|exact Hidle|exact Hu].
  intros j sid t q t' H. exact (imported_unique j sid t q t' H).
Qed.

Lemma only_adds_refl (t : tables) : only_adds t t.
Proof. unfold only_adds. split_all; apply grown_refl. Qed.

Lemma only_adds_trans (a b c : tables) :
  only_adds a b -> only_adds b c -> only_adds a c.
Proof.
  intros (A1 & A2 & A3 & A4 & A5 & A6 & A7 & A8)
         (B1 & B2 & B3 & B4 & B5 & B6 & B7 & B8).
  unfold only_adds. split_all; eapply grown_trans; eassumption.
Qed.

Lemma upsert_grows {V : Type} (k : Z) (x : V) (t : list (Z * V)) :
  grown (map fst t) (map fst (upsert Z.eqb k x t)).
Proof.
  unfold upsert. apply (insert_or_update_grows fst Z.eqb Z_eqb_eq).
  now intros r ->.
Qed.

(** A journal that goes through removes no row and changes no key. *)
Lemma imported_only_adds j sid t q t' :
  import_asm_journals.imported_into j sid t q t' -> only_adds t t'.
Proof.
  intros (v & m & d & a & lastd & lasta & H). cbv zeta in H.
  destruct H
    as (Hv & Hm & Hj & Hs & Hmt & Hi & Hd & Hc & Hjc & Ha & Hsa & Hja & _).
  unfold only_adds. rewrite Hj, Hs, Hmt, Hi, Hc, Hjc, Hsa, Hja. split_all.
  - rewrite journals_after_upsert.
    apply (insert_or_update_grows source_id String.eqb string_eqb_eq).
    reflexivity.
  - destruct (import_asm_journals.scope j) as [[|ch text]|];
      try apply grown_refl.
    apply upsert_grows.
  - apply upsert_grows.
  - apply insert_all_grows.
  - apply resolve_all_some in Hd. now destruct Hd as (Hd & _).
  - apply resolve_all_some in Ha. now destruct Ha as (Ha & _).
  - apply (upsert_all_grows pair_eqb pair_eqb_eq).
  - apply insert_all_grows.
Qed.

(** X16: [main] removes nothing and renumbers nothing.  After the batch
    every table holds the rows it held, in their places: the journals
    with their ids and [source_id]s, the scopes and metrics with their
    journal, the ISSNs, the categories and areas with their ids and
    names, and the links of journals to categories and to areas; new
    rows stand behind them. *)
Theorem main_only_adds
    (journals : list import_asm_journals.journal_json) (c : conn) :
  idle c ->
  only_adds (committed c)
    (committed (import_asm_journals.db
                  (import_asm_journals.main db_rejects journals c))).
Proof.
  intros Hidle. unfold import_asm_journals.main.
  apply (main_keeps (only_adds (committed c)));
    [|exact Hidle|apply only_adds_refl].
  intros j sid t q t' H Ht.
  exact (only_adds_trans _ _ _ Ht (imported_only_adds _ _ _ _ _ H)).
Qed.

(** The counters of a run that starts from other counters. *)
Lemma main_from (journals : list import_asm_journals.journal_json)
    (st : import_asm_journals.run) :
  let st' := fold_left (import_asm_journals.import_one db_rejects)
               journals st in
  let st0 := import_asm_journals.main db_rejects journals
               (import_asm_journals.db st) in
  import_asm_journals.db st' = import_asm_journals.db st0
  /\ import_asm_journals.imported st'
     = (import_asm_journals.imported st
        + import_asm_journals.imported st0)%nat
  /\ import_asm_journals.skipped st'
     = (import_asm_journals.skipped st + import_asm_journals.skipped st0)%nat
  /\ import_asm_journals.reported st'
     = import_asm_journals.reported st ++ import_asm_journals.reported st0.
Proof.
  unfold import_asm_journals.main. revert st.
  induction journals as [|j l IH]; intros st.
  - simpl. split_all; auto; try lia. now rewrite app_nil_r.
  - cbn [fold_left].
    set (z := {| import_asm_journals.db := import_asm_journals.db st;
                 import_asm_journals.imported := 0;
                 import_asm_journals.skipped := 0;
                 import_asm_journals.reported := [] |}).
    destruct (IH (import_asm_journals.import_one db_rejects st j))
      as (A1 & A2 & A3 & A4).
    destruct (IH (import_asm_journals.import_one db_rejects z j))
      as (B1 & B2 & B3 & B4).
    assert (E : import_asm_journals.db
                  (import_asm_journals.import_one db_rejects st j)
                = import_asm_journals.db
                    (import_asm_journals.import_one db_rejects z j)
                /\ import_asm_journals.imported
                     (import_asm_journals.import_one db_rejects st j)
                   = (import_asm_journals.imported st
                      + import_asm_journals.imported
                          (import_asm_journals.import_one db_rejects z j))%nat
                /\ import_asm_journals.skipped
                     (import_asm_journals.import_one db_rejects st j)
                   = (import_asm_journals.skipped st
                      + import_asm_journals.skipped
                          (import_asm_journals.import_one db_rejects z j))%nat
                /\ import_asm_journals.reported
                     (import_asm_journals.import_one db_rejects st j)
                   = import_asm_journals.reported st
                     ++ import_asm_journals.reported
                          (import_asm_journals.import_one db_rejects z j)).
    { unfold import_asm_journals.import_one. subst z. simpl.
      destruct (import_asm_journals.source_id j) as [[|ch sid]|]; simpl;
        try (split_all; auto; try lia; now rewrite app_nil_r).
      destruct (import_asm_journals.import_journal db_rejects j
                  (String ch sid) (import_asm_journals.db st))
        as [[[]|e] c1]; simpl;
        split_all; auto; try lia; now rewrite app_nil_r. }
    destruct E as (E1 & E2 & E3 & E4).
    rewrite A1, A2, A3, A4, B1, B2, B3, B4, E1, E2, E3, E4.
    split_all; auto; try lia. now rewrite app_assoc.
Qed.

(** X17: a journal one of whose steps fails costs the batch nothing but
    numbers of the sequences: [main] goes on as it would from the
    connection it had before the journal, with the sequences where the
    failed steps left them; the journal is counted as skipped and is the
    first one reported, with its title and the exception. *)
Theorem main_skips_failed_journal
    (j : import_asm_journals.journal_json)
    (rest : list import_asm_journals.journal_json) (c c1 : conn)
    (ch : ascii) (sid : string) (e : exn) :
  idle c ->
  import_asm_journals.source_id j = Some (String ch sid) ->
  import_asm_journals.import_journal db_rejects j (String ch sid) c
  = (Raise e, c1) ->
  let c' := {| committed := committed c; current := committed c;
               seqs := seqs c1; aborted := false |} in
  let st := import_asm_journals.main db_rejects (j :: rest) c in
  let st' := import_asm_journals.main db_rejects rest c' in
  import_asm_journals.db st = import_asm_journals.db st'
  /\ import_asm_journals.imported st = import_asm_journals.imported st'
  /\ import_asm_journals.skipped st = S (import_asm_journals.skipped st')
  /\ import_asm_journals.reported st
     = (import_asm_journals.title j, e) :: import_asm_journals.reported st'.
Proof.
  intros Hidle Hsid Hrun c' st st'.
  pose proof (import_journal_keeps db_rejects j _ _ _ _ Hrun) as K.
  subst st st'.
  set (st1 := import_asm_journals.import_one db_rejects
                {| import_asm_journals.db := c;
                   import_asm_journals.imported := 0;
                   import_asm_journals.skipped := 0;
                   import_asm_journals.reported := [] |} j).
  change (import_asm_journals.main db_rejects (j :: rest) c)
    with (fold_left (import_asm_journals.import_one db_rejects) rest st1).
  assert (E : st1 = {| import_asm_journals.db := c';
                       import_asm_journals.imported := 0;
                       import_asm_journals.skipped := 1;
                       import_asm_journals.reported :=
                         [(import_asm_journals.title j, e)] |}).
  { subst st1 c'. unfold import_asm_journals.import_one. simpl.
    rewrite Hsid, Hrun. unfold rollback. now rewrite K. }
  destruct (main_from rest st1) as (A1 & A2 & A3 & A4).
  rewrite A1, A2, A3, A4, E. simpl. auto.
Qed.

(** X18: a journal that goes through leaves the rows of every other
    journal as they were: the other rows of [journals], and the scope,
    the metrics, the ISSNs and the links to categories and to areas of
    any other journal id. *)
Theorem import_leaves_other_journals
    (j : import_asm_journals.journal_json) (sid : string) (c c' : conn)
    (other : Z) :
  aborted c = false ->
  import_asm_journals.import_journal db_rejects j sid c = (Ok tt, c') ->
  other <> journal_id_after sid (journals_id_seq (seqs c) + 1)
             (journals (current c)) ->
  filter (fun r => negb (String.eqb (source_id r) sid)) (journals (current c'))
  = filter (fun r => negb (String.eqb (source_id r) sid)) (journals (current c))
  /\ filter (fun r => (fst r =? other)%Z) (journal_scopes (current c'))
     = filter (fun r => (fst r =? other)%Z) (journal_scopes (current c))
  /\ filter (fun r => (fst r =? other)%Z) (journal_metrics (current c'))
     = filter (fun r => (fst r =? other)%Z) (journal_metrics (current c))
  /\ filter (fun r => (fst r =? other)%Z) (journal_issn (current c'))
     = filter (fun r => (fst r =? other)%Z) (journal_issn (current c))
  /\ filter (fun r => (fst (fst r) =? other)%Z)
       (journal_categories (current c'))
     = filter (fun r => (fst (fst r) =? other)%Z)
         (journal_categories (current c))
  /\ filter (fun r => (fst r =? other)%Z) (journal_areas (current c'))
     = filter (fun r => (fst r =? other)%Z) (journal_areas (current c)).
Proof.
  intros Hab Hrun Hother.
  destruct (import_journal_ok db_rejects j sid c c' Hrun Hab) as (Hi & _).
  destruct Hi as (v & m & d & a & lastd & lasta & H). cbv zeta in H.
  destruct H as (_ & _ & Hj & Hs & Hmt & Hi & _ & _ & Hjc & _ & _ & Hja & _).
  set (jid := journal_id_after sid (journals_id_seq (seqs c) + 1)
                (journals (current c))) in *.
  assert (N : (jid =? other)%Z = false) by (apply Z.eqb_neq; congruence).
  rewrite Hj, Hs, Hmt, Hi, Hjc, Hja. split_all.
  - rewrite journals_after_upsert.
    apply (filter_insert_or_update_other source_id String.eqb string_eqb_eq).
    + simpl. now rewrite String.eqb_refl.
    + intros x Hx. simpl in Hx. simpl. now rewrite Hx, String.eqb_refl.
  - destruct (import_asm_journals.scope j) as [[|ch text]|]; try reflexivity.
    apply (filter_insert_or_update_other fst Z.eqb Z_eqb_eq); [exact N|].
    intros x Hx. simpl in Hx. simpl. now rewrite Hx.
  - apply (filter_insert_or_update_other fst Z.eqb Z_eqb_eq); [exact N|].
    intros x Hx. simpl in Hx. simpl. now rewrite Hx.
  - apply filter_insert_all_other. intros r Hr. apply in_map_iff in Hr.
    destruct Hr as (i & <- & _). exact N.
  - apply (filter_upsert_all_other pair_eqb pair_eqb_eq
             (fun k => (fst k =? other)%Z)).
    intros kv Hkv. apply in_map_iff in Hkv. destruct Hkv as (x & <- & _).
    exact N.
  - apply filter_insert_all_other. intros r Hr. apply in_map_iff in Hr.
    destruct Hr as (i & <- & _). exact N.
Qed.

End ImporterBatch.

Section ImporterBatchRuns.
Import Py pg.

Lemma main_skips_failed_journal_witness :
  let st := import_asm_journals.main samples.quartile_checked
              [samples.mbio_bad_quartile; samples.jb_2024] samples.empty_db in
  import_asm_journals.imported st = 1%nat
  /\ import_asm_journals.skipped st = 1%nat
  /\ import_asm_journals.reported st = [(Some "mBio", DBError)].
Proof.
  cbv zeta.
  destruct (main_skips_failed_journal samples.quartile_checked
              samples.mbio_bad_quartile
              [samples.jb_2024] samples.empty_db
              (snd (import_asm_journals.import_journal
                      samples.quartile_checked samples.mbio_bad_quartile
                      "19700175176" samples.empty_db))
              "1" "9700175176" DBError)
    as (_ & A & B & C).
  - split; reflexivity.
  - reflexivity.
  - vm_compute. reflexivity.
  - rewrite A, B, C. split_all; vm_compute; reflexivity.
Defined.

Lemma main_counts_every_journal_witness :
  let st := import_asm_journals.main samples.quartile_checked
              [samples.jb_2024; samples.mbio_bad_quartile; samples.jb_later]
              samples.empty_db in
  (import_asm_journals.imported st + import_asm_journals.skipped st = 3)%nat
  /\ (length (import_asm_journals.reported st)
      <= import_asm_journals.skipped st)%nat
  /\ idle (import_asm_journals.db st).
Proof.
  apply (main_counts_every_journal samples.quartile_checked
           [samples.jb_2024; samples.mbio_bad_quartile; samples.jb_later]
           samples.empty_db).
  split; reflexivity.
Defined.

Lemma main_keeps_unique_keys_witness :
  unique_keys
    (committed (import_asm_journals.db
                  (import_asm_journals.main samples.accepts_all
                     [samples.jb_2024; samples.jb_later] samples.empty_db))).
Proof.
  apply (main_keeps_unique_keys samples.accepts_all
           [samples.jb_2024; samples.jb_later] samples.empty_db).
  - split; reflexivity.
  - unfold unique_keys. simpl. split_all; constructor.
Defined.

Lemma main_only_adds_witness :
  let c := import_asm_journals.db
             (import_asm_journals.main samples.accepts_all [samples.jb_2024]
                samples.empty_db) in
  only_adds (committed c)
    (committed (import_asm_journals.db
                  (import_asm_journals.main samples.accepts_all
                     [samples.mbio_bad_quartile; samples.jb_later] c))).
Proof.
  intros c.
  apply (main_only_adds samples.accepts_all
           [samples.mbio_bad_quartile; samples.jb_later] c).
  split; vm_compute; reflexivity.
Defined.

Lemma import_leaves_other_journals_witness :
  let c := import_asm_journals.db
             (import_asm_journals.main samples.accepts_all [samples.jb_2024]
                samples.empty_db) in
  let c' := snd (import_asm_journals.import_journal samples.accepts_all
                   samples.mbio_bad_quartile "19700175176" c) in
  filter (fun r => (fst r =? 1)%Z) (journal_metrics (current c'))
  = filter (fun r => (fst r =? 1)%Z) (journal_metrics (current c)).
Proof.
  intros c c'.
  refine (proj1 (proj2 (proj2 (import_leaves_other_journals
                                 samples.accepts_all samples.mbio_bad_quartile
                                 "19700175176" c c' 1%Z _ _ _)))).
  - reflexivity.
  - vm_compute. reflexivity.
  - vm_compute. discriminate.
Defined.

End ImporterBatchRuns.
(** ** [scrape_bmj_journals.insert_journal_to_db] *)

Section ScraperFacts.
Import Py pg.
Variable db_rejects : stmt -> bool.

Local Open Scope pg_scope.

Lemma upsert_journal_keeps (now : Z)
    (journal : scrape_bmj_journals.details) :
  keeps_committed (scrape_bmj_journals.upsert_journal db_rejects now journal).
Proof.
  unfold scrape_bmj_journals.upsert_journal.
  apply keeps_bind; [apply keeps_execute|intros existing].
  apply keeps_bind.
  { destruct existing as [jid|].
    - apply keeps_bind; [apply keeps_execute|intros _; apply keeps_ret].
    - apply keeps_execute_returning. }
  intros jid. apply keeps_bind.
  { destruct (scrape_bmj_journals.scope journal) as [[|ch text]|];
      try apply keeps_ret.
    apply keeps_bind; [apply keeps_execute|intros _; apply keeps_ret]. }
  intros _. apply keeps_bind; [apply keeps_execute|intros _; apply keeps_ret].
Qed.

Lemma select_map_same {R K : Type} (key : R -> K) (eqb : K -> K -> bool)
    (k : K) (g : R -> R) (t : list R) :
  (forall r, key (g r) = key r) ->
  select key eqb k (map g t) = option_map g (select key eqb k t).
Proof.
  intros H. induction t as [|r t IH]; [reflexivity|]. simpl.
  rewrite H. destruct (eqb (key r) k); [reflexivity|exact IH].
Qed.

(** A journal that goes through has its row in [journals], under its
    [source_id] and with the id that is returned. *)
Lemma upsert_journal_ok (now : Z) (journal : scrape_bmj_journals.details)
    (c c' : conn) (jid : Z) :
  scrape_bmj_journals.upsert_journal db_rejects now journal c = (Ok jid, c') ->
  aborted c' = false
  /\ exists row,
       select source_id String.eqb (scrape_bmj_journals.source_id journal)
         (journals (current c')) = Some row
       /\ id row = jid.
Proof.
  intros Hrun. unfold scrape_bmj_journals.upsert_journal in Hrun.
  apply bind_ok in Hrun. destruct Hrun as (existing & c1 & H1 & H).
  apply execute_ok in H1. destruct H1 as (_ & t1 & q1 & H1 & ->).
  simpl in H1. injection H1 as <- <- <-.
  apply bind_ok in H. destruct H as (jid' & c2 & H2 & H).
  set (sid := scrape_bmj_journals.source_id journal) in *.
  assert (S2 : exists row,
             select source_id String.eqb sid (journals (current c2)) = Some row
             /\ id row = jid').
  { destruct (select source_id String.eqb sid (journals (current c)))
      as [r|] eqn:E; simpl in H2.
    - apply bind_ok in H2. destruct H2 as (r2 & c3 & H2 & H3).
      apply ret_ok in H3. destruct H3 as [-> ->].
      apply execute_ok in H2. destruct H2 as (_ & t3 & q3 & H2 & ->).
      simpl in H2. injection H2 as <- _ _. simpl.
      unfold update. rewrite select_map_same.
      + rewrite E. simpl. rewrite Z.eqb_refl. eauto.
      + intros x. now destruct (id x =? id r)%Z.
    - apply execute_returning_ok in H2. destruct H2 as (_ & t3 & q3 & H2 & ->).
      simpl in H2.
      destruct (existsb _ (journals (current c))); [discriminate|].
      injection H2 as <- _ <-. simpl.
      rewrite select_app, E. simpl. fold sid. rewrite String.eqb_refl. eauto. }
  apply bind_ok in H. destruct H as ([] & c4 & H4 & H).
  assert (S4 : journals (current c4) = journals (current c2)).
  { destruct (scrape_bmj_journals.scope journal) as [[|ch text]|].
    - apply ret_ok in H4. now destruct H4 as [_ ->].
    - apply bind_ok in H4. destruct H4 as (r4 & c5 & H4 & H5).
      apply ret_ok in H5. destruct H5 as [_ ->].
      apply execute_ok in H4. destruct H4 as (_ & t5 & q5 & H4 & ->).
      simpl in H4. now injection H4 as <- _ _.
    - apply ret_ok in H4. now destruct H4 as [_ ->]. }
  apply bind_ok in H. destruct H as (r6 & c6 & H6 & H).
  apply ret_ok in H. destruct H as [-> ->].
  apply execute_ok in H6. destruct H6 as (_ & t6 & q6 & H6 & ->).
  simpl in H6. injection H6 as <- _ _. simpl. rewrite S4.
  split; [reflexivity|exact S2].
Qed.

(** X20: [insert_journal_to_db] writes a journal whole or not at all.
    Called between two transactions, it leaves the connection between
    two transactions; when it returns [None] the tables are as they
    were, and when it returns an id the committed tables have the row of
    the journal, under its [source_id] and with that id. *)
Theorem scraper_all_or_nothing (now : Z) (c : conn)
    (journal : scrape_bmj_journals.details) :
  idle c ->
  let r := scrape_bmj_journals.insert_journal_to_db db_rejects now c journal in
  idle (snd r)
  /\ match fst r with
     | None => committed (snd r) = committed c
     | Some jid =>
         exists row,
           select source_id String.eqb
             (scrape_bmj_journals.source_id journal)
             (journals (committed (snd r))) = Some row
           /\ id row = jid
     end.
Proof.
  intros Hidle r. subst r. unfold scrape_bmj_journals.insert_journal_to_db.
  destruct (scrape_bmj_journals.upsert_journal db_rejects now journal c)
    as [[jid|e] c'] eqn:Hrun; simpl.
  - destruct (upsert_journal_ok now journal c c' jid Hrun)
      as (Hab & row & Hrow).
    unfold commit. rewrite Hab. simpl. split; [split; reflexivity|].
    now exists row.
  - split; [split; reflexivity|].
    exact (upsert_journal_keeps now journal _ _ _ Hrun).
Qed.

(** A row found by its [source_id] is found by its id. *)
Lemma select_by_id (sid : string) (t : list journals_row) (r : journals_row) :
  select source_id String.eqb sid t = Some r ->
  select id Z.eqb (id r) t <> None.
Proof.
  intros H. apply (select_some source_id String.eqb string_eqb_eq) in H.
  destruct H as [Hin _].
  exact (select_in id Z.eqb Z_eqb_eq (id r) t r Hin eq_refl).
Qed.

Lemma stamp_found {R : Type} (found : option R) (k now : Z)
    (times : list (Z * Z)) :
  found <> None -> stamp found k now times = upsert Z.eqb k now times.
Proof. destruct found; [reflexivity|contradiction]. Qed.

(** The tables a journal that goes through leaves. *)
Lemma upsert_journal_into (now : Z) (journal : scrape_bmj_journals.details)
    (c c' : conn) (jid : Z) :
  scrape_bmj_journals.upsert_journal db_rejects now journal c = (Ok jid, c') ->
  scrape_bmj_journals.scraped_into journal now (current c) (seqs c) jid
    (current c')
  /\ aborted c' = false.
Proof.
  intros Hrun. unfold scrape_bmj_journals.upsert_journal in Hrun.
  apply bind_ok in Hrun. destruct Hrun as (existing & c1 & H1 & H).
  apply execute_ok in H1. destruct H1 as (_ & t1 & q1 & H1 & ->).
  simpl in H1. injection H1 as <- <- <-.
  apply bind_ok in H. destruct H as (jid' & c2 & H2 & H).
  apply bind_ok in H. destruct H as ([] & c4 & H4 & H).
  apply bind_ok in H. destruct H as (r6 & c6 & H6 & H).
  apply ret_ok in H. destruct H as [-> ->].
  apply execute_ok in H6. destruct H6 as (_ & t6 & q6 & H6 & ->).
  simpl in H6. injection H6 as <- _ _.
  assert (S4 : journals (current c4) = journals (current c2)
               /\ journal_scopes (current c4)
                  = match scrape_bmj_journals.scope journal with
                    | Some (String _ _ as text) =>
                        upsert Z.eqb jid' text (journal_scopes (current c2))
                    | _ => journal_scopes (current c2)
                    end
               /\ journal_metrics (current c4) = journal_metrics (current c2)
               /\ journal_issn (current c4) = journal_issn (current c2)
               /\ categories (current c4) = categories (current c2)
               /\ subject_areas (current c4) = subject_areas (current c2)
               /\ journal_categories (current c4)
                  = journal_categories (current c2)
               /\ journal_areas (current c4) = journal_areas (current c2)
               /\ journals_updated_at (current c4)
                  = journals_updated_at (current c2)
               /\ journal_metrics_updated_at (current c4)
                  = journal_metrics_updated_at (current c2)).
  { destruct (scrape_bmj_journals.scope journal) as [[|ch text]|].
    - apply ret_ok in H4. destruct H4 as [_ ->]. split_all; reflexivity.
    - apply bind_ok in H4. destruct H4 as (r4 & c5 & H4 & H5).
      apply ret_ok in H5. destruct H5 as [_ ->].
      apply execute_ok in H4. destruct H4 as (_ & t5 & q5 & H4 & ->).
      simpl in H4. injection H4 as <- _ _. split_all; reflexivity.
    - apply ret_ok in H4. destruct H4 as [_ ->]. split_all; reflexivity. }
  destruct S4 as (Sj & Ss & Sm & Si & Sc & Sa & Sjc & Sja & Sju & Smu).
  split; [|reflexivity].
  unfold scrape_bmj_journals.scraped_into. simpl.
  rewrite Sj, Ss, Sm, Si, Sc, Sa, Sjc, Sja, Sju, Smu.
  clear Sj Ss Sm Si Sc Sa Sjc Sja Sju Smu H4.
  destruct (select source_id String.eqb
              (scrape_bmj_journals.source_id journal) (journals (current c)))
    as [r|] eqn:E; simpl in H2.
  - apply bind_ok in H2. destruct H2 as (r2 & c3 & H2 & H3).
    apply ret_ok in H3. destruct H3 as [-> ->].
    apply execute_ok in H2. destruct H2 as (_ & t3 & q3 & H2 & ->).
    simpl in H2. injection H2 as <- _ _. simpl.
    rewrite (stamp_found _ _ _ _ (select_by_id _ _ _ E)).
    split_all; reflexivity.
  - apply execute_returning_ok in H2. destruct H2 as (_ & t3 & q3 & H2 & ->).
    simpl in H2.
    destruct (existsb _ (journals (current c))) eqn:X; [discriminate|].
    injection H2 as <- _ <-. simpl. split_all; try reflexivity.
    apply not_true_is_false. intros Y. apply existsb_exists in Y.
    destruct Y as (x & Hx & Y).
    assert (Z : existsb
                  (fun r => (id r =? journals_id_seq (seqs c) + 1)%Z
                            || String.eqb (source_id r)
                                 (scrape_bmj_journals.source_id journal))
                  (journals (current c)) = true).
    { apply existsb_exists. exists x. split; [exact Hx|]. now rewrite Y. }
    congruence.
Qed.

Lemma update_absent {R K : Type} (key : R -> K) (eqb : K -> K -> bool)
    (k : K) (f : R -> R) (t : list R) :
  existsb (fun r => eqb (key r) k) t = false -> update key eqb k f t = t.
Proof.
  induction t as [|r t IH]; [reflexivity|]. simpl. intros H.
  apply orb_false_iff in H. destruct H as [-> H]. now rewrite (IH H).
Qed.

Lemma merged_metrics_idem (journal : scrape_bmj_journals.details)
    (x : Z * metrics_values) :
  scrape_bmj_journals.merged_metrics journal
    (scrape_bmj_journals.merged_metrics journal x)
  = scrape_bmj_journals.merged_metrics journal x.
Proof.
  unfold scrape_bmj_journals.merged_metrics. simpl.
  now destruct (scrape_bmj_journals.sjr journal),
    (scrape_bmj_journals.sjr_quartile journal),
    (scrape_bmj_journals.h_index journal).
Qed.

Lemma merged_first_metrics (journal : scrape_bmj_journals.details) (jid : Z) :
  scrape_bmj_journals.merged_metrics journal
    (scrape_bmj_journals.first_metrics journal jid)
  = scrape_bmj_journals.first_metrics journal jid.
Proof.
  unfold scrape_bmj_journals.merged_metrics,
    scrape_bmj_journals.first_metrics. simpl.
  now destruct (scrape_bmj_journals.sjr journal),
    (scrape_bmj_journals.sjr_quartile journal),
    (scrape_bmj_journals.h_index journal).
Qed.

(** The same journal once more has the same id, and leaves the tables as
    they are but for the two [updated_at]. *)
Lemma scraped_twice (journal : scrape_bmj_journals.details) (now now' : Z)
    (t t1 t2 : tables) (q q1 : sequences) (jid jid' : Z) :
  scrape_bmj_journals.scraped_into journal now t q jid t1 ->
  scrape_bmj_journals.scraped_into journal now' t1 q1 jid' t2 ->
  jid' = jid /\ t2 = scrape_bmj_journals.touched jid now' t1.
Proof.
  unfold scrape_bmj_journals.scraped_into.
  set (sid := scrape_bmj_journals.source_id journal).
  set (f := scrape_bmj_journals.updated_row journal).
  intros (Hj & Hmu & Hs & Hm & Hi & Hc & Ha & Hjc & Hja)
         (Hj' & Hmu' & Hs' & Hm' & Hi' & Hc' & Ha' & Hjc' & Hja').
  assert (J : jid' = jid /\ journals t2 = journals t1
              /\ journals_updated_at t2
                 = upsert Z.eqb jid now' (journals_updated_at t1)).
  { destruct (select source_id String.eqb sid (journals t)) as [r|] eqn:E.
    - destruct Hj as (-> & Hj & _). rewrite Hj in Hj'.
      unfold update in Hj' at 1.
      rewrite (select_map_same source_id String.eqb sid) in Hj'
        by (intros x; now destruct (id x =? id r)%Z).
      rewrite E in Hj'. simpl in Hj'. rewrite Z.eqb_refl in Hj'.
      destruct Hj' as (-> & Hj' & Hju'). split; [reflexivity|].
      split; [|exact Hju'].
      rewrite Hj', Hj. simpl id.
      apply (update_update id Z.eqb Z_eqb_eq).
      * intros x Hx. exact Hx.
      * reflexivity.
    - destruct Hj as (-> & X & Hj & _). rewrite Hj in Hj'.
      rewrite select_app, E in Hj'. simpl in Hj'. fold sid in Hj'.
      rewrite String.eqb_refl in Hj'. destruct Hj' as (-> & Hj' & Hju').
      split; [reflexivity|]. split; [|exact Hju'].
      rewrite Hj', Hj. simpl id.
      unfold update. rewrite map_app. fold (update id Z.eqb
        (journals_id_seq q + 1)%Z f (journals t)).
      rewrite (update_absent id Z.eqb _ f _ X). simpl.
      now rewrite Z.eqb_refl. }
  destruct J as (-> & J & Ju). split; [reflexivity|].
  assert (P : select fst Z.eqb jid (journal_metrics t1) <> None).
  { rewrite Hm.
    apply (select_insert_or_update fst Z.eqb Z_eqb_eq
             (scrape_bmj_journals.first_metrics journal jid)).
    intros x Hx. exact Hx. }
  rewrite (stamp_found _ _ _ _ P) in Hmu'.
  apply tables_ext; unfold scrape_bmj_journals.touched; simpl;
    try congruence.
  - rewrite Hs', Hs.
    destruct (scrape_bmj_journals.scope journal) as [[|ch text]|];
      try reflexivity.
    apply upsert_twice.
  - rewrite Hm', Hm.
    apply (insert_or_update_twice fst Z.eqb Z_eqb_eq).
    + reflexivity.
    + intros x Hx. exact Hx.
    + intros x _. apply merged_metrics_idem.
    + apply merged_first_metrics.
Qed.

(** X21: [insert_journal_to_db] called once more with the same record
    changes nothing but [updated_at].  The second call, at the time
    [now'], returns the same id and leaves the tables of the first call,
    with [updated_at] set to [now'] in the row of the journal and in its
    metrics row; or it fails, returns [None] and leaves the tables of
    the first call as they are. *)
Theorem scraper_twice (now now' : Z) (c : conn)
    (journal : scrape_bmj_journals.details) (jid : Z) :
  idle c ->
  fst (scrape_bmj_journals.insert_journal_to_db db_rejects now c journal)
  = Some jid ->
  let c1 := snd (scrape_bmj_journals.insert_journal_to_db db_rejects now c
                   journal) in
  let again := scrape_bmj_journals.insert_journal_to_db db_rejects now' c1
                 journal in
  (fst again = Some jid
   /\ committed (snd again)
      = scrape_bmj_journals.touched jid now' (committed c1))
  \/ (fst again = None /\ committed (snd again) = committed c1).
Proof.
  intros Hidle Hfst c1 again. subst again c1.
  unfold scrape_bmj_journals.insert_journal_to_db in *.
  destruct (scrape_bmj_journals.upsert_journal db_rejects now journal c)
    as [[jid1|e] c'] eqn:Hrun; [|discriminate Hfst].
  simpl in Hfst. injection Hfst as ->. simpl snd.
  destruct (upsert_journal_into now journal c c' jid Hrun) as (Hinto & Hab).
  assert (C : commit c' = {| committed := current c'; current := current c';
                             seqs := seqs c'; aborted := false |})
    by (unfold commit; now rewrite Hab).
  rewrite C. clear C.
  set (c1 := {| committed := current c'; current := current c';
                seqs := seqs c'; aborted := false |}).
  destruct (scrape_bmj_journals.upsert_journal db_rejects now' journal c1)
    as [[jid2|e] c2] eqn:Hrun2; simpl.
  - left.
    destruct (upsert_journal_into now' journal c1 c2 jid2 Hrun2)
      as (Hinto2 & Hab2).
    simpl in Hinto2.
    destruct (scraped_twice journal _ _ _ _ _ _ _ _ _ Hinto Hinto2) as [-> E].
    unfold commit. rewrite Hab2. simpl. split; [reflexivity|exact E].
  - right. split; [reflexivity|].
    exact (upsert_journal_keeps now' journal _ _ _ Hrun2).
Qed.

(** X22: the scraper takes nothing away from a journal that was
    imported.  A journal whose [source_id] is in [journals] keeps its
    row and its id, with the [coverage] and the [scimago_rank] it had
    and the title, publisher, country and open-access flag of the
    record; and no ISSN, category, area or link of any journal is
    changed. *)
Theorem scraper_keeps_imported_data (now : Z)
    (journal : scrape_bmj_journals.details)
    (c c' : conn) (jid : Z) (row : journals_row) :
  scrape_bmj_journals.upsert_journal db_rejects now journal c = (Ok jid, c') ->
  select source_id String.eqb (scrape_bmj_journals.source_id journal)
    (journals (current c)) = Some row ->
  jid = id row
  /\ (exists row',
        select source_id String.eqb (scrape_bmj_journals.source_id journal)
          (journals (current c')) = Some row'
        /\ id row' = id row
        /\ coverage (vals row') = coverage (vals row)
        /\ scimago_rank (vals row') = scimago_rank (vals row)
        /\ title (vals row') = Some (scrape_bmj_journals.title journal)
        /\ publisher (vals row') = Some (scrape_bmj_journals.publisher journal)
        /\ country (vals row') = scrape_bmj_journals.country journal
        /\ open_access (vals row')
           = Some (scrape_bmj_journals.open_access journal))
  /\ journal_issn (current c') = journal_issn (current c)
  /\ categories (current c') = categories (current c)
  /\ subject_areas (current c') = subject_areas (current c)
  /\ journal_categories (current c') = journal_categories (current c)
  /\ journal_areas (current c') = journal_areas (current c).
Proof.
  intros Hrun Hrow.
  destruct (upsert_journal_into now journal c c' jid Hrun) as (Hinto & _).
  unfold scrape_bmj_journals.scraped_into in Hinto. rewrite Hrow in Hinto.
  destruct Hinto as ((-> & Hj & _) & _ & _ & _ & Hi & Hc & Ha & Hjc & Hja).
  split; [reflexivity|]. split; [|auto].
  exists (scrape_bmj_journals.updated_row journal row).
  split; [|split_all; reflexivity].
  rewrite Hj. unfold update.
  rewrite (select_map_same source_id String.eqb)
    by (intros x; now destruct (id x =? id row)%Z).
  rewrite Hrow. simpl. now rewrite Z.eqb_refl.
Qed.

End ScraperFacts.

Section ScraperRuns.
Import Py pg.

Lemma scraper_all_or_nothing_witness :
  let r := scrape_bmj_journals.insert_journal_to_db samples.accepts_all
             samples.first_run samples.empty_db samples.scraped_2024 in
  fst r = Some 1%Z /\ idle (snd r).
Proof.
  intros r.
  destruct (scraper_all_or_nothing samples.accepts_all samples.first_run
              samples.empty_db samples.scraped_2024) as (Hidle & _).
  - split; reflexivity.
  - split; [vm_compute; reflexivity|exact Hidle].
Defined.

Lemma scraper_twice_witness :
  let c1 := snd (scrape_bmj_journals.insert_journal_to_db samples.accepts_all
                   samples.first_run samples.empty_db samples.scraped_2024) in
  let again := scrape_bmj_journals.insert_journal_to_db samples.accepts_all
                 samples.second_run c1 samples.scraped_2024 in
  journals (committed (snd again)) = journals (committed c1)
  /\ journal_metrics (committed (snd again)) = journal_metrics (committed c1)
  /\ journals_updated_at (committed c1) = []
  /\ journals_updated_at (committed (snd again)) = [(1%Z, samples.second_run)]
  /\ journal_metrics_updated_at (committed (snd again))
     = [(1%Z, samples.second_run)].
Proof.
  intros c1 again.
  destruct (scraper_twice samples.accepts_all samples.first_run
              samples.second_run samples.empty_db samples.scraped_2024 1%Z)
    as [[_ E]|[N _]].
  - split; reflexivity.
  - vm_compute. reflexivity.
  - fold c1 again in E. rewrite E. split_all; vm_compute; reflexivity.
  - fold c1 again in N. vm_compute in N. discriminate N.
Defined.

Lemma scraper_keeps_imported_data_witness :
  let c := import_asm_journals.db
             (import_asm_journals.main samples.accepts_all [samples.jb_2024]
                samples.empty_db) in
  let c' := snd (scrape_bmj_journals.upsert_journal samples.accepts_all
                   samples.first_run samples.scraped_jb c) in
  journal_issn (current c') = journal_issn (current c)
  /\ journal_categories (current c') = journal_categories (current c).
Proof.
  intros c c'.
  destruct (scraper_keeps_imported_data samples.accepts_all samples.first_run
              samples.scraped_jb c c' 1%Z
              {| id := 1; source_id := "20062";
                 vals := {| title := Some "Journal of Bacteriology";
                            publisher :=
                              Some "American Society for Microbiology";
                            country := Some "United States";
                            open_access := Some false;
                            coverage := Some "1916-2025";
                            scimago_rank := Some 3180%Z |} |})
    as (_ & _ & Hi & _ & _ & Hjc & _).
  - vm_compute. reflexivity.
  - vm_compute. reflexivity.
  - split; [exact Hi|exact Hjc].
Defined.

End ScraperRuns.
(** ** [import_from_json.import_database] *)

Section RestoreFacts.
Import Py pg.
Variable db_rejects : stmt -> bool.

Local Open Scope pg_scope.

(** The first two steps leave an empty database, whatever there was. *)
Lemma truncate_then {A : Type} (k : M A) (c : conn) :
  aborted c = false -> db_rejects Truncate = false ->
  (execute db_rejects Truncate ;;; import_from_json.do_commit ;;; k) c
  = k samples.empty_db.
Proof.
  intros Hc Hr. unfold bind, execute, import_from_json.do_commit, commit.
  rewrite Hc, Hr. reflexivity.
Qed.

(** X23: the restore replaces what the database holds.  On a schema
    that lets the [TRUNCATE] through, [import_database] returns the same
    and leaves the same tables and sequences whatever the database held
    before. *)
Theorem restore_ignores_previous_content (data : import_from_json.export)
    (c1 c2 : conn) :
  aborted c1 = false -> aborted c2 = false ->
  db_rejects Truncate = false ->
  import_from_json.import_database db_rejects data c1
  = import_from_json.import_database db_rejects data c2.
Proof.
  intros H1 H2 Hr. unfold import_from_json.import_database.
  now rewrite (truncate_then _ c1 H1 Hr), (truncate_then _ c2 H2 Hr).
Qed.

Lemma fold_max_ge (rest : list Z) (i : Z) :
  (i <= fold_left Z.max rest i)%Z
  /\ Forall (fun x => (x <= fold_left Z.max rest i)%Z) rest.
Proof.
  revert i. induction rest as [|x rest IH]; intros i; simpl.
  - split; [lia|constructor].
  - destruct (IH (Z.max i x)) as [A B]. split; [lia|].
    constructor; [lia|exact B].
Qed.

Lemma max_id_bound (l : list Z) (m : Z) :
  max_id l = Some m -> Forall (fun x => (x <= m)%Z) l.
Proof.
  destruct l as [|i rest]; [constructor|]. simpl. intros [= <-].
  destruct (fold_max_ge rest i) as [A B]. now constructor.
Qed.

Lemma max_id_none (l : list Z) : max_id l = None -> l = [].
Proof. destruct l; [reflexivity|discriminate]. Qed.

Lemma Forall_map_iff {A B : Type} (f : A -> B) (P : B -> Prop) (l : list A) :
  Forall P (map f l) <-> Forall (fun x => P (f x)) l.
Proof.
  induction l as [|x l IH]; simpl; split; intros H; try constructor;
    inversion H; subst; try apply IH; auto.
Qed.

(** *** What the loops leave alone *)

Lemma keeps_view_ret {A X : Type} (g : conn -> X) (a : A) : keeps g (ret a).
Proof. intros c r c' [= _ <-]. reflexivity. Qed.

Lemma keeps_view_raise {A X : Type} (g : conn -> X) (e : exn) :
  keeps g (@raise A e).
Proof. intros c r c' [= _ <-]. reflexivity. Qed.

Lemma keeps_view_bind {A B X : Type} (g : conn -> X) (m : M A)
    (f : A -> M B) :
  keeps g m -> (forall a, keeps g (f a)) -> keeps g (bind m f).
Proof.
  intros Hm Hf c r c'. unfold bind.
  destruct (m c) as [[a|e] c1] eqn:E.
  - intros H. rewrite (Hf a _ _ _ H). exact (Hm _ _ _ E).
  - intros [= _ <-]. exact (Hm _ _ _ E).
Qed.

Lemma keeps_view_for_each {A X : Type} (g : conn -> X) (l : list A)
    (body : A -> M unit) :
  (forall a, keeps g (body a)) -> keeps g (for_each l body).
Proof.
  intros H. induction l as [|x l IH]; simpl.
  - apply keeps_view_ret.
  - apply keeps_view_bind; [apply H|intros _; exact IH].
Qed.

(** A statement keeps a view of the transaction's tables and of the
    sequences that its effect keeps. *)
Lemma keeps_view_execute {X : Type} (g : tables -> sequences -> X) (s : stmt) :
  (forall q, drawn s q = q) ->
  (forall t q t' q' r,
     apply_stmt s t q = Some (t', q', r) -> g t' q' = g t q) ->
  keeps (fun c => g (current c) (seqs c)) (execute db_rejects s).
Proof.
  intros D H c r c'. unfold execute.
  destruct (aborted c); [now intros [= _ <-]|].
  destruct (db_rejects s); [intros [= _ <-]; simpl; now rewrite D|].
  destruct (apply_stmt s (current c) (seqs c)) as [[[t q] x]|] eqn:E.
  - intros [= _ <-]. simpl. exact (H _ _ _ _ _ E).
  - intros [= _ <-]. simpl. now rewrite D.
Qed.

(** The names and their sequences, as the transaction sees them. *)
Lemma journal_loop_keeps_names (l : list import_from_json.journal_json)
    (n : nat) (rep : list (option string * exn)) :
  keeps (fun c => (categories (current c), subject_areas (current c),
                   categories_id_seq (seqs c), subject_areas_id_seq (seqs c)))
    (import_from_json.import_journals db_rejects l n rep).
Proof.
  set (g := fun (t : tables) (q : sequences) =>
              (categories t, subject_areas t, categories_id_seq q,
               subject_areas_id_seq q)).
  assert (J : forall j, keeps (fun c => g (current c) (seqs c))
                          (import_from_json.import_journal db_rejects j)).
  { intros j. unfold import_from_json.import_journal.
    apply keeps_view_bind.
    { apply keeps_view_execute; [reflexivity|]. intros t q t' q' r. simpl.
      destruct (existsb _ (journals t)); [discriminate|].
      now intros [= <- <- _]. }
    intros _. apply keeps_view_bind.
    { destruct (import_from_json.scope_text j) as [[|ch text]|];
        try apply keeps_view_ret.
      apply keeps_view_bind; [|intros _; apply keeps_view_ret].
      apply keeps_view_execute; [reflexivity|]. intros t q t' q' r. simpl.
      now intros [= <- <- _]. }
    intros _. apply keeps_view_bind.
    { apply keeps_view_execute; [reflexivity|]. intros t q t' q' r. simpl.
      now intros [= <- <- _]. }
    intros _. apply keeps_view_bind.
    { apply keeps_view_for_each. intros i.
      apply keeps_view_bind; [|intros _; apply keeps_view_ret].
      apply keeps_view_execute; [reflexivity|]. intros t q t' q' r. simpl.
      now intros [= <- <- _]. }
    intros _. apply keeps_view_bind.
    { apply keeps_view_for_each. intros cat.
      unfold import_from_json.link_category.
      apply keeps_view_bind.
      { destruct (fst cat); [apply keeps_view_ret|apply keeps_view_raise]. }
      intros name. apply keeps_view_bind.
      { apply keeps_view_execute; [reflexivity|]. intros t q t' q' r. simpl.
        now intros [= <- <- _]. }
      intros [cid|]; [|apply keeps_view_ret].
      apply keeps_view_bind; [|intros _; apply keeps_view_ret].
      apply keeps_view_execute; [reflexivity|]. intros t q t' q' r. simpl.
      now intros [= <- <- _]. }
    intros _. apply keeps_view_for_each. intros a.
    unfold import_from_json.link_area.
    apply keeps_view_bind.
    { apply keeps_view_execute; [reflexivity|]. intros t q t' q' r. simpl.
      now intros [= <- <- _]. }
    intros [aid|]; [|apply keeps_view_ret].
    apply keeps_view_bind; [|intros _; apply keeps_view_ret].
    apply keeps_view_execute; [reflexivity|]. intros t q t' q' r. simpl.
    now intros [= <- <- _]. }
  revert n rep. induction l as [|j l IH]; intros n rep; simpl.
  - apply keeps_view_ret.
  - intros c r c'.
    destruct (import_from_json.import_journal db_rejects j c)
      as [[u|e] c1] eqn:E; intros H.
    + rewrite (IH _ _ _ _ _ H). exact (J j _ _ _ E).
    + rewrite (IH _ _ _ _ _ H). exact (J j _ _ _ E).
Qed.

Lemma category_loop_keeps_areas (l : list (Z * string)) :
  keeps (fun c => (subject_areas (current c), subject_areas_id_seq (seqs c)))
    (for_each l
       (fun a => execute db_rejects (InsertCategoryWithId (fst a) (snd a)) ;;;
                 ret tt)).
Proof.
  apply keeps_view_for_each. intros a.
  apply keeps_view_bind; [|intros _; apply keeps_view_ret].
  apply (keeps_view_execute
           (fun t q => (subject_areas t, subject_areas_id_seq q)));
    [reflexivity|].
  intros t q t' q' r. simpl.
  destruct (existsb _ (categories t)); [discriminate|].
  now intros [= <- <- _].
Qed.

Lemma commit_clean (c : conn) :
  aborted c = false ->
  commit c = {| committed := current c; current := current c;
                seqs := seqs c; aborted := false |}.
Proof. intros H. unfold commit. now rewrite H. Qed.

Lemma do_commit_ok (c c' : conn) (u : unit) :
  import_from_json.do_commit c = (Ok u, c') -> c' = commit c.
Proof. now intros [= _ <-]. Qed.

Lemma ahead_of_max {R : Type} (key : R -> Z) (t : list R) (old : Z) :
  Forall (fun r => (key r <= match max_id (map key t) with
                             | Some m => m
                             | None => old
                             end)%Z) t.
Proof.
  destruct (max_id (map key t)) as [m|] eqn:E.
  - apply max_id_bound in E.
    exact (proj1 (Forall_map_iff key (fun x => (x <= m)%Z) t) E).
  - apply max_id_none in E. destruct t; [constructor|discriminate].
Qed.

(** X24: a restore that ends normally leaves the connection between two
    transactions and every sequence at or above the ids of its table, so
    that the next journal, category or area inserted takes an id of its
    own. *)
Theorem restore_leaves_sequences_ahead (data : import_from_json.export)
    (c c' : conn) (summary : nat * list (option string * exn)) :
  import_from_json.import_database db_rejects data c = (Ok summary, c') ->
  idle c' /\ seqs_ahead (committed c') (seqs c').
Proof.
  intros H. unfold import_from_json.import_database in H.
  apply bind_ok in H. destruct H as (a1 & s1 & _ & H).
  apply bind_ok in H. destruct H as (a2 & s2 & _ & H).
  apply bind_ok in H. destruct H as (a3 & s3 & _ & H).
  apply bind_ok in H. destruct H as (a4 & s4 & H4 & H).
  apply bind_ok in H. destruct H as (a5 & s5 & H5 & H).
  apply bind_ok in H. destruct H as (a6 & s6 & H6 & H).
  apply bind_ok in H. destruct H as (a7 & s7 & H7 & H).
  apply bind_ok in H. destruct H as (a8 & s8 & H8 & H).
  apply bind_ok in H. destruct H as (a9 & s9 & H9 & H).
  apply bind_ok in H. destruct H as (a10 & s10 & H10 & H).
  apply bind_ok in H. destruct H as (a11 & s11 & H11 & H).
  apply ret_ok in H. destruct H as [_ ->].
  (* the areas *)
  apply execute_ok in H4. destruct H4 as (_ & t4 & q4 & E4 & ->).
  simpl in E4. injection E4 as <- <- _.
  apply do_commit_ok in H5. rewrite commit_clean in H5 by reflexivity.
  simpl in H5.
  pose proof (category_loop_keeps_areas _ _ _ _ H6) as K6. simpl in K6.
  (* the categories *)
  apply execute_ok in H7. destruct H7 as (_ & t7 & q7 & E7 & ->).
  simpl in E7. injection E7 as <- <- _.
  apply do_commit_ok in H8. rewrite commit_clean in H8 by reflexivity.
  simpl in H8.
  pose proof (journal_loop_keeps_names _ _ _ _ _ _ H9) as K9. simpl in K9.
  (* the journals *)
  apply execute_ok in H10. destruct H10 as (_ & t10 & q10 & E10 & ->).
  simpl in E10. injection E10 as <- <- _.
  apply do_commit_ok in H11. rewrite commit_clean in H11 by reflexivity.
  simpl in H11. subst s11. simpl. split; [split; reflexivity|].
  injection K9 as Kc Ka Kcq Kaq. subst s8. simpl in Kc, Ka, Kcq, Kaq.
  injection K6 as Ka6 Kaq6. subst s5. simpl in Ka6, Kaq6.
  unfold seqs_ahead. split_all.
  - pose proof (ahead_of_max id (journals (current s9))
                  (journals_id_seq (seqs s9))) as A.
    destruct (max_id (map id (journals (current s9)))); exact A.
  - assert (Q : categories_id_seq
                  match max_id (map id (journals (current s9))) with
                  | Some m =>
                      {| journals_id_seq := m;
                         categories_id_seq := categories_id_seq (seqs s9);
                         subject_areas_id_seq :=
                           subject_areas_id_seq (seqs s9) |}
                  | None => seqs s9
                  end = categories_id_seq (seqs s9))
      by now destruct (max_id (map id (journals (current s9)))).
    rewrite Q, Kc, Kcq.
    pose proof (ahead_of_max fst (categories (current s6))
                  (categories_id_seq (seqs s6))) as A.
    destruct (max_id (map fst (categories (current s6)))); exact A.
  - assert (Q : subject_areas_id_seq
                  match max_id (map id (journals (current s9))) with
                  | Some m =>
                      {| journals_id_seq := m;
                         categories_id_seq := categories_id_seq (seqs s9);
                         subject_areas_id_seq :=
                           subject_areas_id_seq (seqs s9) |}
                  | None => seqs s9
                  end = subject_areas_id_seq (seqs s9))
      by now destruct (max_id (map id (journals (current s9)))).
    rewrite Q, Ka, Kaq.
    assert (Q' : subject_areas_id_seq
                   match max_id (map fst (categories (current s6))) with
                   | Some m =>
                       {| journals_id_seq := journals_id_seq (seqs s6);
                          categories_id_seq := m;
                          subject_areas_id_seq :=
                            subject_areas_id_seq (seqs s6) |}
                   | None => seqs s6
                   end = subject_areas_id_seq (seqs s6))
      by now destruct (max_id (map fst (categories (current s6)))).
    rewrite Q', Ka6, Kaq6.
    pose proof (ahead_of_max fst (subject_areas (current s3))
                  (subject_areas_id_seq (seqs s3))) as A.
    destruct (max_id (map fst (subject_areas (current s3)))); exact A.
Qed.

End RestoreFacts.

Section RestoreRuns.
Import Py pg.

Lemma restore_ignores_previous_content_witness :
  import_from_json.import_database samples.accepts_all
    samples.export_nameless_category
    (import_asm_journals.db
       (import_asm_journals.main samples.accepts_all [samples.jb_2024]
          samples.empty_db))
  = import_from_json.import_database samples.accepts_all
      samples.export_nameless_category samples.empty_db.
Proof.
  apply (restore_ignores_previous_content samples.accepts_all); reflexivity.
Defined.

Lemma restore_leaves_sequences_ahead_witness :
  let c' := snd (import_from_json.import_database samples.accepts_all
                   samples.export_nameless_category samples.empty_db) in
  idle c' /\ seqs_ahead (committed c') (seqs c').
Proof.
  intros c'.
  apply (restore_leaves_sequences_ahead samples.accepts_all
           samples.export_nameless_category samples.empty_db c'
           (1%nat, [(Some "BMJ", KeyError)])).
  vm_compute. reflexivity.
Defined.

End RestoreRuns.
(** ** When the importer goes through *)

Section ImporterSuccess.
Import Py pg.
Variable db_rejects : stmt -> bool.
Hypothesis accepts : forall s, db_rejects s = false.

Local Open Scope pg_scope.

Lemma runs_ret {A : Type} (inv : conn -> Prop) (a : A) : runs inv (ret a).
Proof. intros c H. now exists a, c. Qed.

Lemma runs_bind {A B : Type} (inv : conn -> Prop) (m : M A) (f : A -> M B) :
  runs inv m -> (forall a, runs inv (f a)) -> runs inv (bind m f).
Proof.
  intros Hm Hf c H. destruct (Hm c H) as (a & c1 & E & H1).
  destruct (Hf a c1 H1) as (b & c2 & E2 & H2).
  exists b, c2. unfold bind. now rewrite E.
Qed.

Lemma runs_for_each {A : Type} (inv : conn -> Prop) (l : list A)
    (body : A -> M unit) :
  (forall a, runs inv (body a)) -> runs inv (for_each l body).
Proof.
  intros H. induction l as [|x l IH]; simpl.
  - apply runs_ret.
  - apply runs_bind; [apply H|intros _; exact IH].
Qed.

Lemma runs_lift {A : Type} (inv : conn -> Prop) (r : result A) (a : A) :
  r = Ok a -> runs inv (lift r).
Proof. intros -> c H. now exists a, c. Qed.

Lemma runs_execute (s : stmt) :
  (forall t q, seqs_ahead t q ->
     exists t' q' r, apply_stmt s t q = Some (t', q', r) /\ seqs_ahead t' q') ->
  runs ready (execute db_rejects s).
Proof.
  intros H c [Hab Hs]. destruct (H _ _ Hs) as (t' & q' & r & E & Hs').
  exists r, (with_current c t' q'). unfold execute.
  rewrite Hab, accepts, E. split; [reflexivity|]. now split.
Qed.

Lemma runs_execute_returning (s : stmt) :
  (forall t q, seqs_ahead t q ->
     exists t' q' i,
       apply_stmt s t q = Some (t', q', Some i) /\ seqs_ahead t' q') ->
  runs ready (execute_returning db_rejects s).
Proof.
  intros H c [Hab Hs]. destruct (H _ _ Hs) as (t' & q' & i & E & Hs').
  exists i, (with_current c t' q'). unfold execute_returning, bind, execute.
  rewrite Hab, accepts, E. split; [reflexivity|]. now split.
Qed.

Lemma no_id_ahead {R : Type} (key : R -> Z) (t : list R) (last : Z) :
  Forall (fun r => (key r <= last)%Z) t ->
  existsb (fun r => (key r =? last + 1)%Z) t = false.
Proof.
  induction 1 as [|r t Hr Ht IH]; [reflexivity|]. simpl. rewrite IH.
  replace (key r =? last + 1)%Z with false; [reflexivity|].
  symmetry. apply Z.eqb_neq. lia.
Qed.

Lemma ahead_step {R : Type} (key : R -> Z) (t : list R) (last : Z) :
  Forall (fun r => (key r <= last)%Z) t ->
  Forall (fun r => (key r <= last + 1)%Z) t.
Proof. apply Forall_impl. intros r. lia. Qed.

Lemma upsert_journal_ahead (sid : string) (v : journal_values)
    (t : tables) (q : sequences) :
  seqs_ahead t q ->
  exists t' q' i,
    apply_stmt (UpsertJournal sid v) t q = Some (t', q', Some i)
    /\ seqs_ahead t' q'.
Proof.
  intros (Hj & Hc & Ha). cbn [apply_stmt].
  assert (A : Forall (fun r => (id r <= journals_id_seq q + 1)%Z)
                (journals_after sid v (journals_id_seq q + 1) (journals t))).
  { unfold journals_after.
    destruct (select source_id String.eqb sid (journals t)).
    - apply (Forall_map_iff id (fun x => (x <= journals_id_seq q + 1)%Z)).
      rewrite (update_map_inv source_id String.eqb string_eqb_eq id)
        by reflexivity.
      apply Forall_map_iff. now apply ahead_step.
    - apply Forall_app. split; [now apply ahead_step|].
      constructor; [simpl; lia|constructor]. }
  destruct (select source_id String.eqb sid (journals t)) as [r|].
  - eexists _, _, _. split; [reflexivity|]. now split.
  - rewrite (no_id_ahead id _ _ Hj).
    eexists _, _, _. split; [reflexivity|]. now split.
Qed.

Lemma resolve_or_create_ahead (name : string) (d : list (Z * string))
    (last : Z) :
  Forall (fun r => (fst r <= last)%Z) d ->
  exists d' i,
    resolve_or_create name d last = Some (d', (last + 1)%Z, i)
    /\ Forall (fun r => (fst r <= last + 1)%Z) d'.
Proof.
  intros H. unfold resolve_or_create.
  destruct (select snd String.eqb name d) as [r|].
  - eexists _, _. split; [reflexivity|]. now apply ahead_step.
  - unfold has_id. rewrite (no_id_ahead fst _ _ H).
    eexists _, _. split; [reflexivity|].
    apply Forall_app. split; [now apply ahead_step|].
    constructor; [simpl; lia|constructor].
Qed.

Lemma upsert_category_ahead (name : string) (t : tables) (q : sequences) :
  seqs_ahead t q ->
  exists t' q' i,
    apply_stmt (UpsertCategory name) t q = Some (t', q', Some i)
    /\ seqs_ahead t' q'.
Proof.
  intros (Hj & Hc & Ha). cbn [apply_stmt].
  destruct (resolve_or_create_ahead name _ _ Hc) as (d' & i & -> & H).
  eexists _, _, _. split; [reflexivity|]. now split.
Qed.

Lemma upsert_area_ahead (name : string) (t : tables) (q : sequences) :
  seqs_ahead t q ->
  exists t' q' i,
    apply_stmt (UpsertArea name) t q = Some (t', q', Some i)
    /\ seqs_ahead t' q'.
Proof.
  intros (Hj & Hc & Ha). cbn [apply_stmt].
  destruct (resolve_or_create_ahead name _ _ Ha) as (d' & i & -> & H).
  eexists _, _, _. split; [reflexivity|]. now split.
Qed.

(** The statements on the rows of one journal always go through, and
    touch neither an id nor a sequence. *)
Lemma row_statement_ahead (s : stmt) :
  match s with
  | UpsertScope _ _ | UpsertMetrics _ _ | InsertIssn _ _
  | UpsertJournalCategory _ _ _ | InsertJournalArea _ _ => True
  | _ => False
  end ->
  forall t q, seqs_ahead t q ->
    exists t' q' r, apply_stmt s t q = Some (t', q', r) /\ seqs_ahead t' q'.
Proof.
  intros Hs t q H.
  destruct s; try contradiction; cbn [apply_stmt];
    eexists _, _, _; (split; [reflexivity|exact H]).
Qed.

(** A journal whose values convert goes through. *)
Lemma import_journal_runs (j : import_asm_journals.journal_json)
    (sid : string) (v : journal_values) (m : metrics_values) :
  import_asm_journals.journal_values_of j = Ok v ->
  import_asm_journals.metrics_values_of j = Ok m ->
  runs ready (import_asm_journals.import_journal db_rejects j sid).
Proof.
  intros Hv Hm. unfold import_asm_journals.import_journal.
  apply runs_bind; [exact (runs_lift _ _ _ Hv)|intros v'].
  apply runs_bind.
  { apply runs_execute_returning. apply upsert_journal_ahead. }
  intros jid. apply runs_bind.
  { destruct (import_asm_journals.scope j) as [[|ch text]|];
      try apply runs_ret.
    apply runs_bind; [|intros _; apply runs_ret].
    apply runs_execute. now apply row_statement_ahead. }
  intros _. apply runs_bind; [exact (runs_lift _ _ _ Hm)|intros m'].
  apply runs_bind.
  { apply runs_execute. now apply row_statement_ahead. }
  intros _. apply runs_bind.
  { apply runs_for_each. intros i.
    apply runs_bind; [|intros _; apply runs_ret].
    apply runs_execute. now apply row_statement_ahead. }
  intros _. apply runs_bind.
  { apply runs_for_each. intros cat.
    unfold import_asm_journals.insert_category.
    apply runs_bind.
    { apply runs_execute_returning. apply upsert_category_ahead. }
    intros cid. apply runs_bind; [|intros _; apply runs_ret].
    apply runs_execute. now apply row_statement_ahead. }
  intros _. apply runs_for_each. intros a.
  unfold import_asm_journals.insert_area.
  apply runs_bind.
  { apply runs_execute_returning. apply upsert_area_ahead. }
  intros aid. apply runs_bind; [|intros _; apply runs_ret].
  apply runs_execute. now apply row_statement_ahead.
Qed.

(** X25: on a schema that refuses nothing, with the sequences at or
    above the ids of their tables, [main] imports every journal of a
    batch in which each journal has a [source_id], text or nothing in
    its text fields, and numbers that convert, the rank and the metrics:
    none is skipped, none is reported, and the sequences are ahead
    again. *)
Theorem main_imports_every_journal
    (journals : list import_asm_journals.journal_json) (c : conn) :
  idle c -> seqs_ahead (committed c) (seqs c) ->
  Forall (fun j =>
            (exists ch sid,
               import_asm_journals.source_id j = Some (String ch sid))
            /\ (exists v, import_asm_journals.journal_values_of j = Ok v)
            /\ exists m, import_asm_journals.metrics_values_of j = Ok m)
    journals ->
  let st := import_asm_journals.main db_rejects journals c in
  import_asm_journals.imported st = length journals
  /\ import_asm_journals.skipped st = 0%nat
  /\ import_asm_journals.reported st = []
  /\ idle (import_asm_journals.db st)
  /\ seqs_ahead (committed (import_asm_journals.db st))
       (seqs (import_asm_journals.db st)).
Proof.
  intros Hidle Hs Hall st. subst st. unfold import_asm_journals.main.
  assert (G : forall l st,
             idle (import_asm_journals.db st) ->
             seqs_ahead (committed (import_asm_journals.db st))
               (seqs (import_asm_journals.db st)) ->
             Forall (fun j =>
                       (exists ch sid,
                          import_asm_journals.source_id j
                          = Some (String ch sid))
                       /\ (exists v,
                             import_asm_journals.journal_values_of j = Ok v)
                       /\ exists m,
                            import_asm_journals.metrics_values_of j = Ok m)
               l ->
             let st' := fold_left (import_asm_journals.import_one db_rejects)
                          l st in
             import_asm_journals.imported st'
             = (import_asm_journals.imported st + length l)%nat
             /\ import_asm_journals.skipped st'
                = import_asm_journals.skipped st
             /\ import_asm_journals.reported st'
                = import_asm_journals.reported st
             /\ idle (import_asm_journals.db st')
             /\ seqs_ahead (committed (import_asm_journals.db st'))
                  (seqs (import_asm_journals.db st'))).
  { induction l as [|j l IH]; intros st Hi Ha Hl.
    - simpl. split_all; auto.
    - inversion Hl as [|? ? ((ch & sid & Hsid) & (v & Hv) & (m & Hm)) Hl'].
      subst.
      destruct Hi as [Hab Hcur].
      assert (R : ready (import_asm_journals.db st))
        by (split; [exact Hab|now rewrite Hcur]).
      destruct (import_journal_runs j (String ch sid) v m Hv Hm _ R)
        as ([] & c1 & Hrun & Hab1 & Hs1).
      cbn [fold_left].
      assert (E : import_asm_journals.import_one db_rejects st j
                  = {| import_asm_journals.db :=
                         {| committed := current c1; current := current c1;
                            seqs := seqs c1; aborted := false |};
                       import_asm_journals.imported :=
                         S (import_asm_journals.imported st);
                       import_asm_journals.skipped :=
                         import_asm_journals.skipped st;
                       import_asm_journals.reported :=
                         import_asm_journals.reported st |}).
      { unfold import_asm_journals.import_one. rewrite Hsid, Hrun.
        unfold commit. now rewrite Hab1. }
      rewrite E.
      match goal with
      | |- context [fold_left _ l ?s] => set (st1 := s)
      end.
      assert (I1 : idle (import_asm_journals.db st1))
        by (split; reflexivity).
      destruct (IH st1 I1 Hs1 Hl') as (A & B & C & D & F).
      simpl in A, B, C. split_all; auto. simpl. lia. }
  exact (G journals
           {| import_asm_journals.db := c;
              import_asm_journals.imported := 0;
              import_asm_journals.skipped := 0;
              import_asm_journals.reported := [] |} Hidle Hs Hall).
Qed.

End ImporterSuccess.

Section ImporterSuccessRuns.
Import Py pg.

Lemma main_imports_every_journal_witness :
  let st := import_asm_journals.main samples.accepts_all
              [samples.jb_2024; samples.jb_later] samples.empty_db in
  import_asm_journals.imported st = 2%nat
  /\ import_asm_journals.skipped st = 0%nat
  /\ import_asm_journals.reported st = [].
Proof.
  assert (J : forall j,
             In j [samples.jb_2024; samples.jb_later] ->
             (exists ch sid,
                import_asm_journals.source_id j = Some (String ch sid))
             /\ (exists v, import_asm_journals.journal_values_of j = Ok v)
             /\ exists m, import_asm_journals.metrics_values_of j = Ok m).
  { intros j [<-|[<-|[]]].
    - split; [now exists "2"%char, "0062"|].
      split; eexists; vm_compute; reflexivity.
    - split; [now exists "2"%char, "0062"|].
      split; eexists; vm_compute; reflexivity. }
  pose proof (main_imports_every_journal samples.accepts_all
                (fun _ => eq_refl) [samples.jb_2024; samples.jb_later]
                samples.empty_db) as H.
  cbv zeta in H |- *.
  destruct H as (A & B & C & _).
  - split; reflexivity.
  - repeat split; apply Forall_nil.
  - apply Forall_forall. exact J.
  - split; [exact A|]. split; [exact B|exact C].
Defined.

End ImporterSuccessRuns.
